(** * ratetrade: signal aggregation, risk assessment and order execution

  A shallow embedding of the three services of the trading bot
  (StrategyEngineService, RiskEngineService, ExecutionService) and the
  properties of their decision logic.

  Numbers. A JavaScript [number] is modelled by [num]: an exact rational
  ([Qc], canonical fractions with Leibniz equality) or one of the three
  special values +Infinity, -Infinity and NaN.  Division by zero, the
  absorbing NaN, [Math.min]/[Math.max] on NaN and comparisons with NaN
  behave as in ECMAScript.  Rounding of IEEE-754 doubles is not modelled
  (finite arithmetic is exact) and the sign of zero is not tracked: a
  division by zero takes the divisor for +0.  The zero divisors that the
  properties below depend on are +0 in the program as well (the maximum
  possible score is a sum started at [0], the total balance of a snapshot
  comes out of [x || 0]) or stand under [Math.abs].

  Maps. A JavaScript [Map] keeps its keys in insertion order; it is
  modelled by an association list with unique keys ([JsMap]).

  Effects. The services mutate their own fields and talk to
  collaborators (Redis, PostgreSQL, RabbitMQ, the exchange).  Service
  state is a record threaded through a state-and-exception monad; the
  collaborators are a record of oracles indexed by a logical clock that
  advances at every external call, so that any sequence of answers and
  failures is represented. *)

From Stdlib Require Import QArith Qcanon Qround.
From Stdlib Require Import Sorting.Sorted.
From stdpp Require Import base numbers strings list pretty.

Set Default Proof Using "Type".
Local Open Scope Qc_scope.

(* ================================================================== *)
(** ** JavaScript numbers *)

Module JsNum.

Inductive num : Type :=
  | Fin (q : Qc)
  | PInf
  | NInf
  | NaN.

Definition Qcltb (x y : Qc) : bool :=
  match x ?= y with Lt => true | _ => false end.
Definition Qceqb (x y : Qc) : bool :=
  match x ?= y with Eq => true | _ => false end.

(** Literals: an integer, and a decimal fraction [n/d]. *)
Definition ofZ (z : Z) : num := Fin (Q2Qc (inject_Z z)).
Definition frac (n : Z) (d : positive) : num := Fin (Q2Qc (n # d)).

Definition inf_of_sign (c : comparison) : num :=
  match c with Gt => PInf | Lt => NInf | Eq => NaN end.

Definition sign (x : num) : comparison :=
  match x with
  | Fin q => q ?= 0
  | PInf => Gt
  | NInf => Lt
  | NaN => Eq
  end.

Definition sign_mul (a b : comparison) : comparison :=
  match a, b with
  | Eq, _ | _, Eq => Eq
  | Gt, Gt | Lt, Lt => Gt
  | _, _ => Lt
  end.

Definition neg (x : num) : num :=
  match x with
  | Fin q => Fin (- q)
  | PInf => NInf
  | NInf => PInf
  | NaN => NaN
  end.

Definition add (x y : num) : num :=
  match x, y with
  | NaN, _ | _, NaN => NaN
  | Fin a, Fin b => Fin (a + b)
  | PInf, NInf | NInf, PInf => NaN
  | PInf, _ | _, PInf => PInf
  | NInf, _ | _, NInf => NInf
  end.

Definition sub (x y : num) : num := add x (neg y).

Definition mul (x y : num) : num :=
  match x, y with
  | NaN, _ | _, NaN => NaN
  | Fin a, Fin b => Fin (a * b)
  | _, _ => inf_of_sign (sign_mul (sign x) (sign y))
  end.

(** [x / y]; a finite non-zero value over zero is an infinity of the
    sign of the numerator, [0 / 0] is NaN. *)
Definition div (x y : num) : num :=
  match x, y with
  | NaN, _ | _, NaN => NaN
  | Fin a, Fin b => if Qceqb b 0 then inf_of_sign (sign x) else Fin (a / b)
  | Fin _, _ => Fin 0
  | _, Fin b => inf_of_sign (sign_mul (sign x) (if Qceqb b 0 then Gt else sign y))
  | _, _ => NaN
  end.

(** Ordering; [None] when an operand is NaN, so every comparison with NaN
    is false. *)
Definition compare (x y : num) : option comparison :=
  match x, y with
  | NaN, _ | _, NaN => None
  | Fin a, Fin b => Some (a ?= b)
  | PInf, PInf | NInf, NInf => Some Eq
  | PInf, _ | _, NInf => Some Gt
  | NInf, _ | _, PInf => Some Lt
  end.

Definition gt (x y : num) : bool :=
  match compare x y with Some Gt => true | _ => false end.
Definition lt (x y : num) : bool :=
  match compare x y with Some Lt => true | _ => false end.
Definition ge (x y : num) : bool :=
  match compare x y with Some Gt | Some Eq => true | _ => false end.
Definition le (x y : num) : bool :=
  match compare x y with Some Lt | Some Eq => true | _ => false end.

(** [Math.min] and [Math.max]: NaN as soon as one argument is NaN. *)
Definition min (x y : num) : num :=
  match compare x y with
  | None => NaN
  | Some Gt => y
  | Some _ => x
  end.
Definition max (x y : num) : num :=
  match compare x y with
  | None => NaN
  | Some Lt => y
  | Some _ => x
  end.

Definition abs (x : num) : num :=
  match x with
  | Fin q => if Qcltb q 0 then Fin (- q) else Fin q
  | PInf | NInf => PInf
  | NaN => NaN
  end.

Definition ceil (x : num) : num :=
  match x with
  | Fin q => ofZ (Qceiling q)
  | _ => x
  end.

(** Truthiness of a number: [0] and NaN are falsy. *)
Definition truthy (x : num) : bool :=
  match x with
  | Fin q => negb (Qceqb q 0)
  | NaN => false
  | _ => true
  end.

(** Truthiness of an optional number ([undefined] is falsy). *)
Definition otruthy (x : option num) : bool :=
  match x with Some v => truthy v | None => false end.

(** [x || d] for an optional number [x]. *)
Definition or_else (x : option num) (d : num) : num :=
  match x with
  | Some v => if truthy v then v else d
  | None => d
  end.

(** An [undefined] used in arithmetic is NaN. *)
Definition to_num (x : option num) : num :=
  match x with Some v => v | None => NaN end.

(** [lo <= x <= hi], false for NaN. *)
Definition in_range (lo hi x : num) : bool := le lo x && le x hi.

(** Whether two model values are the same value (a test of the model, not
    [===]: it holds of NaN and NaN). *)
Definition same (x y : num) : bool :=
  match x, y with
  | Fin a, Fin b => Qceqb a b
  | PInf, PInf | NInf, NInf | NaN, NaN => true
  | _, _ => false
  end.

End JsNum.

Export JsNum.

Declare Scope num_scope.
Delimit Scope num_scope with num.
Bind Scope num_scope with num.
Infix "+" := add : num_scope.
Infix "-" := sub : num_scope.
Infix "*" := mul : num_scope.
Infix "/" := div : num_scope.

(* ================================================================== *)
(** ** JavaScript [Map] with string keys: insertion-ordered *)

Module JsMap.
Section Ops.
Context {V : Type}.

Definition t : Type := list (string * V).

Definition empty : t := [].

Fixpoint get (k : string) (m : t) : option V :=
  match m with
  | [] => None
  | (k', v) :: r => if decide (k = k') then Some v else get k r
  end.

(** [set] overwrites in place when the key exists and appends
    otherwise, as [Map.prototype.set] does. *)
Fixpoint set (k : string) (v : V) (m : t) : t :=
  match m with
  | [] => [(k, v)]
  | (k', v') :: r =>
      if decide (k = k') then (k, v) :: r else (k', v') :: set k v r
  end.

Fixpoint delete (k : string) (m : t) : t :=
  match m with
  | [] => []
  | (k', v') :: r =>
      if decide (k = k') then delete k r else (k', v') :: delete k r
  end.

Definition has (k : string) (m : t) : bool :=
  match get k m with Some _ => true | None => false end.

Definition keys (m : t) : list string := map fst m.
Definition values (m : t) : list V := map snd m.
Definition size (m : t) : nat := length m.
End Ops.
Arguments t : clear implicits.
End JsMap.

(* ================================================================== *)
(** ** Core trading types (src/types/index.ts) *)

Module Action.
(** [Signal.action]; the aggregator also tests for ['HOLD']. *)
Inductive t : Type := BUY | SELL | CLOSE | HOLD.
Global Instance eq_dec : EqDecision t.
Proof. solve_decision. Defined.
End Action.

Module OrderSide.
Inductive t : Type := BUY | SELL.
Global Instance eq_dec : EqDecision t.
Proof. solve_decision. Defined.
End OrderSide.

Module PositionSide.
Inductive t : Type := LONG | SHORT.
Global Instance eq_dec : EqDecision t.
Proof. solve_decision. Defined.
End PositionSide.

Module OrderType.
Inductive t : Type :=
  MARKET | LIMIT | STOP | STOP_MARKET | TAKE_PROFIT | TAKE_PROFIT_MARKET.
Global Instance eq_dec : EqDecision t.
Proof. solve_decision. Defined.
End OrderType.

Module OrderStatus.
Inductive t : Type :=
  NEW | PARTIALLY_FILLED | FILLED | CANCELED | REJECTED | EXPIRED.
Global Instance eq_dec : EqDecision t.
Proof. solve_decision. Defined.
End OrderStatus.

Module RiskLevel.
Inductive t : Type := LOW | MEDIUM | HIGH | CRITICAL.
Global Instance eq_dec : EqDecision t.
Proof. solve_decision. Defined.
End RiskLevel.

Module Signal.
Record t : Type := mk {
  symbol : string;
  action : Action.t;
  confidence : num;
  targetPrice : option num;
  stopLoss : option num;
  takeProfit : option num;
  reasoning : string;
  strategy : string;
  timestamp : Z
}.
End Signal.

Module Order.
Record t : Type := mk {
  id : string;
  symbol : string;
  side : OrderSide.t;
  type : OrderType.t;
  quantity : num;
  price : option num;
  status : OrderStatus.t;
  executedQty : num;
  averagePrice : option num;
  createdAt : Z;
  updatedAt : Z;
  binanceOrderId : option Z
}.

Definition with_status (s : OrderStatus.t) (o : t) : t :=
  mk (id o) (symbol o) (side o) (type o) (quantity o) (price o) s
     (executedQty o) (averagePrice o) (createdAt o) (updatedAt o)
     (binanceOrderId o).
End Order.

Module Position.
Record t : Type := mk {
  symbol : string;
  side : PositionSide.t;
  size : num;
  entryPrice : num;
  markPrice : num;
  unrealizedPnl : num;
  leverage : num;
  marginUsed : num;
  liquidationPrice : option num
}.
End Position.

Module PositionSize.
Record t : Type := mk {
  size : num;
  leverage : num;
  stopLoss : num;
  margin : num
}.
End PositionSize.

(* ================================================================== *)
(** ** StrategyEngineService: signal aggregation *)

Module StrategyConfig.
Record t : Type := mk {
  id : string;
  name : string;
  enabled : bool;
  timeframes : list string;
  symbols : list string;
  parameters : list (string * num);
  weight : num
}.
End StrategyConfig.

Module SignalAggregation.
Record t : Type := mk {
  symbol : string;
  signals : list Signal.t;
  aggregatedSignal : option Signal.t;
  confidence : num;
  timestamp : Z
}.
End SignalAggregation.

Module StrategyEngine.

Definition Groups : Type := list (Action.t * list Signal.t).

(** [if (!groups[a]) groups[a] = []; groups[a].push(signal)]: the object
    keeps its keys in the order of first insertion. *)
Fixpoint group_push (a : Action.t) (s : Signal.t) (groups : Groups) : Groups :=
  match groups with
  | [] => [(a, [s])]
  | (a', ss) :: r =>
      if decide (a = a') then (a', ss ++ [s]) :: r
      else (a', ss) :: group_push a s r
  end.

Definition groupSignals (signals : list Signal.t) : Groups :=
  fold_left (fun groups s => group_push (Signal.action s) s groups) signals [].

Fixpoint lookup_action {V : Type} (a : Action.t) (m : list (Action.t * V))
  : option V :=
  match m with
  | [] => None
  | (a', v) :: r => if decide (a = a') then Some v else lookup_action a r
  end.

(** [strategy?.weight || 0.33] *)
Definition signalWeight (configs : JsMap.t StrategyConfig.t) (s : Signal.t) : num :=
  or_else (StrategyConfig.weight <$> JsMap.get (Signal.strategy s) configs)
          (frac 33 100).

Definition actionScore (configs : JsMap.t StrategyConfig.t)
    (actionSignals : list Signal.t) : num :=
  fold_left
    (fun score s => (score + Signal.confidence s * signalWeight configs s)%num)
    actionSignals (ofZ 0).

Definition actionScores (configs : JsMap.t StrategyConfig.t) (groups : Groups)
  : list (Action.t * num) :=
  map (fun g => (fst g, actionScore configs (snd g))) groups.

(** [actionScores[a]]; a missing key reads [undefined]. *)
Definition scoreOf (scores : list (Action.t * num)) (a : Action.t) : num :=
  to_num (lookup_action a scores).

(** [Object.keys(actionScores).reduce((a, b) =>
      actionScores[a] > actionScores[b] ? a : b)]
    The reduction has no initial value: it starts from the first key;
    [first] is that key (the array is never empty when this runs). *)
Definition bestActionOf (scores : list (Action.t * num)) (first : Action.t)
  : Action.t :=
  fold_left
    (fun a b => if gt (scoreOf scores a) (scoreOf scores b) then a else b)
    (tail (map fst scores)) (hd first (map fst scores)).

Definition listsSymbol (symbol : string) (c : StrategyConfig.t) : bool :=
  StrategyConfig.enabled c && bool_decide (symbol ∈ StrategyConfig.symbols c).

Definition maxPossibleScore (configs : JsMap.t StrategyConfig.t)
    (symbol : string) : num :=
  fold_left
    (fun sum c => (sum + StrategyConfig.weight c * ofZ 100)%num)
    (filter (fun c => Is_true (listsSymbol symbol c)) (JsMap.values configs))
    (ofZ 0).

Definition computeConfidence (bestScore maxPossible : num) : num :=
  min (ofZ 100) (bestScore / maxPossible * ofZ 100)%num.

(** Mean of an optional field over the signals that carry a truthy value. *)
Definition averageOf (field : Signal.t -> option num) (bestSignals : list Signal.t)
  : option num :=
  let valid := filter (fun s => Is_true (otruthy (field s))) bestSignals in
  if decide (0 < length valid)%nat then
    Some (fold_left (fun sum s => (sum + or_else (field s) (ofZ 0))%num)
                    valid (ofZ 0)
          / ofZ (Z.of_nat (length valid)))%num
  else None.

Definition reasoningOf (bestSignals : list Signal.t) : string :=
  "Aggregated from " +:+ pretty (length bestSignals) +:+ " strategies: "
    +:+ String.concat ", " (map Signal.strategy bestSignals).

(** [aggregateSignals(symbol, signals)].  [now k] is the k-th reading of
    [Date.now()] made by the call: a resolved signal takes the first reading
    and leaves the second to the decision; without a resolved signal the
    decision takes the first. *)
Definition aggregateSignals (configs : JsMap.t StrategyConfig.t)
    (now : nat -> Z) (symbol : string) (signals : list Signal.t)
  : SignalAggregation.t :=
  match signals with
  | [] => SignalAggregation.mk symbol signals None (ofZ 0) (now 0%nat)
  | s0 :: _ =>
      let groupedSignals := groupSignals signals in
      let scores := actionScores configs groupedSignals in
      let bestAction := bestActionOf scores (Signal.action s0) in
      let bestScore := scoreOf scores bestAction in
      let confidence :=
        computeConfidence bestScore (maxPossibleScore configs symbol) in
      let aggregatedSignal :=
        if gt confidence (ofZ 50) && negb (bool_decide (bestAction = Action.HOLD))
        then
          let bestSignals := default [] (lookup_action bestAction groupedSignals) in
          Some (Signal.mk symbol bestAction confidence
                  (averageOf Signal.targetPrice bestSignals)
                  (averageOf Signal.stopLoss bestSignals)
                  None
                  (reasoningOf bestSignals)
                  "aggregated"
                  (now 0%nat))
        else None in
      SignalAggregation.mk symbol signals aggregatedSignal confidence
        (now (match aggregatedSignal with Some _ => 1 | None => 0 end)%nat)
  end.

End StrategyEngine.

(* ================================================================== *)
(** ** Errors and service responses *)

(** The error classes of src/types/index.ts that the modelled code throws;
  [OtherError] stands for a plain [Error] raised by a collaborator. *)
Inductive Err : Type :=
| RiskError (message : string)
| TradingError (message code : string)
| OtherError (message : string).

(** [sendResponse(res, success, data, error)] *)
Module Response.
Record t (A : Type) : Type := mk {
  success : bool;
  data : option A;
  error : option string
}.
Arguments mk {A}.
Arguments success {A}.
Arguments data {A}.
Arguments error {A}.
End Response.

(** The fields of [Config] (src/config/index.ts) read by the modelled
  code; they come from the process environment. *)
Module Config.
Record t : Type := mk {
  DEFAULT_LEVERAGE : num;
  MAX_LEVERAGE : num;
  MAX_DAILY_LOSS_PERCENT : num;
  MAX_POSITION_PERCENT : num;
  simulation : bool  (* BOT_MODE === 'SIM' *)
}.
End Config.

(* ================================================================== *)
(** ** RiskEngineService *)

Module RiskLimits.
Record t : Type := mk {
  dailyLossLimit : num;
  maxLeverage : num;
  maxPositionSize : num;
  maxDrawdown : num;
  maxOpenPositions : num;
  concentrationLimit : num;
  liquidationBuffer : num
}.
End RiskLimits.

Module RiskMetrics.
Record t : Type := mk {
  totalBalance : num;
  availableBalance : num;
  totalUnrealizedPnl : num;
  dailyPnL : num;
  maxDrawdown : num;
  riskLevel : RiskLevel.t;
  isTradeAllowed : bool;
  marginUsage : num;
  liquidationRisk : num
}.
End RiskMetrics.

(** The entries of [RiskAssessment.reasons].  The program renders them as
  text from three templates; the model keeps the template and the numbers
  put into it. *)
Inductive Reason : Type :=
| TradingNotAllowed
(* 'Trading not allowed due to high risk level' *)
| LeverageExceeds (leverage maxLeverage : num)
(* `Leverage ${leverage}x exceeds maximum ${maxLeverage}x` *)
| PositionSizeExceeds (positionPercent maxPositionSize : num).
(* `Position size ${positionPercent.toFixed(2)}% exceeds maximum ${maxPositionSize}%` *)

Module RiskAssessment.
Record t : Type := mk {
  symbol : string;
  isAllowed : bool;
  riskLevel : RiskLevel.t;
  reasons : list Reason;
  recommendedSize : num;
  recommendedLeverage : num;
  maxAllowedSize : num;
  stopLoss : num
}.
End RiskAssessment.

(** The body of a validate-position request. *)
Module PositionData.
Record t : Type := mk {
  symbol : string;
  side : PositionSide.t;
  size : num;
  leverage : num;
  price : num
}.
End PositionData.

(** What the collaborators answer during one risk snapshot; [None] is a
  call that throws. *)
Module RiskFeed.
Record t : Type := mk {
  balance : option (option num * option num);
(* binanceAPI.getFuturesBalance(): (balance.total, balance.free) *)
exchangePositions : option (list Position.t);
(* binanceAPI.getFuturesPositions() *)
dailyPnlRow : option num
(* parseFloat(result[0]?.daily_pnl || '0') of calculate_daily_pnl *)
}.
End RiskFeed.

Module RiskEngine.

Record State : Type := mkState {
  riskLimits : RiskLimits.t;
  currentRiskMetrics : option RiskMetrics.t;
  positions : JsMap.t Position.t;
  dailyPnL : num;
  maxDrawdown : num;
  balanceHistory : list num;
  isMonitoring : bool;
  monitoringInterval : option nat
}.

(** The constructor. *)
Definition init (cfg : Config.t) : State :=
  mkState
    (RiskLimits.mk (Config.MAX_DAILY_LOSS_PERCENT cfg) (Config.MAX_LEVERAGE cfg)
       (Config.MAX_POSITION_PERCENT cfg) (ofZ 15) (ofZ 5) (ofZ 40) (ofZ 20))
    None JsMap.empty (ofZ 0) (ofZ 0) [] false None.

Definition determineRiskLevel (limits : RiskLimits.t) (dailyPnL : num)
    (totalBalance unrealizedPnl marginUsage : num) : RiskLevel.t :=
  let dailyLossPercent := (abs (dailyPnL / totalBalance) * ofZ 100)%num in
  if gt dailyLossPercent (RiskLimits.dailyLossLimit limits * frac 8 10)%num
     || gt marginUsage (ofZ 80)
  then RiskLevel.CRITICAL
  else if gt dailyLossPercent (RiskLimits.dailyLossLimit limits * frac 6 10)%num
          || gt marginUsage (ofZ 60)
  then RiskLevel.HIGH
  else if gt dailyLossPercent (RiskLimits.dailyLossLimit limits * frac 3 10)%num
          || gt marginUsage (ofZ 40)
  then RiskLevel.MEDIUM
  else RiskLevel.LOW.

(** [loadCurrentPositions]: on success the map is cleared and refilled;
    a failure of the exchange leaves it as it was. *)
Definition loadCurrentPositions (fetched : option (list Position.t))
    (positions : JsMap.t Position.t) : JsMap.t Position.t :=
  match fetched with
  | Some ps =>
      fold_left (fun m p => JsMap.set (Position.symbol p) p m) ps JsMap.empty
  | None => positions
  end.

(** [calculateDailyPnL]: a failed query resets the figure to 0. *)
Definition calculateDailyPnL (row : option num) : num :=
  match row with Some v => v | None => ofZ 0 end.

Definition updateBalanceHistory (currentBalance : num) (history : list num)
  : list num :=
  let pushed := history ++ [currentBalance] in
  if decide (100 < length pushed)%nat then tail pushed else pushed.

Definition calculateMaxDrawdown (history : list num) : num :=
  if decide (length history < 2)%nat then ofZ 0
  else
    snd (fold_left
           (fun '(peak, maxDD) balance =>
              let peak := if gt balance peak then balance else peak in
              let drawdown := ((peak - balance) / peak * ofZ 100)%num in
              (peak, if gt drawdown maxDD then drawdown else maxDD))
           history (hd (ofZ 0) history, ofZ 0)).

Definition calculateLiquidationRisk (positions : JsMap.t Position.t) : num :=
  let '(totalLiquidationRisk, totalPositionValue) :=
    fold_left
      (fun '(risk, value) position =>
         match Position.liquidationPrice position with
         | Some liq =>
             if truthy liq && truthy (Position.markPrice position) then
               let distanceToLiquidation :=
                 (abs (Position.markPrice position - liq)
                  / Position.markPrice position)%num in
               let positionValue :=
                 (Position.size position * Position.markPrice position)%num in
               ((risk + (ofZ 1 - distanceToLiquidation) * positionValue)%num,
                (value + positionValue)%num)
             else (risk, value)
         | None => (risk, value)
         end)
      (JsMap.values positions) (ofZ 0, ofZ 0) in
  if gt totalPositionValue (ofZ 0)
  then (totalLiquidationRisk / totalPositionValue * ofZ 100)%num
  else ofZ 0.

(** [updateRiskMetrics].  Everything runs inside one [try]: when the
    balance cannot be fetched nothing has changed yet; the writes to the
    cache and the database come after the snapshot is assigned, so their
    failure does not undo it. *)
Definition updateRiskMetrics (feed : RiskFeed.t) (st : State) : State :=
  match RiskFeed.balance feed with
  | None => st
  | Some (total, free) =>
      let totalBalance := or_else total (ofZ 0) in
      let availableBalance := or_else free (ofZ 0) in
      let positions :=
        loadCurrentPositions (RiskFeed.exchangePositions feed) (positions st) in
      let totalUnrealizedPnl :=
        fold_left (fun sum pos => (sum + Position.unrealizedPnl pos)%num)
                  (JsMap.values positions) (ofZ 0) in
      let dailyPnL := calculateDailyPnL (RiskFeed.dailyPnlRow feed) in
      let history :=
        updateBalanceHistory (totalBalance + totalUnrealizedPnl)%num
                             (balanceHistory st) in
      let maxDrawdown := calculateMaxDrawdown history in
      let totalMarginUsed :=
        fold_left (fun sum pos => (sum + Position.marginUsed pos)%num)
                  (JsMap.values positions) (ofZ 0) in
      let marginUsage :=
        if gt totalBalance (ofZ 0)
        then (totalMarginUsed / totalBalance * ofZ 100)%num
        else ofZ 0 in
      let riskLevel :=
        determineRiskLevel (riskLimits st) dailyPnL
                           totalBalance totalUnrealizedPnl marginUsage in
      let metrics :=
        RiskMetrics.mk totalBalance availableBalance totalUnrealizedPnl
          dailyPnL maxDrawdown riskLevel
          (negb (bool_decide (riskLevel = RiskLevel.CRITICAL)))
          marginUsage (calculateLiquidationRisk positions) in
      mkState (riskLimits st) (Some metrics) positions dailyPnL maxDrawdown
              history (isMonitoring st) (monitoringInterval st)
  end.

Definition validatePosition (st : State) (positionData : PositionData.t)
  : RiskAssessment.t :=
  let symbol := PositionData.symbol positionData in
  let side := PositionData.side positionData in
  let size := PositionData.size positionData in
  let leverage := PositionData.leverage positionData in
  let price := PositionData.price positionData in
  let limits := riskLimits st in
  let tradeAllowed :=
    match currentRiskMetrics st with
    | Some m => RiskMetrics.isTradeAllowed m
    | None => false
    end in
  if negb tradeAllowed then
    RiskAssessment.mk symbol false RiskLevel.CRITICAL [TradingNotAllowed]
      size leverage size (ofZ 0)
  else
    let leverageExceeded := gt leverage (RiskLimits.maxLeverage limits) in
    let positionValue := (size * price)%num in
    let totalBalance :=
      or_else (RiskMetrics.totalBalance <$> currentRiskMetrics st) (ofZ 0) in
    let positionPercent := (positionValue / totalBalance * ofZ 100)%num in
    let sizeExceeded := gt positionPercent (RiskLimits.maxPositionSize limits) in
    let maxAllowedSize :=
      if sizeExceeded
      then (totalBalance * RiskLimits.maxPositionSize limits / ofZ 100 / price)%num
      else size in
    let riskAmount := (totalBalance * frac 2 100)%num in
    let stopLossDistance := (riskAmount / size)%num in
    RiskAssessment.mk symbol
      (negb leverageExceeded && negb sizeExceeded)
      RiskLevel.LOW
      ((if leverageExceeded
        then [LeverageExceeds leverage (RiskLimits.maxLeverage limits)] else [])
       ++ (if sizeExceeded
           then [PositionSizeExceeds positionPercent
                   (RiskLimits.maxPositionSize limits)] else []))
      maxAllowedSize
      (if leverageExceeded then RiskLimits.maxLeverage limits else leverage)
      maxAllowedSize
      (match side with
       | PositionSide.LONG => (price - stopLossDistance)%num
       | PositionSide.SHORT => (price + stopLossDistance)%num
       end).

Definition calculateOptimalPositionSize (cfg : Config.t) (st : State)
    (signal : Signal.t) (currentPrice : num) : Err + PositionSize.t :=
  match currentRiskMetrics st with
  | None => inl (RiskError "Risk metrics not available")
  | Some metrics =>
      let maxRiskPerTrade := frac 2 100 in
      let confidenceMultiplier := (Signal.confidence signal / ofZ 100)%num in
      let totalBalance := RiskMetrics.totalBalance metrics in
      let baseSize :=
        (totalBalance * maxRiskPerTrade * confidenceMultiplier / currentPrice)%num in
      let maxPositionValue :=
        (totalBalance
         * (RiskLimits.maxPositionSize (riskLimits st) / ofZ 100))%num in
      let maxSize := (maxPositionValue / currentPrice)%num in
      let baseSize := if gt baseSize maxSize then maxSize else baseSize in
      let leverage :=
        min (ceil (Config.DEFAULT_LEVERAGE cfg
                   * (ofZ 1 + (Signal.confidence signal - ofZ 50) / ofZ 100))%num)
            (RiskLimits.maxLeverage (riskLimits st)) in
      let stopLossDistance :=
        if otruthy (Signal.stopLoss signal)
        then abs (currentPrice - to_num (Signal.stopLoss signal))%num
        else (currentPrice * frac 2 100)%num in
      let stopLoss :=
        if decide (Signal.action signal = Action.BUY)
        then (currentPrice - stopLossDistance)%num
        else (currentPrice + stopLossDistance)%num in
      let margin := (baseSize * currentPrice / leverage)%num in
      inr (PositionSize.mk baseSize leverage stopLoss margin)
  end.

(** [calculatePositionSizeHandler] once the request body has passed the
    schema: the error of the sizing is caught and reported; the service
    state is not written. *)
Definition calculatePositionSizeHandler (cfg : Config.t) (st : State)
    (signal : Signal.t) (currentPrice : num)
  : State * Response.t PositionSize.t :=
  match calculateOptimalPositionSize cfg st signal currentPrice with
  | inr positionSize => (st, Response.mk true (Some positionSize) None)
  | inl _ => (st, Response.mk false None (Some "Failed to calculate position size"))
  end.

End RiskEngine.

(* ================================================================== *)
(** ** ExecutionService *)

Module ExecutionConfig.
Record t : Type := mk {
  slippageTolerance : num;
  maxOrderRetries : num;
  orderTimeout : num;
  partialFillThreshold : num;
  simulationMode : bool
}.
End ExecutionConfig.

Module TrackStatus.
Inductive t : Type := PENDING | EXECUTING | COMPLETED | FAILED | CANCELLED.
End TrackStatus.

Module OrderExecution.
Record t : Type := mk {
  orderId : string;
  status : TrackStatus.t;
  attempts : num;
  lastAttempt : Z;
  error : option string
}.
End OrderExecution.

Module SimulatedExecution.
Record t : Type := mk {
  orderId : string;
  symbol : string;
  side : OrderSide.t;
  quantity : num;
  price : num;
  executedPrice : option num;
  slippage : num;
  fee : num;
  timestamp : Z
}.
End SimulatedExecution.

Module OrderParams.
Record t : Type := mk {
  symbol : string;
  side : OrderSide.t;
  type : OrderType.t;
  quantity : num;
  price : option num;
  leverage : option num
}.
End OrderParams.

Inductive result (A : Type) : Type :=
| Ok (a : A)
| Throw (e : Err).
Arguments Ok {A}.
Arguments Throw {A}.

(** The collaborators of the execution service.  Every oracle takes the
  logical time of the call; [Throw] is a rejected promise. *)
Module World.
Record t : Type := mk {
  Math_log : num -> num;
  Date_now : nat -> Z;
  newOrderId : nat -> string;
(* `sim_${Date.now()}_${Math.random().toString(36).substr(2, 9)}` *)
redis_getMarketData : nat -> string -> result (option num);
(* the price of the cached market data, if any is cached *)
redis_set : nat -> string -> result unit;
db_selectOrder : nat -> string -> result (option Order.t);
(* SELECT * FROM orders WHERE id = $1, first row through mapDbOrderToOrder *)
db_storeOrder : nat -> Order.t -> result unit;
db_updateOrder : nat -> Order.t -> result unit;
binance_createOrder : nat -> OrderParams.t -> result Order.t;
binance_cancelOrder : nat -> string -> string -> result unit;
binance_getOrder : nat -> string -> string -> option Order.t;
binance_getFuturesPositions : nat -> result (list Position.t);
binance_closePosition : nat -> string -> result bool;
mq_request : nat -> Signal.t -> num -> result (option PositionSize.t)
(* messageQueue.request('trading', 'risk.calculate_size', ..., 10000) *)
}.
End World.

Module Execution.

(** The fields of the service, followed by what the run-time system and
    the collaborators hold on its behalf: the logical clock, the interval
    timers that are armed, and what was written to Redis and published
    on the bus. *)
Record State : Type := mkState {
  config : ExecutionConfig.t;
  pendingOrders : JsMap.t OrderExecution.t;
  orderHistory : JsMap.t Order.t;
  isExecuting : bool;
  executionInterval : option nat;
  simulatedBalance : num;
  clock : nat;
  timers : list nat;
  nextTimer : nat;
  simExecutions : list SimulatedExecution.t;
  published : list Order.t
}.

(** The constructor. *)
Definition init (cfg : Config.t) : State :=
  mkState
    (ExecutionConfig.mk (frac 1 10) (ofZ 3) (ofZ 30000) (frac 1 10)
                        (Config.simulation cfg))
    JsMap.empty JsMap.empty false None (ofZ 100000) 0 [] 0 [] [].

Definition with_pendingOrders (p : JsMap.t OrderExecution.t) (s : State) : State :=
  mkState (config s) p (orderHistory s) (isExecuting s) (executionInterval s)
    (simulatedBalance s) (clock s) (timers s) (nextTimer s) (simExecutions s)
    (published s).
Definition with_orderHistory (h : JsMap.t Order.t) (s : State) : State :=
  mkState (config s) (pendingOrders s) h (isExecuting s) (executionInterval s)
    (simulatedBalance s) (clock s) (timers s) (nextTimer s) (simExecutions s)
    (published s).
Definition with_isExecuting (b : bool) (s : State) : State :=
  mkState (config s) (pendingOrders s) (orderHistory s) b (executionInterval s)
    (simulatedBalance s) (clock s) (timers s) (nextTimer s) (simExecutions s)
    (published s).
Definition with_executionInterval (i : option nat) (s : State) : State :=
  mkState (config s) (pendingOrders s) (orderHistory s) (isExecuting s) i
    (simulatedBalance s) (clock s) (timers s) (nextTimer s) (simExecutions s)
    (published s).
Definition with_simulatedBalance (b : num) (s : State) : State :=
  mkState (config s) (pendingOrders s) (orderHistory s) (isExecuting s)
    (executionInterval s) b (clock s) (timers s) (nextTimer s)
    (simExecutions s) (published s).
Definition with_clock (c : nat) (s : State) : State :=
  mkState (config s) (pendingOrders s) (orderHistory s) (isExecuting s)
    (executionInterval s) (simulatedBalance s) c (timers s) (nextTimer s)
    (simExecutions s) (published s).
Definition with_timers (t : list nat) (n : nat) (s : State) : State :=
  mkState (config s) (pendingOrders s) (orderHistory s) (isExecuting s)
    (executionInterval s) (simulatedBalance s) (clock s) t n
    (simExecutions s) (published s).
Definition with_simExecutions (l : list SimulatedExecution.t) (s : State) : State :=
  mkState (config s) (pendingOrders s) (orderHistory s) (isExecuting s)
    (executionInterval s) (simulatedBalance s) (clock s) (timers s)
    (nextTimer s) l (published s).
Definition with_published (l : list Order.t) (s : State) : State :=
  mkState (config s) (pendingOrders s) (orderHistory s) (isExecuting s)
    (executionInterval s) (simulatedBalance s) (clock s) (timers s)
    (nextTimer s) (simExecutions s) l.

(** *** The state-and-exception monad.  A thrown error keeps the writes
    made before it, as in the program. *)
Definition M (A : Type) : Type := State -> result A * State.

Definition ret {A} (a : A) : M A := fun s => (Ok a, s).
Definition throw {A} (e : Err) : M A := fun s => (Throw e, s).
Definition bind {A B} (m : M A) (k : A -> M B) : M B :=
  fun s => match m s with
           | (Ok a, s') => k a s'
           | (Throw e, s') => (Throw e, s')
           end.
Definition try_catch {A} (m : M A) (handler : Err -> M A) : M A :=
  fun s => match m s with
           | (Ok a, s') => (Ok a, s')
           | (Throw e, s') => handler e s'
           end.
Definition gets {A} (f : State -> A) : M A := fun s => (Ok (f s), s).
Definition modify (f : State -> State) : M unit := fun s => (Ok tt, f s).
Definition lift {A} (r : result A) : M A := fun s => (r, s).

Notation "'do' x <- m ; k" := (bind m (fun x => k))
  (at level 10, x name, m at level 100, k at level 200).
Notation "m ;; k" := (bind m (fun _ => k))
  (at level 100, k at level 200, right associativity).

(** An external call: read the clock, advance it, ask the oracle. *)
Definition tick : M nat :=
  fun s => (Ok (clock s), with_clock (S (clock s)) s).
Definition ext {A} (f : nat -> result A) : M A :=
  do t <- tick; lift (f t).
Definition ext_total {A} (f : nat -> A) : M A :=
  do t <- tick; ret (f t).

Fixpoint forM {A B} (l : list A) (f : A -> M B) : M (list B) :=
  match l with
  | [] => ret []
  | a :: r => do b <- f a; do bs <- forM r f; ret (b :: bs)
  end.

Fixpoint forM_ {A} (l : list A) (f : A -> M unit) : M unit :=
  match l with
  | [] => ret tt
  | a :: r => (f a ;; forM_ r f)
  end.

(** [messageQueue.publishOrderUpdate]: it reports a failure through its
    boolean result, which no caller reads, and does not throw. *)
Definition publishOrderUpdate (order : Order.t) : M unit :=
  modify (fun s => with_published (published s ++ [order]) s).

Section WithWorld.
Variable w : World.t.

Definition calculateSlippage (quantity price : num) : num :=
  let orderValue := (quantity * price)%num in
  let baseSlippage := frac 5 100 in
  let volumeImpact :=
    (World.Math_log w (orderValue / ofZ 10000) * frac 1 100)%num in
  max (ofZ 0) (baseSlippage + volumeImpact)%num.

Definition applySlippage (price : num) (side : OrderSide.t)
    (slippagePercent : num) : num :=
  let slippageFactor := (slippagePercent / ofZ 100)%num in
  match side with
  | OrderSide.BUY => (price * (ofZ 1 + slippageFactor))%num
  | OrderSide.SELL => (price * (ofZ 1 - slippageFactor))%num
  end.

Definition simulateOrderExecution (orderParams : OrderParams.t) : M Order.t :=
  let symbol := OrderParams.symbol orderParams in
  let side := OrderParams.side orderParams in
  let type := OrderParams.type orderParams in
  let quantity := OrderParams.quantity orderParams in
  let price := OrderParams.price orderParams in
  do marketData <- ext (fun t => World.redis_getMarketData w t symbol);
  let currentPrice := or_else marketData (or_else price (ofZ 0)) in
  let slippage := calculateSlippage quantity currentPrice in
  let executedPrice :=
    if decide (type = OrderType.MARKET)
    then Some (applySlippage currentPrice side slippage)
    else price in
  let fee := (quantity * to_num executedPrice * frac 4 10000)%num in
  let cost := (quantity * to_num executedPrice + fee)%num in
  modify (fun s =>
    match side with
    | OrderSide.BUY =>
        with_simulatedBalance (simulatedBalance s - cost)%num s
    | OrderSide.SELL =>
        with_simulatedBalance (simulatedBalance s + (cost - fee))%num s
    end) ;;
  do id <- ext_total (World.newOrderId w);
  do created <- ext_total (World.Date_now w);
  let order :=
    Order.mk id symbol side type quantity executedPrice OrderStatus.FILLED
             quantity executedPrice created created None in
  let execution :=
    SimulatedExecution.mk id symbol side quantity currentPrice executedPrice
                          slippage fee created in
  ext (fun t => World.redis_set w t ("sim_execution:" +:+ id)) ;;
  modify (fun s => with_simExecutions (simExecutions s ++ [execution]) s) ;;
  ret order.

Definition createOrder (orderParams : OrderParams.t) : M Order.t :=
  try_catch
    (do sim <- gets (fun s => ExecutionConfig.simulationMode (config s));
     do order <-
       (if sim then simulateOrderExecution orderParams
        else ext (fun t => World.binance_createOrder w t orderParams));
     modify (fun s =>
       with_orderHistory (JsMap.set (Order.id order) order (orderHistory s)) s) ;;
     ext (fun t => World.db_storeOrder w t order) ;;
     do at_ <- ext_total (World.Date_now w);
     modify (fun s =>
       with_pendingOrders
         (JsMap.set (Order.id order)
            (OrderExecution.mk (Order.id order) TrackStatus.PENDING (ofZ 0)
                               at_ None)
            (pendingOrders s)) s) ;;
     publishOrderUpdate order ;;
     ret order)
    (fun _ => throw (TradingError "Failed to create order" "ORDER_CREATE_ERROR")).

Definition getOrder (orderId : string) : M (option Order.t) :=
  do cached <- gets (fun s => JsMap.get orderId (orderHistory s));
  match cached with
  | Some order => ret (Some order)
  | None =>
      do row <- ext (fun t => World.db_selectOrder w t orderId);
      match row with
      | Some order => ret (Some order)
      | None =>
          do sim <- gets (fun s => ExecutionConfig.simulationMode (config s));
          if sim then ret None
          else ext_total (fun t => World.binance_getOrder w t orderId "")
      end
  end.

Definition cancelOrder (orderId : string) : M bool :=
  try_catch
    (do found <- getOrder orderId;
     match found with
     | None => ret false
     | Some order =>
         do sim <- gets (fun s => ExecutionConfig.simulationMode (config s));
         do order <-
           (if sim then
              let order := Order.with_status OrderStatus.CANCELED order in
              modify (fun s =>
                with_orderHistory (JsMap.set orderId order (orderHistory s)) s) ;;
              ext (fun t => World.db_updateOrder w t order) ;;
              ret order
            else
              ext (fun t =>
                World.binance_cancelOrder w t orderId (Order.symbol order)) ;;
              ret order);
         modify (fun s =>
           with_pendingOrders (JsMap.delete orderId (pendingOrders s)) s) ;;
         publishOrderUpdate order ;;
         ret true
     end)
    (fun _ => ret false).


(** [getSimulatedPositions]: replay of the order history.  The position
    found in the map is updated in place. *)
Definition applyOrder (positions : JsMap.t Position.t) (order : Order.t)
  : JsMap.t Position.t :=
  if decide (Order.status order = OrderStatus.FILLED) then
    match JsMap.get (Order.symbol order) positions with
    | Some existing =>
        let size :=
          match Order.side order with
          | OrderSide.BUY => (Position.size existing + Order.executedQty order)%num
          | OrderSide.SELL => (Position.size existing - Order.executedQty order)%num
          end in
        let entryPrice :=
          if gt size (ofZ 0) then
            ((Position.entryPrice existing * (size - Order.executedQty order)
              + to_num (Order.averagePrice order) * Order.executedQty order)
             / size)%num
          else Position.entryPrice existing in
        JsMap.set (Order.symbol order)
          (Position.mk (Position.symbol existing) (Position.side existing)
             size entryPrice (Position.markPrice existing)
             (Position.unrealizedPnl existing) (Position.leverage existing)
             (Position.marginUsed existing) (Position.liquidationPrice existing))
          positions
    | None =>
        JsMap.set (Order.symbol order)
          (Position.mk (Order.symbol order)
             (match Order.side order with
              | OrderSide.BUY => PositionSide.LONG
              | OrderSide.SELL => PositionSide.SHORT
              end)
             (Order.executedQty order)
             (to_num (Order.averagePrice order))
             (to_num (Order.averagePrice order))
             (ofZ 0) (ofZ 1)
             (Order.executedQty order * to_num (Order.averagePrice order))%num
             None)
          positions
    end
  else positions.

Definition replayOrders (orders : list Order.t) : JsMap.t Position.t :=
  fold_left applyOrder orders JsMap.empty.

Definition openPositions (positions : JsMap.t Position.t) : list Position.t :=
  filter (fun pos => Is_true (gt (Position.size pos) (ofZ 0)))
         (JsMap.values positions).

Definition getSimulatedPositions : M (list Position.t) :=
  gets (fun s => openPositions (replayOrders (JsMap.values (orderHistory s)))).

Definition closeSimulatedPosition (symbol : string) : M bool :=
  do positions <- getSimulatedPositions;
  match List.find (fun pos => bool_decide (Position.symbol pos = symbol)) positions with
  | None => ret true
  | Some position =>
      let side :=
        match Position.side position with
        | PositionSide.LONG => OrderSide.SELL
        | PositionSide.SHORT => OrderSide.BUY
        end in
      createOrder
        (OrderParams.mk symbol side OrderType.MARKET (Position.size position)
                        None None) ;;
      ret true
  end.

Definition closePosition (symbol : string) : M bool :=
  try_catch
    (do sim <- gets (fun s => ExecutionConfig.simulationMode (config s));
     if sim then closeSimulatedPosition symbol
     else ext (fun t => World.binance_closePosition w t symbol))
    (fun _ => ret false).

Definition getPositions : M (list Position.t) :=
  do sim <- gets (fun s => ExecutionConfig.simulationMode (config s));
  if sim then getSimulatedPositions
  else ext (World.binance_getFuturesPositions w).

(** [closeAllPositions].  The program starts one [closePosition] per
    position and awaits them together; each of them touches only the
    orders of its own symbol, and the symbols of the positions are
    distinct, so the calls are run here one after the other. *)
Definition closeAllPositions : M bool :=
  try_catch
    (do positions <- getPositions;
     do results <- forM positions (fun position =>
                     closePosition (Position.symbol position));
     ret (forallb id results))
    (fun _ => ret false).

Definition handleTradingSignal (signal : Signal.t) : M unit :=
  try_catch
    (if decide (Signal.action signal = Action.CLOSE) then
       closePosition (Signal.symbol signal) ;; ret tt
     else
       do marketData <-
         ext (fun t => World.redis_getMarketData w t (Signal.symbol signal));
       match marketData with
       | None => ret tt
       | Some price =>
           do positionSize <- ext (fun t => World.mq_request w t signal price);
           match positionSize with
           | None => ret tt
           | Some positionSize =>
               if le (PositionSize.size positionSize) (ofZ 0) then ret tt
               else
                 createOrder
                   (OrderParams.mk (Signal.symbol signal)
                      (if decide (Signal.action signal = Action.BUY)
                       then OrderSide.BUY else OrderSide.SELL)
                      OrderType.MARKET
                      (PositionSize.size positionSize)
                      None
                      (Some (PositionSize.leverage positionSize))) ;;
                 ret tt
           end
       end)
    (fun _ => ret tt).

(** [setInterval] arms a timer and returns its handle; [clearInterval]
    disarms it. *)
Definition setInterval : M nat :=
  fun s => (Ok (nextTimer s),
            with_timers (timers s ++ [nextTimer s]) (S (nextTimer s)) s).
Definition clearInterval (handle : nat) : M unit :=
  modify (fun s =>
    with_timers (filter (fun h => h ≠ handle) (timers s)) (nextTimer s) s).

Definition startOrderExecution : M unit :=
  do running <- gets isExecuting;
  if running then ret tt
  else
    modify (with_isExecuting true) ;;
    do handle <- setInterval;
    modify (with_executionInterval (Some handle)).

Definition stopOrderExecution : M unit :=
  do running <- gets isExecuting;
  if negb running then ret tt
  else
    modify (with_isExecuting false) ;;
    do interval <- gets executionInterval;
    match interval with
    | Some handle =>
        clearInterval handle ;; modify (with_executionInterval None)
    | None => ret tt
    end.

(** [checkOrderStatus(orderId, execution)].  The call writes to the record
    it is handed, not to [pendingOrders]: the result is that record as the
    call leaves it. *)
Definition checkOrderStatus (orderId : string) (execution : OrderExecution.t)
  : M OrderExecution.t :=
  do sim <- gets (fun s => ExecutionConfig.simulationMode (config s));
  if sim then
    modify (fun s =>
      with_pendingOrders (JsMap.delete orderId (pendingOrders s)) s) ;;
    ret execution
  else
    try_catch
      (do found <- getOrder orderId;
       match found with
       | None =>
           modify (fun s =>
             with_pendingOrders (JsMap.delete orderId (pendingOrders s)) s) ;;
           ret execution
       | Some order =>
           if bool_decide (Order.status order = OrderStatus.FILLED)
              || bool_decide (Order.status order = OrderStatus.CANCELED)
              || bool_decide (Order.status order = OrderStatus.REJECTED)
           then
             modify (fun s =>
               with_pendingOrders (JsMap.delete orderId (pendingOrders s)) s) ;;
             ext (fun t => World.db_updateOrder w t order) ;;
             publishOrderUpdate order ;;
             ret execution
           else
             do now <- ext_total (World.Date_now w);
             do timeout <- gets (fun s => ExecutionConfig.orderTimeout (config s));
             if gt (ofZ (now - OrderExecution.lastAttempt execution)) timeout then
               do retries <-
                 gets (fun s => ExecutionConfig.maxOrderRetries (config s));
               if lt (OrderExecution.attempts execution) retries then
                 do at_ <- ext_total (World.Date_now w);
                 ret (OrderExecution.mk
                        (OrderExecution.orderId execution)
                        (OrderExecution.status execution)
                        (OrderExecution.attempts execution + ofZ 1)%num
                        at_
                        (OrderExecution.error execution))
               else
                 cancelOrder orderId ;; ret execution
             else ret execution
       end)
      (fun _ => ret execution).

(** The body of the loop of [monitorOrders] for the entry
    [(orderId, execution)] of [pendingOrders].  The record handed to
    [checkOrderStatus] is the entry itself, and nothing in the call puts
    another record under [orderId]: as long as the entry is in the map, the
    map shows what the call wrote to the record. *)
Definition monitorOrder (orderId : string) (execution : OrderExecution.t)
  : M unit :=
  try_catch
    (do execution <- checkOrderStatus orderId execution;
     modify (fun s =>
       if JsMap.has orderId (pendingOrders s)
       then with_pendingOrders (JsMap.set orderId execution (pendingOrders s)) s
       else s))
    (fun _ => ret tt).

(** The loops over [pendingOrders] run on a live iterator; the body
    deletes or rewrites only the entry it was handed, so iterating over
    the entries present at the start visits the same entries. *)
Definition monitorOrders : M unit :=
  do entries <- gets pendingOrders;
  forM_ entries (fun '(orderId, execution) => monitorOrder orderId execution).

(** The run-time system firing the interval [handle]. *)
Definition scheduledRun (handle : nat) : M unit :=
  do armed <- gets (fun s => bool_decide (handle ∈ timers s));
  if armed then monitorOrders else ret tt.

(** [emergencyStop]: cancel all pending orders, close all positions, stop
  execution. *)
Definition cancelAllPending : M unit :=
  do orderIds <- gets (fun s => JsMap.keys (pendingOrders s));
  forM_ orderIds (fun orderId => cancelOrder orderId ;; ret tt).

Definition emergencyStop : M unit :=
  cancelAllPending ;;
  closeAllPositions ;;
  stopOrderExecution.

End WithWorld.

End Execution.

(* ================================================================== *)
(** ** StrategyEngineService: built-in strategies and market data *)

Module MarketData.
Record t : Type := mk {
  symbol : string;
  price : num;
  bidPrice : num;
  askPrice : num;
  volume24h : num;
  priceChange24h : num;
  fundingRate : num;
  timestamp : Z;
  openInterest : option num;
  markPrice : option num
}.
End MarketData.

(** The three [TradingStrategy] classes.  [toFixed] stands for
  [Number.prototype.toFixed], which only the text of [reasoning] depends
  on; [now] is the reading of [Date.now()] made for the signal.  [analyze]
  does not read its [config]. *)
Module Strategy.

(** [marketData[i]]: [undefined] outside the array. *)
Definition at_index (marketData : list MarketData.t) (i : Z)
  : option MarketData.t :=
  if decide (i < 0)%Z then None else marketData !! Z.to_nat i.

(** Reading a field of [undefined]. *)
Definition typeError : Err :=
  OtherError "TypeError: Cannot read properties of undefined".

(** [marketData.slice(-n)] *)
Definition slice_last (n : nat) (marketData : list MarketData.t)
  : list MarketData.t :=
  drop (length marketData - n) marketData.

End Strategy.

Module MomentumStrategy.
Import Strategy.

Definition id : string := "momentum".

Definition analyze (toFixed : num -> nat -> string) (now : Z)
    (marketData : list MarketData.t) (config : StrategyConfig.t)
  : Err + list Signal.t :=
  if decide (length marketData < 20)%nat then inr []
  else
    let len := Z.of_nat (length marketData) in
    match at_index marketData (len - 1), at_index marketData (len - 10) with
    | Some latest, Some past =>
        let priceChange :=
          ((MarketData.price latest - MarketData.price past)
           / MarketData.price past * ofZ 100)%num in
        if gt priceChange (ofZ 2) then
          inr [Signal.mk (MarketData.symbol latest) Action.BUY
                 (min (ofZ 80) (ofZ 60 + abs priceChange)%num)
                 None None None
                 ("Strong upward momentum: " +:+ toFixed priceChange 2%nat
                    +:+ "% price increase")
                 id now]
        else if lt priceChange (ofZ (-2)) then
          inr [Signal.mk (MarketData.symbol latest) Action.SELL
                 (min (ofZ 80) (ofZ 60 + abs priceChange)%num)
                 None None None
                 ("Strong downward momentum: " +:+ toFixed priceChange 2%nat
                    +:+ "% price decrease")
                 id now]
        else inr []
    | _, _ => inl typeError
    end.

End MomentumStrategy.

Module MeanReversionStrategy.
Import Strategy.

Definition id : string := "mean-reversion".

Definition analyze (toFixed : num -> nat -> string) (now : Z)
    (marketData : list MarketData.t) (config : StrategyConfig.t)
  : Err + list Signal.t :=
  if decide (length marketData < 20)%nat then inr []
  else
    let len := Z.of_nat (length marketData) in
    let prices := map MarketData.price (slice_last 20 marketData) in
    let average :=
      (fold_left (fun sum price => (sum + price)%num) prices (ofZ 0)
       / ofZ (Z.of_nat (length prices)))%num in
    match at_index marketData (len - 1) with
    | Some latest =>
        let deviation :=
          ((MarketData.price latest - average) / average * ofZ 100)%num in
        if gt deviation (ofZ 3) then
          inr [Signal.mk (MarketData.symbol latest) Action.SELL
                 (min (ofZ 75) (ofZ 50 + abs deviation * ofZ 2)%num)
                 None None None
                 ("Price " +:+ toFixed deviation 2%nat
                    +:+ "% above 20-period average - reversion expected")
                 id now]
        else if lt deviation (ofZ (-3)) then
          inr [Signal.mk (MarketData.symbol latest) Action.BUY
                 (min (ofZ 75) (ofZ 50 + abs deviation * ofZ 2)%num)
                 None None None
                 ("Price " +:+ toFixed (abs deviation) 2%nat
                    +:+ "% below 20-period average - reversion expected")
                 id now]
        else inr []
    | None => inl typeError
    end.

End MeanReversionStrategy.

Module FundingArbitrageStrategy.
Import Strategy.

Definition id : string := "funding-arbitrage".

Definition analyze (toFixed : num -> nat -> string) (now : Z)
    (marketData : list MarketData.t) (config : StrategyConfig.t)
  : Err + list Signal.t :=
  if decide (length marketData < 1)%nat then inr []
  else
    let len := Z.of_nat (length marketData) in
    match at_index marketData (len - 1) with
    | Some latest =>
        let fundingRate := MarketData.fundingRate latest in
        if gt fundingRate (frac 1 100) then
          inr [Signal.mk (MarketData.symbol latest) Action.SELL (ofZ 70)
                 None None None
                 ("High positive funding rate: "
                    +:+ toFixed (fundingRate * ofZ 100)%num 3%nat
                    +:+ "% - short to collect funding")
                 id now]
        else if lt fundingRate (frac (-5) 1000) then
          inr [Signal.mk (MarketData.symbol latest) Action.BUY (ofZ 70)
                 None None None
                 ("High negative funding rate: "
                    +:+ toFixed (fundingRate * ofZ 100)%num 3%nat
                    +:+ "% - long to collect funding")
                 id now]
        else inr []
    | None => inl typeError
    end.

End FundingArbitrageStrategy.

(** The market-data cache of the strategy engine: a [Map] from the symbol
  to the array of its data points. *)
Module MarketDataCache.

Definition t : Type := JsMap.t (list MarketData.t).

(** [handleMarketDataUpdate({ symbol, data })]; the array is pushed to and
    shifted in place, which is the write of the new array under the key. *)
Definition handleMarketDataUpdate (symbol : string) (data : MarketData.t)
    (marketDataCache : t) : Err + t :=
  let marketDataCache :=
    if JsMap.has symbol marketDataCache then marketDataCache
    else JsMap.set symbol [] marketDataCache in
  match JsMap.get symbol marketDataCache with
  | Some cache =>
      let cache := cache ++ [data] in
      let cache := if decide (100 < length cache)%nat then tail cache else cache in
      inr (JsMap.set symbol cache marketDataCache)
  | None => inl Strategy.typeError
  end.

End MarketDataCache.

(* ================================================================== *)
(** ** Reasoning about the execution monad *)

Module Frame.
Import Execution.

(** The fields that steer the monitoring loop, and the mode. *)
Definition control (s : State) : ExecutionConfig.t * bool * option nat * list nat * nat :=
  (config s, isExecuting s, executionInterval s, timers s, nextTimer s).

(** A computation that writes none of them. *)
Definition keeps_control {A} (m : M A) : Prop :=
  forall s, control (snd (m s)) = control s.

(** A computation that takes no order out of a pending-orders map that
    holds some: it may add entries and rewrite them. *)
Definition keeps_tracked {A} (m : M A) : Prop :=
  forall s, pendingOrders s <> [] -> pendingOrders (snd (m s)) <> [].

(** A computation that never ends in a thrown error. *)
Definition never_throws {A} (m : M A) : Prop :=
  forall s, exists a, fst (m s) = Ok a.

End Frame.

(* ================================================================== *)
(** ** The wording of the specification

  Functions that follow the text of the specification, to be compared
  with the ones embedded from the code. *)

Module Spec.
Import RiskEngine.

(** The classification in the words of the specification, as a function of
  the daily-loss percentage, the margin usage and the daily-loss limit. *)
Definition classifyRisk (limit dailyLossPercent marginUsage : num) : RiskLevel.t :=
  if gt dailyLossPercent (frac 8 10 * limit)%num || gt marginUsage (ofZ 80)
  then RiskLevel.CRITICAL
  else if gt dailyLossPercent (frac 6 10 * limit)%num || gt marginUsage (ofZ 60)
  then RiskLevel.HIGH
  else if gt dailyLossPercent (frac 3 10 * limit)%num || gt marginUsage (ofZ 40)
  then RiskLevel.MEDIUM
  else RiskLevel.LOW.

(** The daily-loss percentage of a snapshot. *)
Definition dailyLossPercentOf (m : RiskMetrics.t) : num :=
  (abs (RiskMetrics.dailyPnL m / RiskMetrics.totalBalance m) * ofZ 100)%num.

(** The action with the highest weighted score and that score, as the
  aggregation computes them for a non-empty list of signals. *)
Definition bestAction (configs : JsMap.t StrategyConfig.t)
    (signals : list Signal.t) : Action.t :=
  StrategyEngine.bestActionOf
    (StrategyEngine.actionScores configs (StrategyEngine.groupSignals signals))
    (default Action.HOLD (Signal.action <$> head signals)).

Definition bestScore (configs : JsMap.t StrategyConfig.t)
    (signals : list Signal.t) : num :=
  StrategyEngine.scoreOf
    (StrategyEngine.actionScores configs (StrategyEngine.groupSignals signals))
    (bestAction configs signals).

(** [min(100, score(bestAction) / maxPossibleScore * 100)] *)
Definition aggregateConfidence (configs : JsMap.t StrategyConfig.t)
    (symbol : string) (signals : list Signal.t) : num :=
  min (ofZ 100)
      (bestScore configs signals / StrategyEngine.maxPossibleScore configs symbol
       * ofZ 100)%num.

(** A finite number that is not negative. *)
Definition nonneg (x : num) : Prop := exists q : Qc, x = Fin q /\ 0 <= q.

(** A finite number above zero. *)
Definition positive (x : num) : Prop := exists q : Qc, x = Fin q /\ 0 < q.


(** The inputs of the aggregation are in range: confidences in [0, 100],
  weights in [0, 1]. *)
Definition signalsInRange (signals : list Signal.t) : Prop :=
  Forall (fun s => in_range (ofZ 0) (ofZ 100) (Signal.confidence s) = true) signals.

Definition weightsInRange (configs : JsMap.t StrategyConfig.t) : Prop :=
  Forall (fun c => in_range (ofZ 0) (ofZ 1) (StrategyConfig.weight c) = true)
         (JsMap.values configs).

(** The total weight of the enabled strategy configs that list the
  instrument. *)
Definition totalWeight (configs : JsMap.t StrategyConfig.t) (symbol : string) : num :=
  fold_left (fun sum c => (sum + StrategyConfig.weight c)%num)
    (filter (fun c => Is_true (StrategyEngine.listsSymbol symbol c))
            (JsMap.values configs))
    (ofZ 0).

(** Taker fee of a simulated fill and the change of the simulated balance
  that goes with it. *)
Definition takerFee (quantity executedPrice : num) : num :=
  (frac 4 10000 * quantity * executedPrice)%num.

Definition ledgerChange (side : OrderSide.t) (quantity executedPrice : num) : num :=
  let notional := (quantity * executedPrice)%num in
  let fee := takerFee quantity executedPrice in
  match side with
  | OrderSide.BUY => neg (notional + fee)%num
  | OrderSide.SELL => (notional - fee)%num
  end.

(** Entry price of a position after a fill: the running notional-weighted
  average. *)
Definition averagedEntry (oldEntry oldSize fillPrice fillQty newSize : num) : num :=
  ((oldEntry * oldSize + fillPrice * fillQty) / newSize)%num.

(** The monitoring loop is halted: the service is marked as not
  executing, it holds no interval and no interval is armed. *)
Definition halted (s : Execution.State) : Prop :=
  Execution.isExecuting s = false
  /\ Execution.executionInterval s = None
  /\ Execution.timers s = [].

(** The states the service can be in with respect to its interval: either it
  executes and holds the one armed interval, or it does not execute and
  none is armed.  [startOrderExecution] and [stopOrderExecution], the only
  operations that touch these fields, move between the two. *)
Definition timersConsistent (s : Execution.State) : bool :=
  match Execution.isExecuting s, Execution.executionInterval s with
  | true, Some handle => bool_decide (Execution.timers s = [handle])
  | false, None => bool_decide (Execution.timers s = [])
  | _, _ => false
  end.

(** The order history once the orders [ids] found in it are marked
  CANCELED, as the simulated cancellation does. *)
Definition cancelledHistory (ids : list string) (history : JsMap.t Order.t)
  : JsMap.t Order.t :=
  fold_left
    (fun h id =>
       match JsMap.get id h with
       | Some order => JsMap.set id (Order.with_status OrderStatus.CANCELED order) h
       | None => h
       end)
    ids history.

(** Every tracked order is in the order history. *)
Definition trackedOrdersKnown (s : Execution.State) : Prop :=
  forall id, id ∈ JsMap.keys (Execution.pendingOrders s) ->
             is_Some (JsMap.get id (Execution.orderHistory s)).

(** The collaborator that carries out a cancellation accepts it: the
  database in simulation, the exchange otherwise. *)
Definition cancellationsAccepted (w : World.t) (s : Execution.State) : Prop :=
  if ExecutionConfig.simulationMode (Execution.config s)
  then forall t order, World.db_updateOrder w t order = Ok tt
  else forall t id symbol, World.binance_cancelOrder w t id symbol = Ok tt.

(** The simulated positions that close-all finds open once the tracked
  orders are cancelled. *)
Definition positionsAfterCancel (s : Execution.State) : list Position.t :=
  Execution.openPositions
    (Execution.replayOrders
       (JsMap.values
          (cancelledHistory (JsMap.keys (Execution.pendingOrders s))
                            (Execution.orderHistory s)))).

(** What the creation of a simulated order asks of the collaborators: Redis
  answers the read of the market data and takes the record of the
  execution, and the database stores the order. *)
Definition simulationAnswers (w : World.t) : Prop :=
  (forall t symbol, exists marketData,
      World.redis_getMarketData w t symbol = Ok marketData)
  /\ (forall t key, World.redis_set w t key = Ok tt)
  /\ (forall t order, World.db_storeOrder w t order = Ok tt).

(** The open positions of the simulation in a state. *)
Definition openPositionsOf (s : Execution.State) : list Position.t :=
  Execution.openPositions
    (Execution.replayOrders (JsMap.values (Execution.orderHistory s))).

(** Every entry of a map of positions sits under the symbol it carries. *)
Definition keyedBySymbol (m : JsMap.t Position.t) : Prop :=
  Forall (fun kv => Position.symbol (snd kv) = fst kv) m.

(** The suggested stop-loss of an admission check: 2% of the total balance
  is put at risk over the quantity. *)
Definition suggestedStopLoss (side : PositionSide.t)
    (price totalBalance quantity : num) : num :=
  let stopDistance := (frac 2 100 * totalBalance / quantity)%num in
  match side with
  | PositionSide.LONG => (price - stopDistance)%num
  | PositionSide.SHORT => (price + stopDistance)%num
  end.

(** What a built-in strategy keeps to on every input: [analyze] does not
  throw and emits at most one signal, only when it is given at least
  [minPoints] data points; the signal is a BUY or a SELL for the symbol of
  the latest data point, is attributed to the strategy, has a confidence
  within [lo, hi] and carries neither a target price nor a stop-loss. *)
Definition emitsOneBoundedSignal
    (analyze : list MarketData.t -> StrategyConfig.t -> Err + list Signal.t)
    (id : string) (minPoints : nat) (lo hi : num) : Prop :=
  forall marketData config, exists signals,
    analyze marketData config = inr signals
    /\ (length signals <= 1)%nat
    /\ forall s, s ∈ signals ->
         (minPoints <= length marketData)%nat
         /\ (Signal.action s = Action.BUY \/ Signal.action s = Action.SELL)
         /\ Some (Signal.symbol s) = MarketData.symbol <$> last marketData
         /\ Signal.strategy s = id
         /\ in_range lo hi (Signal.confidence s) = true
         /\ Signal.targetPrice s = None
         /\ Signal.stopLoss s = None.

(** Every cached series holds at most [n] data points. *)
Definition seriesBounded (n : nat) (cache : MarketDataCache.t) : Prop :=
  forall symbol series,
    JsMap.get symbol cache = Some series -> (length series <= n)%nat.

End Spec.

(* ================================================================== *)
(** ** Sample inputs *)

Module Sample.

Definition cfg : Config.t :=
  Config.mk (ofZ 5) (ofZ 10) (ofZ 5) (ofZ 30) true.

(** A snapshot with a balance of 10000. *)
Definition metrics (level : RiskLevel.t) (allowed : bool) : RiskMetrics.t :=
  RiskMetrics.mk (ofZ 10000) (ofZ 8000) (ofZ 0) (ofZ 0) (ofZ 0) level allowed
                 (ofZ 0) (ofZ 0).

Definition riskFresh : RiskEngine.State := RiskEngine.init cfg.

Definition riskWith (m : RiskMetrics.t) : RiskEngine.State :=
  RiskEngine.mkState (RiskEngine.riskLimits riskFresh) (Some m) JsMap.empty
    (ofZ 0) (ofZ 0) [] false None.

Definition riskOpen : RiskEngine.State := riskWith (metrics RiskLevel.LOW true).
Definition riskBlocked : RiskEngine.State :=
  riskWith (metrics RiskLevel.CRITICAL false).

(** LONG 1 unit at 50000. *)
Definition longOne (leverage : Z) : PositionData.t :=
  PositionData.mk "BTCUSDT" PositionSide.LONG (ofZ 1) (ofZ leverage) (ofZ 50000).

Definition btcPosition (marginUsed : Z) : Position.t :=
  Position.mk "BTCUSDT" PositionSide.LONG (ofZ 1) (ofZ 50000) (ofZ 50000)
              (ofZ 0) (ofZ 5) (ofZ marginUsed) None.

Definition feed : RiskFeed.t :=
  RiskFeed.mk (Some (Some (ofZ 10000), Some (ofZ 8000)))
              (Some [btcPosition 9000]) (Some (ofZ (-100))).

Definition signal (action : Action.t) (confidence : Z) (strategy : string)
  : Signal.t :=
  Signal.mk "BTCUSDT" action (ofZ confidence) None None None "" strategy 0.

(** An enabled strategy config for BTCUSDT. *)
Definition strategy (id : string) (weight : num) : string * StrategyConfig.t :=
  (id, StrategyConfig.mk id id true ["1m"] ["BTCUSDT"] [] weight).

Definition defaultConfigs : JsMap.t StrategyConfig.t :=
  [strategy "momentum" (frac 4 10);
   strategy "mean-reversion" (frac 3 10);
   strategy "funding-arbitrage" (frac 3 10)].

Definition noClock : nat -> Z := fun _ => 0%Z.

(** A logarithm of which only [log 1 = 0] is used. *)
Definition logAtOne (x : num) : num := if same x (ofZ 1) then ofZ 0 else NaN.

(** Collaborators that answer every call in the same way: the cached
  market price, whether the database and the exchange accept writes, the
  reply to a sizing request, and the positions held at the exchange. *)
Definition world (marketPrice : option num) (dbOk exchangeOk : bool)
    (sizing : result (option PositionSize.t)) (held : list Position.t) : World.t :=
  let answer {A} (ok : bool) (a : A) : result A :=
    if ok then Ok a else Throw (OtherError "unavailable") in
  World.mk logAtOne
    (fun t => Z.of_nat t)
    (fun t => "sim_" +:+ pretty t)
    (fun _ _ => Ok marketPrice)
    (fun _ _ => Ok tt)
    (fun _ _ => answer dbOk None)
    (fun _ _ => answer dbOk tt)
    (fun _ _ => answer dbOk tt)
    (fun _ _ => Throw (TradingError "Failed to create order" "ORDER_ERROR"))
    (fun _ _ _ => if exchangeOk then Ok tt
                  else Throw (TradingError "Failed to cancel order" "ORDER_CANCEL_ERROR"))
    (fun _ _ _ => None)
    (fun _ => Ok held)
    (fun _ _ => answer exchangeOk true)
    (fun _ _ _ => sizing).

Definition marketOrder (side : OrderSide.t) (quantity : Z) : OrderParams.t :=
  OrderParams.mk "BTCUSDT" side OrderType.MARKET (ofZ quantity) None None.

(** A filled order of the simulation. *)
Definition filled (id : string) (side : OrderSide.t) (quantity price : Z) : Order.t :=
  Order.mk id "BTCUSDT" side OrderType.MARKET (ofZ quantity) (Some (ofZ price))
           OrderStatus.FILLED (ofZ quantity) (Some (ofZ price)) 0 0 None.

Definition withHistory (orders : list Order.t) (s : Execution.State)
  : Execution.State :=
  Execution.with_orderHistory (map (fun o => (Order.id o, o)) orders) s.

Definition tracked (id : string) : string * OrderExecution.t :=
  (id, OrderExecution.mk id TrackStatus.PENDING (ofZ 0) 0 None).

(** An order resting at the exchange. *)
Definition resting (id : string) : Order.t :=
  Order.mk id "BTCUSDT" OrderSide.BUY OrderType.LIMIT (ofZ 1) (Some (ofZ 100))
           OrderStatus.NEW (ofZ 0) None 0 0 (Some 1%Z).

(** A running service that tracks the orders [pending]. *)
Definition running (simulation : bool) (orders pending : list Order.t)
  : Execution.State :=
  Execution.mkState
    (ExecutionConfig.mk (frac 1 10) (ofZ 3) (ofZ 30000) (frac 1 10) simulation)
    (map (fun o => tracked (Order.id o)) pending)
    (map (fun o => (Order.id o, o)) orders)
    true (Some 0%nat) (ofZ 100000) 0 [0%nat] 1 [] [].

(** The tracking entry of an order last attempted 40 seconds before time 0,
    after [attempts] attempts. *)
Definition stale (id : string) (attempts : Z) : OrderExecution.t :=
  OrderExecution.mk id TrackStatus.PENDING (ofZ attempts) (-40000) None.

Definition noReply : result (option PositionSize.t) :=
  Throw (OtherError "Request timeout").

Definition execFresh (simulation : bool) : Execution.State :=
  Execution.init (Config.mk (ofZ 5) (ofZ 10) (ofZ 5) (ofZ 30) simulation).

End Sample.

(** Equality of two canonical rationals given by computation. *)
Ltac qc_compute := apply Qc_is_canon; vm_compute; reflexivity.
Ltac num_compute :=
  vm_compute;
  repeat match goal with
         | |- Fin _ = Fin _ => f_equal; qc_compute
         | |- Some _ = Some _ => f_equal
         | |- _ /\ _ => split
         end;
  try reflexivity.


(* ================================================================== *)
(** * Properties *)

(** ** Arithmetic of [num] *)

Lemma Qccompare_opp_0 (a : Qc) : (- a ?= 0) = CompOpp (a ?= 0).
Proof.
  unfold Qccompare, Qcopp, Q2Qc; cbn [this].
  rewrite Qred_correct.
  destruct a as [[n d] Hc]; cbn [this].
  unfold Qcompare, Qopp; cbn.
  rewrite !Z.mul_1_r. destruct n; reflexivity.
Qed.

Lemma Qccompare_antisym (x y : Qc) : (y ?= x) = CompOpp (x ?= y).
Proof. unfold Qccompare. symmetry. apply Qcompare_antisym. Qed.

Lemma Qceqb_true (a b : Qc) : Qceqb a b = true <-> a = b.
Proof.
  unfold Qceqb. rewrite Qceq_alt. destruct (a ?= b); intuition congruence.
Qed.

Lemma Qceqb_false (a b : Qc) : Qceqb a b = false <-> a <> b.
Proof.
  rewrite <- Qceqb_true. destruct (Qceqb a b); intuition congruence.
Qed.

Lemma Qcopp_0 : - 0 = 0.
Proof. ring. Qed.

Lemma neg_involutive (x : num) : neg (neg x) = x.
Proof. destruct x; cbn; try reflexivity. f_equal. ring. Qed.

Lemma sign_neg (x : num) : sign (neg x) = CompOpp (sign x).
Proof. destruct x; cbn; try reflexivity. apply Qccompare_opp_0. Qed.

Lemma inf_of_sign_opp (c : comparison) : inf_of_sign (CompOpp c) = neg (inf_of_sign c).
Proof. destruct c; reflexivity. Qed.

Lemma sign_mul_opp_l (a b : comparison) :
  sign_mul (CompOpp a) b = CompOpp (sign_mul a b).
Proof. destruct a, b; reflexivity. Qed.

Lemma sign_mul_comm (a b : comparison) : sign_mul a b = sign_mul b a.
Proof. destruct a, b; reflexivity. Qed.

Lemma abs_neg (x : num) : abs (neg x) = abs x.
Proof.
  destruct x as [q| | |]; cbn; try reflexivity.
  unfold Qcltb. rewrite Qccompare_opp_0.
  destruct (q ?= 0) eqn:E; cbn; try reflexivity.
  - apply Qceq_alt in E. subst q. f_equal.
  - f_equal. ring.
Qed.

Lemma div_neg_l (x y : num) : (neg x / y)%num = neg (x / y)%num.
Proof.
  destruct x as [a| | |], y as [b| | |]; cbn; try reflexivity;
    try (f_equal; symmetry; apply Qcopp_0);
    try (destruct (Qceqb b 0); [reflexivity|]; destruct (b ?= 0); reflexivity).
  destruct (Qceqb b 0) eqn:E.
  - rewrite Qccompare_opp_0. apply inf_of_sign_opp.
  - apply Qceqb_false in E. cbn. f_equal. field. exact E.
Qed.

Lemma add_comm (x y : num) : (x + y)%num = (y + x)%num.
Proof. destruct x, y; cbn; try reflexivity. f_equal. ring. Qed.

Lemma mul_comm (x y : num) : (x * y)%num = (y * x)%num.
Proof.
  destruct x, y; cbn; try reflexivity; try (f_equal; ring);
    match goal with |- context [?a ?= ?b] => destruct (a ?= b) end; reflexivity.
Qed.

Lemma same_spec (x y : num) : same x y = true <-> x = y.
Proof.
  destruct x, y; cbn; try (split; congruence).
  rewrite Qceqb_true. split; congruence.
Qed.

Lemma same_false (x y : num) : same x y = false -> x <> y.
Proof. intros H E. apply same_spec in E. congruence. Qed.

Lemma truthy_or_else (x : num) : x <> NaN -> or_else (Some x) (ofZ 0) = x.
Proof.
  intros Hx. destruct x as [q| | |]; cbn; try reflexivity; try congruence.
  destruct (Qceqb q 0) eqn:E; cbn; try reflexivity.
  apply Qceqb_true in E. subst q. reflexivity.
Qed.

(** ** Risk level *)

Section RiskLevelFacts.
Import RiskEngine Spec.

Lemma determineRiskLevel_classify limits dailyPnL totalBalance unrealizedPnl marginUsage :
  determineRiskLevel limits dailyPnL totalBalance unrealizedPnl marginUsage
  = classifyRisk (RiskLimits.dailyLossLimit limits)
      (abs (dailyPnL / totalBalance) * ofZ 100)%num marginUsage.
Proof.
  unfold determineRiskLevel, classifyRisk.
  rewrite !(mul_comm (RiskLimits.dailyLossLimit limits)). reflexivity.
Qed.

(** C4. Every risk snapshot that is recomputed (the balance was fetched)
    carries the risk level given by the thresholds on its daily-loss
    percentage and margin usage, and its trade-allowed flag is false exactly
    when that level is CRITICAL. *)
Theorem snapshot_risk_level_follows_thresholds
    (feed : RiskFeed.t) (st : State) (total free : option num) :
  RiskFeed.balance feed = Some (total, free) ->
  exists m : RiskMetrics.t,
    currentRiskMetrics (updateRiskMetrics feed st) = Some m
    /\ RiskMetrics.riskLevel m
       = classifyRisk (RiskLimits.dailyLossLimit (riskLimits st))
           (dailyLossPercentOf m) (RiskMetrics.marginUsage m)
    /\ (RiskMetrics.isTradeAllowed m = false
        <-> RiskMetrics.riskLevel m = RiskLevel.CRITICAL).
Proof.
  intros Hb. unfold updateRiskMetrics. rewrite Hb. cbn [currentRiskMetrics].
  eexists; split; [reflexivity|].
  cbn [RiskMetrics.riskLevel RiskMetrics.isTradeAllowed RiskMetrics.marginUsage].
  split.
  - apply determineRiskLevel_classify.
  - rewrite negb_false_iff, bool_decide_eq_true. reflexivity.
Qed.

(** The snapshot of the sample feed: margin usage 90% puts it at CRITICAL. *)
Lemma snapshot_risk_level_witness :
  exists m : RiskMetrics.t,
    currentRiskMetrics (updateRiskMetrics Sample.feed Sample.riskFresh) = Some m
    /\ RiskMetrics.riskLevel m
       = classifyRisk (RiskLimits.dailyLossLimit (riskLimits Sample.riskFresh))
           (dailyLossPercentOf m) (RiskMetrics.marginUsage m)
    /\ (RiskMetrics.isTradeAllowed m = false
        <-> RiskMetrics.riskLevel m = RiskLevel.CRITICAL).
Proof.
  apply (snapshot_risk_level_follows_thresholds Sample.feed Sample.riskFresh
           (Some (ofZ 10000)) (Some (ofZ 8000))).
  reflexivity.
Defined.

(** C10. The risk level does not see the sign of the daily PnL: for every
    total balance, margin usage and value [x], [determineRiskLevel] returns
    the same level for a daily PnL of [x] and of [-x]; hence the snapshots
    computed from a gain and from a loss of the same size carry the same
    level and the same trade-allowed flag. *)
Theorem risk_level_ignores_sign_of_daily_pnl
    (limits : RiskLimits.t) (x totalBalance unrealizedPnl marginUsage : num)
    (balance : option (option num * option num))
    (exchangePositions : option (list Position.t)) (st : State) :
  determineRiskLevel limits (neg x) totalBalance unrealizedPnl marginUsage
  = determineRiskLevel limits x totalBalance unrealizedPnl marginUsage
  /\ let snapshot dailyPnL :=
       currentRiskMetrics
         (updateRiskMetrics (RiskFeed.mk balance exchangePositions (Some dailyPnL)) st)
     in
     (RiskMetrics.riskLevel <$> snapshot (neg x))
     = (RiskMetrics.riskLevel <$> snapshot x)
     /\ (RiskMetrics.isTradeAllowed <$> snapshot (neg x))
        = (RiskMetrics.isTradeAllowed <$> snapshot x).
Proof.
  assert (H : forall l tb u mu,
             determineRiskLevel l (neg x) tb u mu = determineRiskLevel l x tb u mu).
  { intros l tb u mu. unfold determineRiskLevel.
    rewrite div_neg_l, abs_neg. reflexivity. }
  split; [apply H|]. cbv zeta. unfold updateRiskMetrics.
  cbn [RiskFeed.balance RiskFeed.exchangePositions RiskFeed.dailyPnlRow
       calculateDailyPnL].
  destruct balance as [[total free]|]; [|split; reflexivity].
  cbn [currentRiskMetrics fmap option_fmap option_map
       RiskMetrics.riskLevel RiskMetrics.isTradeAllowed].
  rewrite H. split; reflexivity.
Qed.

(** A daily gain of 500 on a balance of 10000 (5% against a limit of 5%)
    puts the snapshot at CRITICAL and blocks trading, as a loss of 500 does. *)
Lemma daily_gain_blocks_trading :
  let gain := RiskFeed.mk (Some (Some (ofZ 10000), Some (ofZ 10000))) (Some [])
                          (Some (ofZ 500)) in
  let loss := RiskFeed.mk (Some (Some (ofZ 10000), Some (ofZ 10000))) (Some [])
                          (Some (ofZ (-500))) in
  (RiskMetrics.isTradeAllowed
     <$> currentRiskMetrics (updateRiskMetrics gain Sample.riskFresh)) = Some false
  /\ (RiskMetrics.riskLevel
        <$> currentRiskMetrics (updateRiskMetrics gain Sample.riskFresh))
     = Some RiskLevel.CRITICAL
  /\ (RiskMetrics.riskLevel
        <$> currentRiskMetrics (updateRiskMetrics loss Sample.riskFresh))
     = Some RiskLevel.CRITICAL.
Proof. cbv zeta. repeat split; vm_compute; reflexivity. Qed.

(** The total balance of a snapshot computed by the service is never NaN:
    it went through [balance.total || 0]. *)
Lemma snapshot_balance_is_a_number (feed : RiskFeed.t) (st : State) (m : RiskMetrics.t) :
  RiskFeed.balance feed <> None ->
  currentRiskMetrics (updateRiskMetrics feed st) = Some m ->
  RiskMetrics.totalBalance m <> NaN.
Proof.
  unfold updateRiskMetrics. destruct (RiskFeed.balance feed) as [[total free]|];
    [|congruence].
  intros _ Hm. injection Hm as <-. cbn.
  destruct total as [[q| | |]|]; cbn; try discriminate.
  destruct (Qceqb q 0); cbn; discriminate.
Qed.

End RiskLevelFacts.

(** ** Admission check *)

Section AdmissionFacts.
Import RiskEngine Spec.

(** C5, as the claim states it, fails: with trading blocked the check
    returns at once and the assessment keeps the stop-loss [0] it was
    created with, not [50000 - (0.02 * 10000) / 1 = 49800]. *)
Lemma stop_loss_missing_when_trading_blocked :
  gt (PositionData.size (Sample.longOne 5)) (ofZ 0) = true
  /\ RiskAssessment.isAllowed (validatePosition Sample.riskBlocked (Sample.longOne 5))
     = false
  /\ RiskAssessment.stopLoss (validatePosition Sample.riskBlocked (Sample.longOne 5))
     = ofZ 0
  /\ suggestedStopLoss PositionSide.LONG (ofZ 50000) (ofZ 10000) (ofZ 1) = ofZ 49800
  /\ RiskAssessment.stopLoss (validatePosition Sample.riskBlocked (Sample.longOne 5))
     <> suggestedStopLoss PositionSide.LONG (ofZ 50000) (ofZ 10000) (ofZ 1).
Proof.
  split; [reflexivity|]. split; [reflexivity|]. split; [reflexivity|].
  split; [num_compute|].
  apply same_false. vm_compute. reflexivity.
Qed.

(** C5, amended. When a snapshot exists and allows trading, the assessment
    carries the suggested stop-loss, whether or not the check rejects the
    position for its leverage or its size; when trading is not allowed (or no
    snapshot exists) the assessment is a rejection at level CRITICAL whose
    stop-loss is 0. *)
Theorem validate_position_stop_loss
    (st : State) (positionData : PositionData.t) :
  (forall m : RiskMetrics.t,
      currentRiskMetrics st = Some m ->
      RiskMetrics.isTradeAllowed m = true ->
      RiskMetrics.totalBalance m <> NaN ->
      RiskAssessment.stopLoss (validatePosition st positionData)
      = suggestedStopLoss (PositionData.side positionData)
          (PositionData.price positionData) (RiskMetrics.totalBalance m)
          (PositionData.size positionData))
  /\ ((forall m : RiskMetrics.t,
          currentRiskMetrics st = Some m -> RiskMetrics.isTradeAllowed m = false) ->
      RiskAssessment.stopLoss (validatePosition st positionData) = ofZ 0
      /\ RiskAssessment.isAllowed (validatePosition st positionData) = false
      /\ RiskAssessment.riskLevel (validatePosition st positionData)
         = RiskLevel.CRITICAL).
Proof.
  split.
  - intros m Hm Hallowed Hnan. unfold validatePosition, suggestedStopLoss.
    rewrite Hm, Hallowed. cbn [negb fmap option_fmap option_map RiskAssessment.stopLoss].
    rewrite (truthy_or_else _ Hnan), (mul_comm (frac 2 100)). reflexivity.
  - intros Hblocked. unfold validatePosition.
    destruct (currentRiskMetrics st) as [m|].
    + rewrite (Hblocked m eq_refl). cbn. auto.
    + cbn. auto.
Qed.

(** A position rejected for its leverage (15 against a maximum of 10) still
    carries the suggested stop-loss 49800. *)
Lemma validate_position_stop_loss_witness :
  RiskAssessment.isAllowed (validatePosition Sample.riskOpen (Sample.longOne 15))
  = false
  /\ RiskAssessment.stopLoss (validatePosition Sample.riskOpen (Sample.longOne 15))
     = suggestedStopLoss PositionSide.LONG (ofZ 50000) (ofZ 10000) (ofZ 1).
Proof.
  split; [reflexivity|].
  apply (proj1 (validate_position_stop_loss Sample.riskOpen (Sample.longOne 15))
           (Sample.metrics RiskLevel.LOW true));
    [reflexivity | reflexivity | discriminate].
Defined.

End AdmissionFacts.

(** ** Position sizing *)

Section SizingFacts.
Import RiskEngine.

(** C8. Sizing fails exactly when no snapshot exists, and then with the
    RiskError; with a snapshot it returns a proposal.  On the error the
    handler answers with a failure and writes nothing, and the execution
    service, which creates an order only from a proposal it received, leaves
    its order history, its tracked orders and its balance as they were when
    no proposal arrives. *)
Theorem sizing_fails_iff_no_snapshot
    (cfg : Config.t) (st : State) (signal : Signal.t) (currentPrice : num)
    (w : World.t) (s : Execution.State) :
  ((exists e, calculateOptimalPositionSize cfg st signal currentPrice = inl e)
   <-> currentRiskMetrics st = None)
  /\ (forall e, calculateOptimalPositionSize cfg st signal currentPrice = inl e ->
        e = RiskError "Risk metrics not available"
        /\ calculatePositionSizeHandler cfg st signal currentPrice
           = (st, Response.mk false None (Some "Failed to calculate position size")))
  /\ (forall m, currentRiskMetrics st = Some m ->
        exists proposal,
          calculateOptimalPositionSize cfg st signal currentPrice = inr proposal)
  /\ (Signal.action signal <> Action.CLOSE ->
      (forall t price proposal,
          World.mq_request w t signal price <> Ok (Some proposal)) ->
      let s' := snd (Execution.handleTradingSignal w signal s) in
      Execution.orderHistory s' = Execution.orderHistory s
      /\ Execution.pendingOrders s' = Execution.pendingOrders s
      /\ Execution.simulatedBalance s' = Execution.simulatedBalance s
      /\ Execution.published s' = Execution.published s).
Proof.
  unfold calculatePositionSizeHandler, calculateOptimalPositionSize.
  destruct (currentRiskMetrics st) as [m|] eqn:Hm.
  - split; [split; [intros [e He]; discriminate | discriminate]|].
    split; [intros e He; discriminate|].
    split; [intros m' _; eexists; reflexivity|].
    revert w s. clear. intros w s Hclose Hno.
    unfold Execution.handleTradingSignal.
    destruct (decide (Signal.action signal = Action.CLOSE)) as [|_]; [contradiction|].
    unfold Execution.try_catch, Execution.bind, Execution.ext, Execution.tick,
      Execution.lift, Execution.ret; cbn.
    destruct (World.redis_getMarketData w _ _) as [[price|]|e]; cbn; auto.
    destruct (World.mq_request w _ _ _) as [[proposal|]|e] eqn:Hreq; cbn; auto.
    exfalso. exact (Hno _ _ _ Hreq).
  - split; [split; [reflexivity | intros _; eexists; reflexivity]|].
    split; [intros e He; injection He as <-; split; reflexivity|].
    split; [intros m' Hm'; discriminate|].
    revert w s. clear. intros w s Hclose Hno.
    unfold Execution.handleTradingSignal.
    destruct (decide (Signal.action signal = Action.CLOSE)) as [|_]; [contradiction|].
    unfold Execution.try_catch, Execution.bind, Execution.ext, Execution.tick,
      Execution.lift, Execution.ret; cbn.
    destruct (World.redis_getMarketData w _ _) as [[price|]|e]; cbn; auto.
    destruct (World.mq_request w _ _ _) as [[proposal|]|e] eqn:Hreq; cbn; auto.
    exfalso. exact (Hno _ _ _ Hreq).
Qed.

(** Before the first snapshot the sizing of a BUY signal fails, and a
    trading signal whose sizing request gets no reply creates no order. *)
Lemma sizing_fails_iff_no_snapshot_witness :
  (exists e,
      calculateOptimalPositionSize Sample.cfg Sample.riskFresh
        (Sample.signal Action.BUY 80 "momentum") (ofZ 50000) = inl e)
  /\ Execution.orderHistory
       (snd (Execution.handleTradingSignal
               (Sample.world (Some (ofZ 50000)) true true Sample.noReply [])
               (Sample.signal Action.BUY 80 "momentum")
               (Sample.execFresh true)))
     = Execution.orderHistory (Sample.execFresh true).
Proof.
  pose proof (sizing_fails_iff_no_snapshot Sample.cfg Sample.riskFresh
                (Sample.signal Action.BUY 80 "momentum") (ofZ 50000)
                (Sample.world (Some (ofZ 50000)) true true Sample.noReply [])
                (Sample.execFresh true)) as [Hiff [_ [_ Hnone]]].
  split.
  - apply Hiff. reflexivity.
  - apply Hnone; [discriminate | intros t price proposal; discriminate].
Defined.

(** The sizing scenario of the specification: balance 10000, confidence 80,
    price 50000, default leverage 5, maximum leverage 10, no stop-loss in the
    signal. *)
Example sizing_scenario :
  exists proposal,
    calculateOptimalPositionSize Sample.cfg Sample.riskOpen
      (Sample.signal Action.BUY 80 "momentum") (ofZ 50000) = inr proposal
    /\ PositionSize.size proposal = frac 32 10000
    /\ PositionSize.leverage proposal = ofZ 7
    /\ PositionSize.stopLoss proposal = ofZ 49000
    /\ PositionSize.margin proposal = frac 160 7.
Proof.
  eexists. split; [reflexivity|]. repeat split; num_compute.
Qed.

(** The admission scenario of the specification: leverage 15 against a
    maximum of 10 is rejected and 10 is recommended. *)
Example leverage_scenario :
  RiskAssessment.isAllowed (validatePosition Sample.riskOpen (Sample.longOne 15))
  = false
  /\ RiskAssessment.recommendedLeverage
       (validatePosition Sample.riskOpen (Sample.longOne 15)) = ofZ 10.
Proof. split; [reflexivity | num_compute]. Qed.

End SizingFacts.

(** ** Signal aggregation *)

Section AggregationFacts.
Import StrategyEngine Spec.

Lemma aggregate_nonempty configs now symbol s0 rest :
  aggregateSignals configs now symbol (s0 :: rest)
  = let signals := s0 :: rest in
    let confidence := aggregateConfidence configs symbol signals in
    SignalAggregation.mk symbol signals
      (if gt confidence (ofZ 50)
          && negb (bool_decide (bestAction configs signals = Action.HOLD))
       then
         let bestSignals :=
           default [] (lookup_action (bestAction configs signals)
                                     (groupSignals signals)) in
         Some (Signal.mk symbol (bestAction configs signals) confidence
                 (averageOf Signal.targetPrice bestSignals)
                 (averageOf Signal.stopLoss bestSignals)
                 None (reasoningOf bestSignals) "aggregated" (now 0%nat))
       else None)
      confidence
      (now (if gt confidence (ofZ 50)
               && negb (bool_decide (bestAction configs signals = Action.HOLD))
            then 1 else 0)%nat).
Proof.
  cbv zeta. unfold aggregateSignals. fold (groupSignals (s0 :: rest)).
  unfold aggregateConfidence, bestScore, bestAction, computeConfidence.
  cbn [head fmap option_fmap option_map default from_option id].
  destruct (gt _ _ && _); reflexivity.
Qed.

(** C7. A resolved signal has a confidence above 50 and an action other
    than HOLD, and carries the confidence of the decision; the decision
    always carries the computed confidence, and without a resolved signal
    either there were no signals, or the confidence is not above 50, or the
    best action is HOLD. *)
Theorem resolved_signal_above_50_and_not_hold
    (configs : JsMap.t StrategyConfig.t) (now : nat -> Z) (symbol : string)
    (signals : list Signal.t) :
  let decision := aggregateSignals configs now symbol signals in
  (forall s, SignalAggregation.aggregatedSignal decision = Some s ->
     gt (Signal.confidence s) (ofZ 50) = true
     /\ Signal.action s <> Action.HOLD
     /\ Signal.confidence s = SignalAggregation.confidence decision)
  /\ SignalAggregation.confidence decision
     = (if decide (signals = []) then ofZ 0
        else aggregateConfidence configs symbol signals)
  /\ (SignalAggregation.aggregatedSignal decision = None ->
      signals = []
      \/ gt (SignalAggregation.confidence decision) (ofZ 50) = false
      \/ bestAction configs signals = Action.HOLD).
Proof.
  destruct signals as [|s0 rest].
  - cbn. split; [intros s Hs; discriminate|]. split; [reflexivity | auto].
  - rewrite aggregate_nonempty. cbv zeta.
    cbn [SignalAggregation.aggregatedSignal SignalAggregation.confidence].
    destruct (gt (aggregateConfidence configs symbol (s0 :: rest)) (ofZ 50)) eqn:Hgt;
      cbn [andb].
    + destruct (bool_decide (bestAction configs (s0 :: rest) = Action.HOLD)) eqn:Hhold;
        cbn [negb].
      * split; [intros s Hs; discriminate|]. split; [reflexivity|].
        intros _. right. right. apply bool_decide_eq_true in Hhold. exact Hhold.
      * split.
        { intros s Hs. injection Hs as <-. cbn.
          apply bool_decide_eq_false in Hhold. auto. }
        split; [reflexivity | intros Hs; discriminate].
    + split; [intros s Hs; discriminate|]. split; [reflexivity | auto].
Qed.

Lemma mul_100_add (a b : num) :
  ((a + b) * ofZ 100)%num = (a * ofZ 100 + b * ofZ 100)%num.
Proof.
  destruct a, b; try reflexivity. cbn. f_equal. ring.
Qed.

Lemma maxPossibleScore_totalWeight configs symbol :
  maxPossibleScore configs symbol = (totalWeight configs symbol * ofZ 100)%num.
Proof.
  unfold maxPossibleScore, totalWeight.
  generalize (filter (fun c => Is_true (listsSymbol symbol c)) (JsMap.values configs)).
  intros l.
  assert (H : forall acc,
             fold_left (fun sum c => (sum + StrategyConfig.weight c * ofZ 100)%num)
                       l (acc * ofZ 100)%num
             = (fold_left (fun sum c => (sum + StrategyConfig.weight c)%num) l acc
                * ofZ 100)%num).
  { induction l as [|c l IH]; intros acc; cbn [fold_left]; [reflexivity|].
    rewrite <- mul_100_add. apply IH. }
  rewrite <- H. f_equal.
Qed.

Lemma gt_zero_inv (x : num) :
  gt x (ofZ 0) = true -> x = PInf \/ exists q, x = Fin q /\ (q ?= 0) = Gt.
Proof.
  destruct x as [q| | |]; cbn; try discriminate; auto.
  intros H. right. exists q. split; [reflexivity|].
  change (Q2Qc (inject_Z 0)) with 0 in H. destruct (q ?= 0); congruence.
Qed.

Lemma confidence_over_zero (score : num) :
  gt score (ofZ 0) = true -> computeConfidence score (ofZ 0 * ofZ 100)%num = ofZ 100.
Proof.
  intros H. destruct (gt_zero_inv _ H) as [->|[q [-> Hq]]].
  - reflexivity.
  - unfold computeConfidence.
    replace (Fin q / (ofZ 0 * ofZ 100))%num with PInf; [reflexivity|].
    cbn. replace (Qceqb _ 0) with true.
    + rewrite Hq. reflexivity.
    + symmetry. apply Qceqb_true. apply Qc_is_canon. reflexivity.
Qed.

(** C9. When the enabled strategy configs listing the instrument have
    total weight 0 and the best action has a positive score, the returned
    confidence is exactly 100, and a resolved signal with that action is
    emitted unless the action is HOLD. *)
Theorem zero_total_weight_gives_confidence_100
    (configs : JsMap.t StrategyConfig.t) (now : nat -> Z) (symbol : string)
    (signals : list Signal.t) :
  signals <> [] ->
  totalWeight configs symbol = ofZ 0 ->
  gt (bestScore configs signals) (ofZ 0) = true ->
  let decision := aggregateSignals configs now symbol signals in
  SignalAggregation.confidence decision = ofZ 100
  /\ (bestAction configs signals <> Action.HOLD ->
      exists s, SignalAggregation.aggregatedSignal decision = Some s
                /\ Signal.action s = bestAction configs signals
                /\ Signal.confidence s = ofZ 100).
Proof.
  intros Hne Hw Hpos. destruct signals as [|s0 rest]; [congruence|].
  cbv zeta. rewrite aggregate_nonempty. cbv zeta.
  assert (Hc : aggregateConfidence configs symbol (s0 :: rest) = ofZ 100).
  { unfold aggregateConfidence. rewrite maxPossibleScore_totalWeight, Hw.
    apply (confidence_over_zero _ Hpos). }
  rewrite Hc. cbn [SignalAggregation.aggregatedSignal SignalAggregation.confidence].
  split; [reflexivity|]. intros Hhold.
  replace (gt (ofZ 100) (ofZ 50)) with true by reflexivity.
  rewrite (bool_decide_eq_false_2 _ Hhold). cbn [andb negb].
  eexists. split; [reflexivity|]. split; reflexivity.
Qed.

(** With no strategy config at all a single BUY signal of confidence 70
    scores 70 * 0.33 against a maximum of 0. *)
Lemma zero_total_weight_witness :
  SignalAggregation.confidence
    (aggregateSignals [] Sample.noClock "BTCUSDT"
       [Sample.signal Action.BUY 70 "momentum"]) = ofZ 100
  /\ exists s,
      SignalAggregation.aggregatedSignal
        (aggregateSignals [] Sample.noClock "BTCUSDT"
           [Sample.signal Action.BUY 70 "momentum"]) = Some s
      /\ Signal.action s = Action.BUY
      /\ Signal.confidence s = ofZ 100.
Proof.
  pose proof (zero_total_weight_gives_confidence_100 [] Sample.noClock "BTCUSDT"
                [Sample.signal Action.BUY 70 "momentum"]) as H.
  cbv zeta in H.
  destruct H as [Hc Hs]; [discriminate | reflexivity | reflexivity |].
  split; [exact Hc|]. apply Hs. discriminate.
Defined.


(** *** The range of the confidence *)

Lemma in_range_nonneg (hi : Qc) (x : num) :
  in_range (ofZ 0) (Fin hi) x = true -> nonneg x.
Proof.
  unfold in_range, le. intros H. apply andb_true_iff in H as [H H'].
  destruct x as [q| | |]; cbn in H, H'; try discriminate.
  exists q. split; [reflexivity|].
  apply Qcle_alt. change (Q2Qc (inject_Z 0)) with 0 in H.
  destruct (0 ?= q); congruence.
Qed.

Lemma nonneg_frac_33_100 : nonneg (frac 33 100).
Proof. eexists. split; [reflexivity|]. apply Qcle_alt. vm_compute. discriminate. Qed.

Lemma nonneg_zero : nonneg (ofZ 0).
Proof. exists 0. split; [reflexivity | apply Qcle_refl]. Qed.

Lemma nonneg_add (x y : num) : nonneg x -> nonneg y -> nonneg (x + y)%num.
Proof.
  intros (a & -> & Ha) (b & -> & Hb). exists (a + b). split; [reflexivity|].
  apply Qcplus_nonneg_nonneg; assumption.
Qed.

Lemma nonneg_mul (x y : num) : nonneg x -> nonneg y -> nonneg (x * y)%num.
Proof.
  intros (a & -> & Ha) (b & -> & Hb). exists (a * b). split; [reflexivity|].
  apply Qcmult_nonneg_nonneg; assumption.
Qed.

Lemma get_in_values {V} (k : string) (v : V) (m : JsMap.t V) :
  JsMap.get k m = Some v -> v ∈ JsMap.values m.
Proof.
  induction m as [|[k' x] m IH]; cbn; [discriminate|].
  destruct (decide (k = k')); intros H.
  - injection H as ->. left.
  - right. exact (IH H).
Qed.

Lemma signalWeight_nonneg configs s :
  weightsInRange configs -> nonneg (signalWeight configs s).
Proof.
  intros Hw. unfold signalWeight.
  destruct (JsMap.get (Signal.strategy s) configs) as [c|] eqn:Hget; cbn.
  - destruct (truthy (StrategyConfig.weight c)); [|apply nonneg_frac_33_100].
    unfold weightsInRange in Hw. rewrite Forall_forall in Hw.
    eapply in_range_nonneg, Hw, get_in_values, Hget.
  - apply nonneg_frac_33_100.
Qed.

Lemma actionScore_nonneg configs ss :
  weightsInRange configs -> signalsInRange ss -> nonneg (actionScore configs ss).
Proof.
  intros Hw Hs. unfold actionScore.
  assert (H : forall acc, nonneg acc ->
            nonneg (fold_left
                      (fun score s =>
                         (score + Signal.confidence s * signalWeight configs s)%num)
                      ss acc)).
  { induction Hs as [|s ss Hs _ IH]; intros acc Hacc; cbn [fold_left]; [exact Hacc|].
    apply IH. apply nonneg_add; [exact Hacc|].
    apply nonneg_mul; [eapply in_range_nonneg, Hs | apply signalWeight_nonneg, Hw]. }
  apply H, nonneg_zero.
Qed.

Lemma group_push_in_range a s groups :
  signalsInRange [s] ->
  Forall (fun g => signalsInRange (snd g)) groups ->
  Forall (fun g => signalsInRange (snd g)) (group_push a s groups).
Proof.
  intros Hs Hg. induction Hg as [|[a' ss] groups Hss Hg IH]; cbn.
  - constructor; [exact Hs | constructor].
  - destruct (decide (a = a')).
    + constructor; [|exact Hg]. cbn in *. apply Forall_app. split; assumption.
    + constructor; assumption.
Qed.

Lemma groupSignals_in_range signals :
  signalsInRange signals ->
  Forall (fun g => signalsInRange (snd g)) (groupSignals signals).
Proof.
  unfold groupSignals. intros Hs.
  assert (H : forall groups,
            Forall (fun g => signalsInRange (snd g)) groups ->
            Forall (fun g => signalsInRange (snd g))
                   (fold_left (fun groups s => group_push (Signal.action s) s groups)
                              signals groups)).
  { induction Hs as [|s signals Hs _ IH]; intros groups Hg; cbn [fold_left];
      [exact Hg|].
    apply IH. apply group_push_in_range; [|exact Hg].
    constructor; [exact Hs | constructor]. }
  apply H. constructor.
Qed.

Lemma scoreOf_nonneg (scores : list (Action.t * num)) (a : Action.t) :
  Forall (fun p => nonneg (snd p)) scores ->
  a ∈ map fst scores -> nonneg (scoreOf scores a).
Proof.
  unfold scoreOf. intros Hs. induction Hs as [|[a' v] scores Hv Hs IH]; cbn.
  - intros H. apply elem_of_nil in H. contradiction.
  - intros H. destruct (decide (a = a')); [exact Hv|].
    apply elem_of_cons in H as [->|H]; [congruence | exact (IH H)].
Qed.

Lemma bestActionOf_in scores first :
  scores <> [] -> bestActionOf scores first ∈ map fst scores.
Proof.
  unfold bestActionOf. destruct scores as [|[a0 v0] scores]; [congruence|].
  intros _. cbn [map fst hd tail].
  assert (H : forall l acc,
            acc ∈ a0 :: map fst scores -> l ⊆ a0 :: map fst scores ->
            fold_left
              (fun a b =>
                 if gt (scoreOf ((a0, v0) :: scores) a) (scoreOf ((a0, v0) :: scores) b)
                 then a else b) l acc
            ∈ a0 :: map fst scores).
  { induction l as [|b l IH]; intros acc Hacc Hl; cbn [fold_left]; [exact Hacc|].
    apply IH.
    - destruct (gt _ _); [exact Hacc | apply Hl; left].
    - intros y Hy. apply Hl. right. exact Hy. }
  apply H; [left | intros y Hy; right; exact Hy].
Qed.

Lemma group_push_nonempty a s groups : group_push a s groups <> [].
Proof.
  destruct groups as [|[a' ss] groups]; cbn; [discriminate|].
  destruct (decide (a = a')); discriminate.
Qed.

Lemma groupSignals_nonempty s0 rest : groupSignals (s0 :: rest) <> [].
Proof.
  unfold groupSignals. cbn [fold_left].
  generalize (group_push_nonempty (Signal.action s0) s0 []).
  generalize (group_push (Signal.action s0) s0 []).
  induction rest as [|s rest IH]; intros groups Hg; cbn [fold_left]; [exact Hg|].
  apply IH. apply group_push_nonempty.
Qed.





(** The two aggregation scenarios of the specification: weights
    0.4/0.3/0.3; BUY@70, BUY@65, SELL@70 give confidence 47.5 and no resolved
    signal; BUY@90, BUY@85, BUY@10 give 64.5 and a resolved BUY. *)
Example aggregation_scenario_split :
  let decision :=
    aggregateSignals Sample.defaultConfigs Sample.noClock "BTCUSDT"
      [Sample.signal Action.BUY 70 "momentum";
       Sample.signal Action.BUY 65 "mean-reversion";
       Sample.signal Action.SELL 70 "funding-arbitrage"] in
  SignalAggregation.confidence decision = frac 475 10
  /\ SignalAggregation.aggregatedSignal decision = None.
Proof. cbv zeta. split; [num_compute | vm_compute; reflexivity]. Qed.

Example aggregation_scenario_agree :
  let decision :=
    aggregateSignals Sample.defaultConfigs Sample.noClock "BTCUSDT"
      [Sample.signal Action.BUY 90 "momentum";
       Sample.signal Action.BUY 85 "mean-reversion";
       Sample.signal Action.BUY 10 "funding-arbitrage"] in
  SignalAggregation.confidence decision = frac 645 10
  /\ (Signal.action <$> SignalAggregation.aggregatedSignal decision)
     = Some Action.BUY.
Proof. cbv zeta. split; [num_compute | vm_compute; reflexivity]. Qed.

End AggregationFacts.

(** ** Simulated execution *)

Section SimulationFacts.
Import Execution Spec.

Lemma add_sub_cancel (q f : Qc) : (Fin q + Fin f - Fin f)%num = Fin q.
Proof. cbn. f_equal. ring. Qed.

(** What a simulated execution does to the ledger when Redis answers: the
    fee recorded is [quantity * executedPrice * 0.0004]; a BUY is debited
    [notional + fee]; a SELL is credited [cost - fee] where the cost already
    includes the fee. *)
Lemma simulate_ledger (w : World.t) (orderParams : OrderParams.t) (s : State)
    (marketData : option num) :
  World.redis_getMarketData w (clock s) (OrderParams.symbol orderParams)
  = Ok marketData ->
  (forall t key, World.redis_set w t key = Ok tt) ->
  exists order execution s',
    simulateOrderExecution w orderParams s = (Ok order, s')
    /\ Order.status order = OrderStatus.FILLED
    /\ Order.executedQty order = OrderParams.quantity orderParams
    /\ Order.averagePrice order = Order.price order
    /\ simExecutions s' = simExecutions s ++ [execution]
    /\ SimulatedExecution.executedPrice execution = Order.price order
    /\ let quantity := OrderParams.quantity orderParams in
       let executedPrice := to_num (Order.price order) in
       let fee := SimulatedExecution.fee execution in
       fee = (quantity * executedPrice * frac 4 10000)%num
       /\ simulatedBalance s'
          = match OrderParams.side orderParams with
            | OrderSide.BUY =>
                (simulatedBalance s - (quantity * executedPrice + fee))%num
            | OrderSide.SELL =>
                (simulatedBalance s + (quantity * executedPrice + fee - fee))%num
            end.
Proof.
  intros Hget Hset.
  unfold simulateOrderExecution, bind, ext, ext_total, tick, lift, modify, ret.
  cbn. rewrite Hget. cbn. rewrite Hset. cbn.
  destruct (OrderParams.side orderParams);
    (do 3 eexists; split; [reflexivity|]; cbn; repeat split).
Qed.

(** C1, at the failing input: a simulated market SELL of 100 units at a
    reference price of 100 (order value 10000, so the volume impact is
    [log 1 = 0] and the slippage is the base 0.05%) executes at 99.95 with a
    fee of 3.998; the balance goes from 100000 to 109995, that is up by the
    whole notional 9995, and not by [9995 - 3.998]. *)
Theorem simulated_sell_credits_notional_without_fee :
  let w := Sample.world (Some (ofZ 100)) true true Sample.noReply [] in
  let s := Sample.execFresh true in
  exists order execution s',
    simulateOrderExecution w (Sample.marketOrder OrderSide.SELL 100) s
    = (Ok order, s')
    /\ Order.price order = Some (frac 9995 100)
    /\ simExecutions s' = [execution]
    /\ SimulatedExecution.fee execution = takerFee (ofZ 100) (frac 9995 100)
    /\ SimulatedExecution.fee execution = frac 3998 1000
    /\ simulatedBalance s = ofZ 100000
    /\ simulatedBalance s' = ofZ 109995
    /\ (simulatedBalance s + ledgerChange OrderSide.SELL (ofZ 100) (frac 9995 100))%num
       = frac 109991002 1000
    /\ simulatedBalance s'
       <> (simulatedBalance s + ledgerChange OrderSide.SELL (ofZ 100) (frac 9995 100))%num.
Proof.
  cbv zeta. do 3 eexists.
  split; [vm_compute; reflexivity|].
  split; [num_compute|].
  split; [reflexivity|].
  split; [num_compute|].
  split; [num_compute|].
  split; [reflexivity|].
  split; [num_compute|].
  split; [num_compute|].
  apply same_false. vm_compute. reflexivity.
Qed.

(** The BUY side of the ledger is as specified. *)
Lemma simulated_buy_debits_notional_and_fee :
  let w := Sample.world (Some (ofZ 100)) true true Sample.noReply [] in
  let s := Sample.execFresh true in
  exists order execution s',
    simulateOrderExecution w (Sample.marketOrder OrderSide.BUY 100) s
    = (Ok order, s')
    /\ Order.price order = Some (frac 10005 100)
    /\ simExecutions s' = [execution]
    /\ SimulatedExecution.fee execution = takerFee (ofZ 100) (frac 10005 100)
    /\ simulatedBalance s'
       = (simulatedBalance s + ledgerChange OrderSide.BUY (ofZ 100) (frac 10005 100))%num.
Proof.
  cbv zeta. do 3 eexists.
  split; [vm_compute; reflexivity|].
  split; [num_compute|].
  split; [reflexivity|].
  split; num_compute.
Qed.

End SimulationFacts.

(** ** Position reconciliation *)

Section ReconciliationFacts.
Import Execution Spec.

(** A filled BUY on an existing position: the size grows by the fill and,
    while it is positive, the entry price is the notional-weighted average. *)
Lemma buy_fill_averages_entry_price
    (positions : JsMap.t Position.t) (order : Order.t) (existing : Position.t)
    (oldSize fillQty : Qc) :
  Order.status order = OrderStatus.FILLED ->
  Order.side order = OrderSide.BUY ->
  JsMap.get (Order.symbol order) positions = Some existing ->
  Position.size existing = Fin oldSize ->
  Order.executedQty order = Fin fillQty ->
  gt (Fin (oldSize + fillQty)) (ofZ 0) = true ->
  exists updated,
    JsMap.get (Order.symbol order) (applyOrder positions order) = Some updated
    /\ Position.size updated = Fin (oldSize + fillQty)
    /\ Position.entryPrice updated
       = averagedEntry (Position.entryPrice existing) (Fin oldSize)
           (to_num (Order.averagePrice order)) (Fin fillQty)
           (Fin (oldSize + fillQty)).
Proof.
  intros Hst Hside Hget Hsize Hqty Hpos. unfold applyOrder.
  rewrite Hst, Hget, Hside, Hsize, Hqty.
  destruct (decide (OrderStatus.FILLED = OrderStatus.FILLED)) as [_|]; [|congruence].
  change (Fin oldSize + Fin fillQty)%num with (Fin (oldSize + fillQty)).
  rewrite Hpos.
  assert (Hset : forall (V : Type) k (v v' : V) m,
             JsMap.get k m = Some v' -> JsMap.get k (JsMap.set k v m) = Some v).
  { intros V k v v' m. induction m as [|[k' x] m IH]; cbn; [discriminate|].
    destruct (decide (k = k')) as [->|Hne]; cbn.
    - destruct (decide (k' = k')); [reflexivity | congruence].
    - destruct (decide (k = k')); [congruence | exact IH]. }
  eexists. split; [eapply Hset; exact Hget|]. cbn.
  split; [reflexivity|]. unfold averagedEntry.
  replace (oldSize + fillQty + - fillQty) with oldSize by ring.
  reflexivity.
Qed.

(** A position whose size is not above zero is not in the open-position
    view. *)
Lemma closed_positions_are_dropped (positions : JsMap.t Position.t) (pos : Position.t) :
  pos ∈ openPositions positions -> gt (Position.size pos) (ofZ 0) = true.
Proof.
  unfold openPositions. rewrite list_elem_of_filter. intros [H _].
  apply Is_true_eq_true. exact H.
Qed.

(** C6, at the failing input: a BUY of 2 at 100 followed by a SELL of 1 at
    110 on the same instrument.  The size goes from 2 to 1 and stays
    positive; the program weighs the old entry price by [newSize - fillQty =
    0] instead of the old size 2 and reports the entry price
    [(100 * 0 + 110 * 1) / 1 = 110], where the running average of the claim
    is [(100 * 2 + 110 * 1) / 1 = 310]. *)
Theorem sell_fill_entry_price_uses_wrong_old_size :
  let s := Sample.withHistory
             [Sample.filled "o1" OrderSide.BUY 2 100;
              Sample.filled "o2" OrderSide.SELL 1 110]
             (Sample.execFresh true) in
  exists pos,
    fst (getSimulatedPositions s) = Ok [pos]
    /\ Position.size pos = ofZ 1
    /\ Position.entryPrice pos = ofZ 110
    /\ averagedEntry (ofZ 100) (ofZ 2) (ofZ 110) (ofZ 1) (ofZ 1) = ofZ 310
    /\ Position.entryPrice pos
       <> averagedEntry (ofZ 100) (ofZ 2) (ofZ 110) (ofZ 1) (ofZ 1).
Proof.
  cbv zeta. eexists.
  split; [vm_compute; reflexivity|].
  split; [num_compute|].
  split; [num_compute|].
  split; [num_compute|].
  apply same_false. vm_compute. reflexivity.
Qed.

(** Two BUY fills, 2 at 100 and then 2 at 110, average to 105. *)
Lemma buy_fills_average_example :
  let s := Sample.withHistory
             [Sample.filled "o1" OrderSide.BUY 2 100;
              Sample.filled "o2" OrderSide.BUY 2 110]
             (Sample.execFresh true) in
  exists pos,
    fst (getSimulatedPositions s) = Ok [pos]
    /\ Position.size pos = ofZ 4
    /\ Position.entryPrice pos = ofZ 105.
Proof.
  cbv zeta. eexists.
  split; [vm_compute; reflexivity|]. split; num_compute.
Qed.

(** A position sold down to zero is absent from the view. *)
Lemma sold_out_position_is_absent :
  let s := Sample.withHistory
             [Sample.filled "o1" OrderSide.BUY 2 100;
              Sample.filled "o2" OrderSide.SELL 2 110]
             (Sample.execFresh true) in
  fst (getSimulatedPositions s) = Ok [].
Proof. vm_compute. reflexivity. Qed.

End ReconciliationFacts.

(** ** The execution monad: what a computation leaves alone *)

Section FrameFacts.
Import Execution Frame.
Context (w : World.t).

Lemma keeps_ret {A} (a : A) : keeps_control (ret a).
Proof. intros s. reflexivity. Qed.

Lemma keeps_throw {A} (e : Err) : keeps_control (@throw A e).
Proof. intros s. reflexivity. Qed.

Lemma keeps_gets {A} (f : State -> A) : keeps_control (gets f).
Proof. intros s. reflexivity. Qed.

Lemma keeps_lift {A} (r : result A) : keeps_control (lift r).
Proof. intros s. reflexivity. Qed.

Lemma keeps_tick : keeps_control tick.
Proof. intros s. reflexivity. Qed.

Lemma keeps_modify (f : State -> State) :
  (forall s, control (f s) = control s) -> keeps_control (modify f).
Proof. intros H s. apply H. Qed.

Lemma keeps_bind {A B} (m : M A) (k : A -> M B) :
  keeps_control m -> (forall a, keeps_control (k a)) -> keeps_control (bind m k).
Proof.
  intros Hm Hk s. unfold bind. specialize (Hm s).
  destruct (m s) as [[a|e] s1]; cbn in *.
  - rewrite <- Hm. apply Hk.
  - exact Hm.
Qed.

Lemma keeps_try_catch {A} (m : M A) (h : Err -> M A) :
  keeps_control m -> (forall e, keeps_control (h e)) -> keeps_control (try_catch m h).
Proof.
  intros Hm Hh s. unfold try_catch. specialize (Hm s).
  destruct (m s) as [[a|e] s1]; cbn in *.
  - exact Hm.
  - rewrite <- Hm. apply Hh.
Qed.

Lemma keeps_ext {A} (f : nat -> result A) : keeps_control (ext f).
Proof.
  apply keeps_bind; [apply keeps_tick | intros t; apply keeps_lift].
Qed.

Lemma keeps_ext_total {A} (f : nat -> A) : keeps_control (ext_total f).
Proof.
  apply keeps_bind; [apply keeps_tick | intros t; apply keeps_ret].
Qed.

Lemma keeps_forM {A B} (l : list A) (f : A -> M B) :
  (forall a, keeps_control (f a)) -> keeps_control (forM l f).
Proof.
  intros Hf. induction l as [|a l IH]; cbn [forM].
  - apply keeps_ret.
  - apply keeps_bind; [apply Hf | intros b].
    apply keeps_bind; [exact IH | intros bs; apply keeps_ret].
Qed.

Lemma keeps_forM_ {A} (l : list A) (f : A -> M unit) :
  (forall a, keeps_control (f a)) -> keeps_control (forM_ l f).
Proof.
  intros Hf. induction l as [|a l IH]; cbn [forM_].
  - apply keeps_ret.
  - apply keeps_bind; [apply Hf | intros _; exact IH].
Qed.

Create HintDb keeps.

Ltac keeps_step :=
  first
    [ apply keeps_ret | apply keeps_throw | apply keeps_gets | apply keeps_lift
    | apply keeps_tick | apply keeps_ext | apply keeps_ext_total
    | solve [auto with keeps]
    | apply keeps_bind; [|intros ?]
    | apply keeps_try_catch; [|intros ?]
    | apply keeps_forM; intros ?
    | apply keeps_forM_; intros ?
    | apply keeps_modify; intros ?; match goal with
        | |- context [match ?x with _ => _ end] => destruct x; reflexivity
        | |- _ => reflexivity
        end
    | match goal with
      | |- keeps_control (if ?b then _ else _) => destruct b
      | |- keeps_control (match ?x with _ => _ end) => destruct x
      end ].
Ltac keeps := repeat keeps_step.

Lemma keeps_publishOrderUpdate order : keeps_control (publishOrderUpdate order).
Proof. unfold publishOrderUpdate. keeps. Qed.
Hint Resolve keeps_publishOrderUpdate : keeps.

Lemma keeps_simulateOrderExecution p : keeps_control (simulateOrderExecution w p).
Proof. unfold simulateOrderExecution. keeps. Qed.
Hint Resolve keeps_simulateOrderExecution : keeps.

Lemma keeps_createOrder p : keeps_control (createOrder w p).
Proof. unfold createOrder. keeps. Qed.
Hint Resolve keeps_createOrder : keeps.

Lemma keeps_getOrder id : keeps_control (getOrder w id).
Proof. unfold getOrder. keeps. Qed.
Hint Resolve keeps_getOrder : keeps.

Lemma keeps_cancelOrder id : keeps_control (cancelOrder w id).
Proof. unfold cancelOrder. keeps. Qed.
Hint Resolve keeps_cancelOrder : keeps.

Lemma keeps_getSimulatedPositions : keeps_control getSimulatedPositions.
Proof. unfold getSimulatedPositions. keeps. Qed.
Hint Resolve keeps_getSimulatedPositions : keeps.

Lemma keeps_closePosition symbol : keeps_control (closePosition w symbol).
Proof. unfold closePosition, closeSimulatedPosition. keeps. Qed.
Hint Resolve keeps_closePosition : keeps.

Lemma keeps_closeAllPositions : keeps_control (closeAllPositions w).
Proof. unfold closeAllPositions, getPositions. keeps. Qed.

Lemma keeps_cancelAllPending : keeps_control (cancelAllPending w).
Proof. unfold cancelAllPending. keeps. Qed.

Lemma seq_ok {A B} (m : M A) (k : M B) (s : State) (a : A) :
  fst (m s) = Ok a -> (m ;; k) s = k (snd (m s)).
Proof. unfold bind. destruct (m s) as [[a'|e] s1]; cbn; congruence. Qed.

Lemma try_catch_never_throws {A} (m : M A) (h : Err -> M A) :
  (forall e, never_throws (h e)) -> never_throws (try_catch m h).
Proof.
  intros Hh s. unfold try_catch. destruct (m s) as [[a|e] s1]; cbn.
  - eauto.
  - apply Hh.
Qed.

Lemma ret_never_throws {A} (a : A) : never_throws (ret a).
Proof. intros s. cbn. eauto. Qed.

Lemma bind_never_throws {A B} (m : M A) (k : A -> M B) :
  never_throws m -> (forall a, never_throws (k a)) -> never_throws (bind m k).
Proof.
  intros Hm Hk s. unfold bind. destruct (Hm s) as [a Ha].
  destruct (m s) as [[a'|e] s1]; cbn in *; [apply Hk | discriminate].
Qed.

Lemma forM__never_throws {A} (l : list A) (f : A -> M unit) :
  (forall a, never_throws (f a)) -> never_throws (forM_ l f).
Proof.
  intros Hf. induction l as [|a l IH]; cbn [forM_].
  - apply ret_never_throws.
  - apply bind_never_throws; [apply Hf | intros _; exact IH].
Qed.

Lemma cancelOrder_never_throws id : never_throws (cancelOrder w id).
Proof.
  apply try_catch_never_throws. intros e. apply ret_never_throws.
Qed.

Lemma cancelAllPending_never_throws : never_throws (cancelAllPending w).
Proof.
  apply bind_never_throws; [intros s; cbn; eauto|]. intros ids.
  apply forM__never_throws. intros id.
  apply bind_never_throws; [apply cancelOrder_never_throws|].
  intros _. apply ret_never_throws.
Qed.

Lemma closeAllPositions_never_throws : never_throws (closeAllPositions w).
Proof.
  apply try_catch_never_throws. intros e. apply ret_never_throws.
Qed.

End FrameFacts.

(** ** Emergency stop *)

Section EmergencyStopFacts.
Import Execution Spec.

(** C2, as the claim states it, fails in two ways.  In live mode an order
    whose cancellation the exchange refuses stays in the pending-orders map.
    In simulation, with nothing tracked and one open position (100 units
    bought at 100), every step succeeds and close-all creates the closing
    order, which is tracked like every created order; the loop that would
    drop it is halted. *)
Lemma emergency_stop_may_leave_orders_tracked :
  (let w := Sample.world (Some (ofZ 100)) true false Sample.noReply [] in
   let s := Sample.running false [Sample.resting "o1"] [Sample.resting "o1"] in
   fst (emergencyStop w s) = Ok tt
   /\ JsMap.keys (pendingOrders (snd (emergencyStop w s))) = ["o1"])
  /\ (let w := Sample.world (Some (ofZ 100)) true true Sample.noReply [] in
      let s := Sample.running true [Sample.filled "o1" OrderSide.BUY 100 100] [] in
      pendingOrders s = []
      /\ fst (emergencyStop w s) = Ok tt
      /\ JsMap.keys (pendingOrders (snd (emergencyStop w s))) = ["sim_1"]).
Proof. cbv zeta. repeat split; vm_compute; reflexivity. Qed.

(** *** Maps *)

Lemma get_set_is_Some {V} (id k : string) (v : V) (m : JsMap.t V) :
  is_Some (JsMap.get id m) -> is_Some (JsMap.get id (JsMap.set k v m)).
Proof.
  induction m as [|[k' x] m IH]; cbn.
  - intros [y Hy]. discriminate.
  - destruct (decide (id = k')) as [->|Hne].
    + intros _. destruct (decide (k = k')) as [->|Hk]; cbn.
      * destruct (decide (k' = k')); [eauto | congruence].
      * destruct (decide (k' = k')); [eauto | congruence].
    + intros H. destruct (decide (k = k')) as [->|Hk]; cbn.
      * destruct (decide (id = k')); [congruence | exact H].
      * destruct (decide (id = k')); [congruence | exact (IH H)].
Qed.

Lemma keys_delete_subseteq {V} (k : string) (m : JsMap.t V) (ks : list string) :
  JsMap.keys m ⊆ k :: ks -> JsMap.keys (JsMap.delete k m) ⊆ ks.
Proof.
  induction m as [|[k' x] m IH]; cbn; intros H.
  - apply list_subseteq_nil.
  - assert (Hm : JsMap.keys m ⊆ k :: ks).
    { intros y Hy. apply H. right. exact Hy. }
    destruct (decide (k = k')) as [->|Hne]; [exact (IH Hm)|].
    cbn. intros y Hy. apply elem_of_cons in Hy as [->|Hy].
    + assert (Hin : k' ∈ k :: ks) by (apply H; left).
      apply elem_of_cons in Hin as [->|Hin]; [congruence | exact Hin].
    + exact (IH Hm y Hy).
Qed.

Lemma delete_all_keys {V} (ks : list string) (m : JsMap.t V) :
  JsMap.keys m ⊆ ks -> fold_left (fun m k => JsMap.delete k m) ks m = [].
Proof.
  revert m. induction ks as [|k ks IH]; intros m H; cbn [fold_left].
  - destruct m as [|[k x] m]; [reflexivity|].
    exfalso. apply (not_elem_of_nil k). apply H. left.
  - apply IH. apply keys_delete_subseteq. exact H.
Qed.

(** *** The three steps *)

Lemma cancelOrder_simulated (w : World.t) (id : string) (s : State) (order : Order.t) :
  ExecutionConfig.simulationMode (config s) = true ->
  JsMap.get id (orderHistory s) = Some order ->
  (forall t o, World.db_updateOrder w t o = Ok tt) ->
  exists s',
    cancelOrder w id s = (Ok true, s')
    /\ pendingOrders s' = JsMap.delete id (pendingOrders s)
    /\ orderHistory s'
       = JsMap.set id (Order.with_status OrderStatus.CANCELED order) (orderHistory s)
    /\ config s' = config s.
Proof.
  intros Hsim Hget Hdb.
  unfold cancelOrder, getOrder, try_catch, bind, gets, modify, ext, tick, lift, ret,
    publishOrderUpdate.
  cbn. rewrite Hget. cbn. rewrite Hsim. cbn. rewrite Hdb. cbn.
  eexists. split; [reflexivity|]. cbn. auto.
Qed.

Lemma cancelOrder_live (w : World.t) (id : string) (s : State) (order : Order.t) :
  ExecutionConfig.simulationMode (config s) = false ->
  JsMap.get id (orderHistory s) = Some order ->
  (forall t i symbol, World.binance_cancelOrder w t i symbol = Ok tt) ->
  exists s',
    cancelOrder w id s = (Ok true, s')
    /\ pendingOrders s' = JsMap.delete id (pendingOrders s)
    /\ orderHistory s' = orderHistory s
    /\ config s' = config s.
Proof.
  intros Hsim Hget Hex.
  unfold cancelOrder, getOrder, try_catch, bind, gets, modify, ext, tick, lift, ret,
    publishOrderUpdate.
  cbn. rewrite Hget. cbn. rewrite Hsim. cbn. rewrite Hex. cbn.
  eexists. split; [reflexivity|]. cbn. auto.
Qed.

Lemma cancel_loop (w : World.t) (ids : list string) (s : State) :
  (forall id, id ∈ ids -> is_Some (JsMap.get id (orderHistory s))) ->
  cancellationsAccepted w s ->
  exists s',
    forM_ ids (fun id => cancelOrder w id ;; ret tt) s = (Ok tt, s')
    /\ pendingOrders s' = fold_left (fun m k => JsMap.delete k m) ids (pendingOrders s)
    /\ orderHistory s'
       = (if ExecutionConfig.simulationMode (config s)
          then cancelledHistory ids (orderHistory s) else orderHistory s)
    /\ config s' = config s.
Proof.
  revert s. induction ids as [|id ids IH]; intros s Hknown Hacc.
  - exists s. cbn. destruct (ExecutionConfig.simulationMode (config s)); auto.
  - destruct (Hknown id) as [order Horder]; [left|].
    unfold cancellationsAccepted in Hacc. cbn [forM_].
    destruct (ExecutionConfig.simulationMode (config s)) eqn:Hsim.
    + destruct (cancelOrder_simulated w id s order Hsim Horder Hacc)
        as (s1 & Hrun & Hp & Hh & Hc).
      destruct (IH s1) as (s2 & Hrun2 & Hp2 & Hh2 & Hc2).
      * intros id' Hin. rewrite Hh. apply get_set_is_Some. apply Hknown. right. exact Hin.
      * unfold cancellationsAccepted. rewrite Hc, Hsim. exact Hacc.
      * exists s2. split.
        { unfold bind at 1. unfold bind at 1. rewrite Hrun. cbn. exact Hrun2. }
        rewrite Hp2, Hh2, Hc2, Hc, Hsim, Hp, Hh.
        unfold cancelledHistory. cbn [fold_left]. rewrite Horder. auto.
    + destruct (cancelOrder_live w id s order Hsim Horder Hacc)
        as (s1 & Hrun & Hp & Hh & Hc).
      destruct (IH s1) as (s2 & Hrun2 & Hp2 & Hh2 & Hc2).
      * intros id' Hin. rewrite Hh. apply Hknown. right. exact Hin.
      * unfold cancellationsAccepted. rewrite Hc, Hsim. exact Hacc.
      * exists s2. split.
        { unfold bind at 1. unfold bind at 1. rewrite Hrun. cbn. exact Hrun2. }
        rewrite Hp2, Hh2, Hc2, Hc, Hsim, Hp, Hh. auto.
Qed.

Lemma cancelAllPending_empties (w : World.t) (s : State) :
  trackedOrdersKnown s ->
  cancellationsAccepted w s ->
  let s' := snd (cancelAllPending w s) in
  pendingOrders s' = []
  /\ orderHistory s'
     = (if ExecutionConfig.simulationMode (config s)
        then cancelledHistory (JsMap.keys (pendingOrders s)) (orderHistory s)
        else orderHistory s)
  /\ config s' = config s.
Proof.
  intros Hknown Hacc.
  destruct (cancel_loop w (JsMap.keys (pendingOrders s)) s Hknown Hacc)
    as (s1 & Hrun & Hp & Hh & Hc).
  change (cancelAllPending w s)
    with (forM_ (JsMap.keys (pendingOrders s))
                (fun id => cancelOrder w id ;; ret tt) s).
  cbv zeta. rewrite Hrun. cbn [snd].
  split; [|auto]. rewrite Hp. apply delete_all_keys. reflexivity.
Qed.

Lemma closeAllPositions_nothing (w : World.t) (s : State) :
  (if ExecutionConfig.simulationMode (config s)
   then openPositions (replayOrders (JsMap.values (orderHistory s))) = []
   else forall t, World.binance_getFuturesPositions w t = Ok []) ->
  pendingOrders (snd (closeAllPositions w s)) = pendingOrders s.
Proof.
  intros H.
  unfold closeAllPositions, getPositions, getSimulatedPositions, try_catch, bind,
    gets, ext, tick, lift, ret.
  cbn. destruct (ExecutionConfig.simulationMode (config s)); cbn.
  - rewrite H. reflexivity.
  - rewrite H. reflexivity.
Qed.

Lemma stopOrderExecution_halts (s : State) :
  timersConsistent s = true ->
  fst (stopOrderExecution s) = Ok tt
  /\ halted (snd (stopOrderExecution s))
  /\ pendingOrders (snd (stopOrderExecution s)) = pendingOrders s.
Proof.
  unfold timersConsistent, stopOrderExecution, halted, bind, gets, modify,
    clearInterval, ret.
  cbn. destruct (isExecuting s) eqn:Hex; cbn.
  - destruct (executionInterval s) as [handle|] eqn:Hint; [|discriminate].
    intros Ht. apply bool_decide_eq_true in Ht. cbn. rewrite Ht.
    repeat split. cbn. destruct (decide (handle <> handle)); [congruence | reflexivity].
  - destruct (executionInterval s) as [handle|] eqn:Hint; [discriminate|].
    intros Ht. apply bool_decide_eq_true in Ht. auto.
Qed.

Lemma scheduledRun_unarmed (w : World.t) (handle : nat) (s : State) :
  timers s = [] -> scheduledRun w handle s = (Ok tt, s).
Proof.
  intros Ht. unfold scheduledRun, bind, gets, ret. cbn. rewrite Ht. reflexivity.
Qed.

(** The interval bookkeeping is consistent in the initial state and stays
    so under start and stop; no other operation writes it (see the
    [keeps_control] lemmas). *)
Lemma timersConsistent_init (cfg : Config.t) : timersConsistent (init cfg) = true.
Proof. reflexivity. Qed.

Lemma timersConsistent_start (s : State) :
  timersConsistent s = true -> timersConsistent (snd (startOrderExecution s)) = true.
Proof.
  unfold timersConsistent, startOrderExecution, setInterval, bind, gets, modify, ret.
  cbn. destruct (isExecuting s) eqn:Hex; cbn.
  - rewrite Hex. auto.
  - destruct (executionInterval s); [discriminate|].
    intros Ht. apply bool_decide_eq_true in Ht. rewrite Ht. cbn.
    apply bool_decide_eq_true. reflexivity.
Qed.

Lemma timersConsistent_stop (s : State) :
  timersConsistent s = true -> timersConsistent (snd (stopOrderExecution s)) = true.
Proof.
  intros H. destruct (stopOrderExecution_halts s H) as (_ & (Hex & Hint & Ht) & _).
  unfold timersConsistent. rewrite Hex, Hint, Ht. reflexivity.
Qed.

Lemma timersConsistent_control (s s' : State) :
  Frame.control s' = Frame.control s -> timersConsistent s' = timersConsistent s.
Proof.
  unfold Frame.control, timersConsistent. intros H.
  injection H as _ -> -> -> _. reflexivity.
Qed.

End EmergencyStopFacts.

(* ================================================================== *)
(** * Further properties of the services *)

(** ** Order on [num] and lookups in [JsMap] *)

Lemma ge_Fin (a b : Qc) : ge (Fin a) (Fin b) = true <-> b <= a.
Proof.
  unfold ge. cbn [compare]. rewrite Qcle_alt, (Qccompare_antisym a b).
  destruct (a ?= b); cbn; intuition congruence.
Qed.

Lemma le_Fin (a b : Qc) : le (Fin a) (Fin b) = true <-> a <= b.
Proof.
  unfold le. cbn [compare]. rewrite Qcle_alt.
  destruct (a ?= b); cbn; intuition congruence.
Qed.

Lemma gt_Fin (a b : Qc) : gt (Fin a) (Fin b) = true <-> b < a.
Proof.
  unfold gt. cbn [compare]. rewrite Qclt_alt, (Qccompare_antisym a b).
  destruct (a ?= b); cbn; intuition congruence.
Qed.

Lemma gt_Fin_false (a b : Qc) : gt (Fin a) (Fin b) = false <-> a <= b.
Proof.
  unfold gt. cbn [compare]. rewrite Qcle_alt.
  destruct (a ?= b); cbn; intuition congruence.
Qed.

Lemma lt_Fin (a b : Qc) : lt (Fin a) (Fin b) = true <-> a < b.
Proof.
  unfold lt. cbn [compare]. rewrite Qclt_alt.
  destruct (a ?= b); cbn; intuition congruence.
Qed.

Lemma ofZ_100_nonzero : Q2Qc (inject_Z 100) <> 0.
Proof. apply Qceqb_false. reflexivity. Qed.

Lemma div_Fin (a b : Qc) : b <> 0 -> (Fin a / Fin b)%num = Fin (a / b).
Proof.
  intros Hb. cbn [div]. apply Qceqb_false in Hb. rewrite Hb. reflexivity.
Qed.

Lemma Qc_pos_100 : 0 < Q2Qc (inject_Z 100).
Proof. apply Qclt_alt. reflexivity. Qed.

Lemma get_set_eq {V} (k : string) (v : V) (m : JsMap.t V) :
  JsMap.get k (JsMap.set k v m) = Some v.
Proof.
  induction m as [|[k' x] m IH]; cbn.
  - destruct (decide (k = k)); [reflexivity | congruence].
  - destruct (decide (k = k')) as [->|Hne]; cbn.
    + destruct (decide (k' = k')); [reflexivity | congruence].
    + destruct (decide (k = k')); [congruence | exact IH].
Qed.

Lemma get_set_ne {V} (k k' : string) (v : V) (m : JsMap.t V) :
  k <> k' -> JsMap.get k (JsMap.set k' v m) = JsMap.get k m.
Proof.
  intros Hne. induction m as [|[k0 x] m IH]; cbn.
  - destruct (decide (k = k')); [congruence | reflexivity].
  - destruct (decide (k' = k0)) as [->|Hk]; cbn.
    + destruct (decide (k = k0)); [congruence | reflexivity].
    + destruct (decide (k = k0)); [reflexivity | exact IH].
Qed.

Lemma get_delete_eq {V} (k : string) (m : JsMap.t V) :
  JsMap.get k (JsMap.delete k m) = None.
Proof.
  induction m as [|[k' x] m IH]; cbn; [reflexivity|].
  destruct (decide (k = k')) as [->|Hne]; [exact IH|].
  cbn. destruct (decide (k = k')); [congruence | exact IH].
Qed.

Lemma get_delete_ne {V} (k k' : string) (m : JsMap.t V) :
  k <> k' -> JsMap.get k (JsMap.delete k' m) = JsMap.get k m.
Proof.
  intros Hne. induction m as [|[k0 x] m IH]; cbn; [reflexivity|].
  destruct (decide (k' = k0)) as [->|Hk]; cbn.
  - destruct (decide (k = k0)); [congruence | exact IH].
  - destruct (decide (k = k0)); [reflexivity | exact IH].
Qed.

(** ** Slippage *)

Section SlippageFacts.
Import Execution.

(** X1. The simulated slippage is never negative: it is NaN exactly when
    the base plus the volume impact is NaN (the logarithm of a negative or
    undefined order value), and at least 0 otherwise. *)
Theorem slippage_is_never_negative (w : World.t) (quantity price : num) :
  let raw := (frac 5 100
              + World.Math_log w (quantity * price / ofZ 10000) * frac 1 100)%num in
  (calculateSlippage w quantity price = NaN <-> raw = NaN)
  /\ (raw <> NaN -> ge (calculateSlippage w quantity price) (ofZ 0) = true).
Proof.
  cbv zeta. unfold calculateSlippage.
  generalize (frac 5 100
              + World.Math_log w (quantity * price / ofZ 10000) * frac 1 100)%num.
  intros x.
  assert (H0 : ge (ofZ 0) (ofZ 0) = true) by reflexivity.
  destruct x as [q| | |].
  - split; [unfold max, ofZ; cbn [compare];
            destruct (Q2Qc (inject_Z 0) ?= q); split; discriminate|].
    intros _. unfold max, ofZ. cbn [compare].
    change (Q2Qc (inject_Z 0)) with 0.
    destruct (0 ?= q) eqn:E; try exact H0.
    apply ge_Fin. apply Qclt_le_weak. apply Qclt_alt. exact E.
  - split; [split; discriminate | reflexivity].
  - split; [split; discriminate | intros _; exact H0].
  - split; [split; reflexivity | congruence].
Qed.

(** X2. Slippage is applied against the taker: with a price and a slippage
    that are not negative, a BUY executes at no less than the reference
    price and a SELL at no more. *)
Theorem slippage_moves_price_against_taker (price slippage : Qc) :
  0 <= price -> 0 <= slippage ->
  ge (applySlippage (Fin price) OrderSide.BUY (Fin slippage)) (Fin price) = true
  /\ le (applySlippage (Fin price) OrderSide.SELL (Fin slippage)) (Fin price) = true.
Proof.
  intros Hp Hs. unfold applySlippage, ofZ.
  rewrite (div_Fin _ _ ofZ_100_nonzero).
  assert (Hf : 0 <= slippage / Q2Qc (inject_Z 100)).
  { unfold Qcdiv. apply Qcmult_nonneg_nonneg; [exact Hs|].
    apply Qclt_le_weak, Qcinv_pos, Qc_pos_100. }
  revert Hf. generalize (slippage / Q2Qc (inject_Z 100)). intros f Hf.
  change (Q2Qc (inject_Z 1)) with 1.
  split.
  - change (Fin price * (Fin 1 + Fin f))%num with (Fin (price * (1 + f))).
    apply ge_Fin.
    replace price with (price * 1) at 1 by ring.
    apply Qcmult_le_mono_nonneg_l; [exact Hp|].
    rewrite <- (Qcplus_0_r 1) at 1. apply Qcplus_le_mono_l. exact Hf.
  - change (Fin price * (Fin 1 - Fin f))%num with (Fin (price * (1 + - f))).
    apply le_Fin.
    replace price with (price * 1) at 2 by ring.
    apply Qcmult_le_mono_nonneg_l; [exact Hp|].
    rewrite <- (Qcplus_0_r 1) at 2. apply Qcplus_le_mono_l.
    apply (Qcplus_le_mono_r _ _ f). rewrite Qcplus_0_l.
    replace (- f + f) with 0 by ring. exact Hf.
Qed.

(** A BUY at 100 with 0.05% slippage executes at 100.05, a SELL at 99.95. *)
Lemma slippage_moves_price_against_taker_witness :
  ge (applySlippage (ofZ 100) OrderSide.BUY (frac 5 100)) (ofZ 100) = true
  /\ le (applySlippage (ofZ 100) OrderSide.SELL (frac 5 100)) (ofZ 100) = true.
Proof.
  apply (slippage_moves_price_against_taker (Q2Qc (inject_Z 100)) (Q2Qc (5 # 100)));
    apply Qcle_alt; vm_compute; discriminate.
Defined.

End SlippageFacts.

(** ** The life of an order *)

Section OrderLifecycleFacts.
Import Execution.

Ltac run :=
  unfold checkOrderStatus, cancelOrder, createOrder, simulateOrderExecution,
    getOrder, try_catch, bind, gets, modify, ext, ext_total, tick, lift,
    ret, throw, publishOrderUpdate.

(** X3. In simulation, when Redis and the database answer, [createOrder]
    returns an order that is FILLED for its whole quantity; the order is then
    found by [getOrder] under its id without any call to a collaborator, it is
    tracked as PENDING with no attempt made, and it was published once. *)
Theorem created_order_is_stored_and_tracked
    (w : World.t) (orderParams : OrderParams.t) (s : State)
    (marketData : option num) :
  ExecutionConfig.simulationMode (config s) = true ->
  World.redis_getMarketData w (clock s) (OrderParams.symbol orderParams)
  = Ok marketData ->
  (forall t key, World.redis_set w t key = Ok tt) ->
  (forall t order, World.db_storeOrder w t order = Ok tt) ->
  exists order s1,
    createOrder w orderParams s = (Ok order, s1)
    /\ Order.status order = OrderStatus.FILLED
    /\ Order.executedQty order = OrderParams.quantity orderParams
    /\ Order.side order = OrderParams.side orderParams
    /\ getOrder w (Order.id order) s1 = (Ok (Some order), s1)
    /\ (exists tracking,
          JsMap.get (Order.id order) (pendingOrders s1) = Some tracking
          /\ OrderExecution.status tracking = TrackStatus.PENDING
          /\ OrderExecution.attempts tracking = ofZ 0)
    /\ published s1 = published s ++ [order].
Proof.
  intros Hsim Hget Hset Hdb. run. cbn.
  rewrite Hsim. cbn. rewrite Hget. cbn. rewrite Hset. cbn. rewrite Hdb. cbn.
  destruct (OrderParams.side orderParams) eqn:Hside;
    (do 2 eexists; split; [reflexivity|]; cbn;
     rewrite get_set_eq; cbn;
     repeat split; try reflexivity;
     eexists; split; [apply get_set_eq|]; split; reflexivity).
Qed.

Lemma created_order_is_stored_and_tracked_witness :
  exists order s1,
    createOrder (Sample.world (Some (ofZ 100)) true true Sample.noReply [])
                (Sample.marketOrder OrderSide.BUY 100) (Sample.execFresh true)
    = (Ok order, s1)
    /\ getOrder (Sample.world (Some (ofZ 100)) true true Sample.noReply [])
                (Order.id order) s1 = (Ok (Some order), s1).
Proof.
  destruct (created_order_is_stored_and_tracked
              (Sample.world (Some (ofZ 100)) true true Sample.noReply [])
              (Sample.marketOrder OrderSide.BUY 100) (Sample.execFresh true)
              (Some (ofZ 100)))
    as (order & s1 & Hrun & _ & _ & _ & Hfound & _);
    [reflexivity | reflexivity | intros; reflexivity | intros; reflexivity |].
  exists order, s1. split; assumption.
Defined.

(** X4. Whatever goes wrong inside [createOrder], the caller sees the one
    TradingError 'Failed to create order' with code ORDER_CREATE_ERROR, and
    an order whose creation failed is never tracked: the pending-orders map is
    as it was. *)
Theorem failed_createOrder_tracks_nothing
    (w : World.t) (orderParams : OrderParams.t) (s s1 : State) (e : Err) :
  createOrder w orderParams s = (Throw e, s1) ->
  e = TradingError "Failed to create order" "ORDER_CREATE_ERROR"
  /\ pendingOrders s1 = pendingOrders s.
Proof.
  run. cbn.
  destruct (ExecutionConfig.simulationMode (config s)); cbn.
  - destruct (World.redis_getMarketData w _ _) as [md|e0]; cbn.
    + destruct (OrderParams.side orderParams); cbn;
        (destruct (World.redis_set w _ _) as [[]|e1]; cbn;
         [destruct (World.db_storeOrder w _ _) as [[]|e2]; cbn|];
         intros H; inversion H; subst; split; reflexivity).
    + intros H; inversion H; subst; split; reflexivity.
  - destruct (World.binance_createOrder w _ _) as [order|e0]; cbn.
    + destruct (World.db_storeOrder w _ _) as [[]|e2]; cbn;
        intros H; inversion H; subst; split; reflexivity.
    + intros H; inversion H; subst; split; reflexivity.
Qed.

(** With the database down the creation of a simulated order fails. *)
Lemma failed_createOrder_tracks_nothing_witness :
  exists s1,
    createOrder (Sample.world (Some (ofZ 100)) false true Sample.noReply [])
                (Sample.marketOrder OrderSide.BUY 100) (Sample.execFresh true)
    = (Throw (TradingError "Failed to create order" "ORDER_CREATE_ERROR"), s1)
    /\ pendingOrders s1 = [].
Proof.
  eexists. split; [vm_compute; reflexivity|].
  apply (failed_createOrder_tracks_nothing
           (Sample.world (Some (ofZ 100)) false true Sample.noReply [])
           (Sample.marketOrder OrderSide.BUY 100) (Sample.execFresh true) _
           (TradingError "Failed to create order" "ORDER_CREATE_ERROR")).
  vm_compute. reflexivity.
Defined.

(** X5. A simulated order is filled before it is stored: when the database
    refuses the insert, [createOrder] fails, yet the fill has already moved
    the simulated balance and the FILLED order stays in the order history,
    from which the positions are rebuilt. *)
Theorem simulated_fill_survives_failed_store
    (w : World.t) (orderParams : OrderParams.t) (s : State)
    (marketData : option num) (failure : Err) :
  ExecutionConfig.simulationMode (config s) = true ->
  World.redis_getMarketData w (clock s) (OrderParams.symbol orderParams)
  = Ok marketData ->
  (forall t key, World.redis_set w t key = Ok tt) ->
  (forall t order, World.db_storeOrder w t order = Throw failure) ->
  exists order s1,
    createOrder w orderParams s
    = (Throw (TradingError "Failed to create order" "ORDER_CREATE_ERROR"), s1)
    /\ JsMap.get (Order.id order) (orderHistory s1) = Some order
    /\ Order.status order = OrderStatus.FILLED
    /\ Order.executedQty order = OrderParams.quantity orderParams
    /\ JsMap.get (Order.id order) (pendingOrders s1)
       = JsMap.get (Order.id order) (pendingOrders s)
    /\ let quantity := OrderParams.quantity orderParams in
       let executedPrice := to_num (Order.price order) in
       let fee := (quantity * executedPrice * frac 4 10000)%num in
       simulatedBalance s1
       = match OrderParams.side orderParams with
         | OrderSide.BUY =>
             (simulatedBalance s - (quantity * executedPrice + fee))%num
         | OrderSide.SELL =>
             (simulatedBalance s + (quantity * executedPrice + fee - fee))%num
         end.
Proof.
  intros Hsim Hget Hset Hdb. run. cbn.
  rewrite Hsim. cbn. rewrite Hget. cbn. rewrite Hset. cbn. rewrite Hdb. cbn.
  destruct (OrderParams.side orderParams) eqn:Hside;
    (eexists (Order.mk _ _ _ _ _ _ _ _ _ _ _ _); eexists;
     split; [reflexivity|]; cbn;
     split; [apply get_set_eq|]; repeat split; reflexivity).
Qed.

Lemma simulated_fill_survives_failed_store_witness :
  exists order s1,
    createOrder (Sample.world (Some (ofZ 100)) false true Sample.noReply [])
                (Sample.marketOrder OrderSide.BUY 100) (Sample.execFresh true)
    = (Throw (TradingError "Failed to create order" "ORDER_CREATE_ERROR"), s1)
    /\ JsMap.get (Order.id order) (orderHistory s1) = Some order
    /\ Order.status order = OrderStatus.FILLED.
Proof.
  destruct (simulated_fill_survives_failed_store
              (Sample.world (Some (ofZ 100)) false true Sample.noReply [])
              (Sample.marketOrder OrderSide.BUY 100) (Sample.execFresh true)
              (Some (ofZ 100)) (OtherError "unavailable"))
    as (order & s1 & Hrun & Hin & Hst & _);
    [reflexivity | reflexivity | intros; reflexivity | intros; reflexivity |].
  exists order, s1. auto.
Defined.

(** X6. Cancelling an order that is neither in the order history nor in
    the database (or while the database cannot be read), and that the
    exchange does not know in live mode, returns [false] and changes neither
    the tracked orders nor the history, and publishes nothing. *)
Theorem cancel_of_unknown_order_changes_nothing
    (w : World.t) (orderId : string) (s : State) :
  JsMap.get orderId (orderHistory s) = None ->
  (forall order, World.db_selectOrder w (clock s) orderId <> Ok (Some order)) ->
  ExecutionConfig.simulationMode (config s) = true
    \/ (forall t, World.binance_getOrder w t orderId "" = None) ->
  exists s1,
    cancelOrder w orderId s = (Ok false, s1)
    /\ pendingOrders s1 = pendingOrders s
    /\ orderHistory s1 = orderHistory s
    /\ published s1 = published s.
Proof.
  intros Hhist Hdb Hex. run. cbn. rewrite Hhist. cbn.
  destruct (World.db_selectOrder w (clock s) orderId) as [[order|]|e] eqn:Hsel; cbn.
  - exfalso. apply (Hdb order). reflexivity.
  - destruct (ExecutionConfig.simulationMode (config s)) eqn:Hsim; cbn.
    + eexists. split; [reflexivity|]. cbn. auto.
    + destruct Hex as [Hex|Hex]; [discriminate|]. rewrite Hex. cbn.
      eexists. split; [reflexivity|]. cbn. auto.
  - eexists. split; [reflexivity|]. cbn. auto.
Qed.

(** An order tracked by a simulation whose history was reset stays tracked
    when the database has no row for it. *)
Lemma cancel_of_unknown_order_witness :
  exists s1,
    cancelOrder (Sample.world (Some (ofZ 100)) true true Sample.noReply []) "o1"
                (Sample.running true [] [Sample.filled "o1" OrderSide.BUY 2 100])
    = (Ok false, s1)
    /\ JsMap.keys (pendingOrders s1) = ["o1"].
Proof.
  destruct (cancel_of_unknown_order_changes_nothing
              (Sample.world (Some (ofZ 100)) true true Sample.noReply []) "o1"
              (Sample.running true [] [Sample.filled "o1" OrderSide.BUY 2 100]))
    as (s1 & Hrun & Hp & _);
    [reflexivity | intros order; discriminate | left; reflexivity |].
  exists s1. split; [exact Hrun|]. rewrite Hp. reflexivity.
Defined.

(** X7. A simulated cancellation does not look at the status of the order:
    any order found in the history, FILLED ones included, is marked CANCELED
    there, is no longer tracked and is published as cancelled, while every
    other order keeps its entry in both maps. *)
Theorem simulated_cancel_marks_order_canceled
    (w : World.t) (orderId : string) (s : State) (order : Order.t) :
  ExecutionConfig.simulationMode (config s) = true ->
  JsMap.get orderId (orderHistory s) = Some order ->
  (forall t o, World.db_updateOrder w t o = Ok tt) ->
  exists s1,
    cancelOrder w orderId s = (Ok true, s1)
    /\ JsMap.get orderId (orderHistory s1)
       = Some (Order.with_status OrderStatus.CANCELED order)
    /\ JsMap.get orderId (pendingOrders s1) = None
    /\ published s1 = published s ++ [Order.with_status OrderStatus.CANCELED order]
    /\ (forall other, other <> orderId ->
          JsMap.get other (orderHistory s1) = JsMap.get other (orderHistory s)
          /\ JsMap.get other (pendingOrders s1) = JsMap.get other (pendingOrders s)).
Proof.
  intros Hsim Hget Hdb. run. cbn.
  rewrite Hget. cbn. rewrite Hsim. cbn. rewrite Hdb. cbn.
  eexists. split; [reflexivity|]. cbn.
  split; [apply get_set_eq|]. split; [apply get_delete_eq|].
  split; [reflexivity|]. intros other Hne.
  split; [apply get_set_ne | apply get_delete_ne]; exact Hne.
Qed.

Lemma simulated_cancel_witness :
  exists s1,
    cancelOrder (Sample.world (Some (ofZ 100)) true true Sample.noReply []) "o1"
                (Sample.running true [Sample.filled "o1" OrderSide.BUY 2 100]
                                     [Sample.filled "o1" OrderSide.BUY 2 100])
    = (Ok true, s1)
    /\ (Order.status <$> JsMap.get "o1" (orderHistory s1)) = Some OrderStatus.CANCELED
    /\ JsMap.get "o1" (pendingOrders s1) = None.
Proof.
  destruct (simulated_cancel_marks_order_canceled
              (Sample.world (Some (ofZ 100)) true true Sample.noReply []) "o1"
              (Sample.running true [Sample.filled "o1" OrderSide.BUY 2 100]
                                   [Sample.filled "o1" OrderSide.BUY 2 100])
              (Sample.filled "o1" OrderSide.BUY 2 100))
    as (s1 & Hrun & Hh & Hp & _);
    [reflexivity | reflexivity | intros; reflexivity |].
  exists s1. split; [exact Hrun|]. rewrite Hh. split; [reflexivity | exact Hp].
Defined.

(** X8. A simulated cancellation marks the order before it writes to the
    database: when the update fails, [cancelOrder] returns [false] and the
    order stays tracked, but it already reads CANCELED in the order history. *)
Theorem failed_simulated_cancel_still_marks_order
    (w : World.t) (orderId : string) (s : State) (order : Order.t) (failure : Err) :
  ExecutionConfig.simulationMode (config s) = true ->
  JsMap.get orderId (orderHistory s) = Some order ->
  World.db_updateOrder w (clock s)
    (Order.with_status OrderStatus.CANCELED order) = Throw failure ->
  exists s1,
    cancelOrder w orderId s = (Ok false, s1)
    /\ JsMap.get orderId (orderHistory s1)
       = Some (Order.with_status OrderStatus.CANCELED order)
    /\ pendingOrders s1 = pendingOrders s
    /\ published s1 = published s.
Proof.
  intros Hsim Hget Hdb. run. cbn.
  rewrite Hget. cbn. rewrite Hsim. cbn. rewrite Hdb. cbn.
  eexists. split; [reflexivity|]. cbn.
  split; [apply get_set_eq | auto].
Qed.

Lemma failed_simulated_cancel_witness :
  exists s1,
    cancelOrder (Sample.world (Some (ofZ 100)) false true Sample.noReply []) "o1"
                (Sample.running true [Sample.filled "o1" OrderSide.BUY 2 100]
                                     [Sample.filled "o1" OrderSide.BUY 2 100])
    = (Ok false, s1)
    /\ (Order.status <$> JsMap.get "o1" (orderHistory s1)) = Some OrderStatus.CANCELED
    /\ JsMap.keys (pendingOrders s1) = ["o1"].
Proof.
  destruct (failed_simulated_cancel_still_marks_order
              (Sample.world (Some (ofZ 100)) false true Sample.noReply []) "o1"
              (Sample.running true [Sample.filled "o1" OrderSide.BUY 2 100]
                                   [Sample.filled "o1" OrderSide.BUY 2 100])
              (Sample.filled "o1" OrderSide.BUY 2 100) (OtherError "unavailable"))
    as (s1 & Hrun & Hh & Hp & _);
    [reflexivity | reflexivity | reflexivity |].
  exists s1. split; [exact Hrun|]. rewrite Hh, Hp. split; reflexivity.
Defined.

(** *** Monitoring *)

Lemma monitor_loop_simulated (w : World.t)
    (entries : list (string * OrderExecution.t)) (s : State) :
  ExecutionConfig.simulationMode (config s) = true ->
  forM_ entries
    (fun '(orderId, execution) => monitorOrder w orderId execution) s
  = (Ok tt,
     with_pendingOrders
       (fold_left (fun m k => JsMap.delete k m) (map fst entries) (pendingOrders s)) s).
Proof.
  revert s. induction entries as [|[orderId execution] entries IH]; intros s Hsim.
  - cbn. destruct s; reflexivity.
  - cbn [forM_ map fst fold_left].
    assert (Hstep : monitorOrder w orderId execution s
                    = (Ok tt, with_pendingOrders
                                (JsMap.delete orderId (pendingOrders s)) s)).
    { unfold monitorOrder, checkOrderStatus, try_catch, bind, gets, modify, ret.
      rewrite Hsim. cbn [pendingOrders with_pendingOrders].
      unfold JsMap.has. rewrite get_delete_eq. reflexivity. }
    unfold bind at 1. rewrite Hstep.
    rewrite IH by exact Hsim. reflexivity.
Qed.

(** X9. In simulation one monitoring run drops every tracked order: the
    pending-orders map ends empty, no collaborator is called, and the order
    history, the balance and the published orders are left as they were. *)
Theorem simulated_monitoring_untracks_everything (w : World.t) (s : State) :
  ExecutionConfig.simulationMode (config s) = true ->
  monitorOrders w s = (Ok tt, with_pendingOrders [] s).
Proof.
  intros Hsim. unfold monitorOrders, bind, gets.
  rewrite (monitor_loop_simulated w (pendingOrders s) s Hsim).
  change (map fst (pendingOrders s)) with (JsMap.keys (pendingOrders s)).
  rewrite delete_all_keys; reflexivity.
Qed.

Lemma simulated_monitoring_witness :
  pendingOrders
    (snd (monitorOrders (Sample.world (Some (ofZ 100)) true true Sample.noReply [])
            (Sample.running true [Sample.filled "o1" OrderSide.BUY 2 100]
                                 [Sample.filled "o1" OrderSide.BUY 2 100])))
  = [].
Proof.
  rewrite (simulated_monitoring_untracks_everything
             (Sample.world (Some (ofZ 100)) true true Sample.noReply [])
             (Sample.running true [Sample.filled "o1" OrderSide.BUY 2 100]
                                  [Sample.filled "o1" OrderSide.BUY 2 100])
             eq_refl).
  reflexivity.
Defined.

Lemma keys_set_present {V} (k : string) (v : V) (m : JsMap.t V) :
  is_Some (JsMap.get k m) -> JsMap.keys (JsMap.set k v m) = JsMap.keys m.
Proof.
  unfold JsMap.keys. induction m as [|[k' x] m IH]; cbn.
  - intros [y Hy]. discriminate.
  - destruct (decide (k = k')) as [->|Hne]; [reflexivity|].
    intros H. cbn. f_equal. exact (IH H).
Qed.

(** Whether the monitoring treats a status as final. *)
Lemma terminal_cases (status : OrderStatus.t) :
  bool_decide (status = OrderStatus.FILLED)
  || bool_decide (status = OrderStatus.CANCELED)
  || bool_decide (status = OrderStatus.REJECTED) = true
  <-> status = OrderStatus.FILLED \/ status = OrderStatus.CANCELED
      \/ status = OrderStatus.REJECTED.
Proof. rewrite !orb_true_iff, !bool_decide_eq_true. tauto. Qed.

(** X10. In live mode an order that reads FILLED, CANCELED or REJECTED is
    dropped from the tracked orders by [checkOrderStatus]; this happens
    before the database is written, so it holds whether or not that write
    succeeds, and the order is published only when it does.  The record
    handed over is not written to. *)
Theorem finished_live_order_is_untracked
    (w : World.t) (orderId : string) (execution : OrderExecution.t) (s : State)
    (order : Order.t) :
  ExecutionConfig.simulationMode (config s) = false ->
  JsMap.get orderId (orderHistory s) = Some order ->
  Order.status order = OrderStatus.FILLED
    \/ Order.status order = OrderStatus.CANCELED
    \/ Order.status order = OrderStatus.REJECTED ->
  let s1 := snd (checkOrderStatus w orderId execution s) in
  fst (checkOrderStatus w orderId execution s) = Ok execution
  /\ JsMap.get orderId (pendingOrders s1) = None
  /\ (forall other, other <> orderId ->
        JsMap.get other (pendingOrders s1) = JsMap.get other (pendingOrders s))
  /\ orderHistory s1 = orderHistory s
  /\ published s1
     = (match World.db_updateOrder w (clock s) order with
        | Ok _ => published s ++ [order]
        | Throw _ => published s
        end).
Proof.
  intros Hsim Hget Hterm. apply terminal_cases in Hterm.
  cbv zeta. run. cbn. rewrite Hsim. cbn. rewrite Hget. cbn. rewrite Hterm. cbn.
  destruct (World.db_updateOrder w (clock s) order) as [[]|e]; cbn;
    (split; [reflexivity|]; split; [apply get_delete_eq|];
     split; [intros other Hne; apply get_delete_ne; exact Hne | auto]).
Qed.

(** X11. In live mode an unfinished order whose last attempt is older than
    the timeout, with fewer attempts than the retry cap, is retried:
    [checkOrderStatus] writes to the record it was handed, whose attempt
    counter goes up by one and whose last attempt is set to the current time,
    and leaves the maps of the service alone.  In the monitoring loop, where
    that record is the tracked entry of the order, the order therefore stays
    tracked with the new counter and time, the other entries are as before,
    and nothing is published. *)
Theorem timed_out_order_is_retried
    (w : World.t) (orderId : string) (execution : OrderExecution.t) (s : State)
    (order : Order.t) :
  ExecutionConfig.simulationMode (config s) = false ->
  JsMap.get orderId (orderHistory s) = Some order ->
  Order.status order = OrderStatus.NEW
    \/ Order.status order = OrderStatus.PARTIALLY_FILLED
    \/ Order.status order = OrderStatus.EXPIRED ->
  gt (ofZ (World.Date_now w (clock s) - OrderExecution.lastAttempt execution))
     (ExecutionConfig.orderTimeout (config s)) = true ->
  lt (OrderExecution.attempts execution)
     (ExecutionConfig.maxOrderRetries (config s)) = true ->
  let retried :=
    OrderExecution.mk (OrderExecution.orderId execution)
      (OrderExecution.status execution)
      (OrderExecution.attempts execution + ofZ 1)%num
      (World.Date_now w (S (clock s)))
      (OrderExecution.error execution) in
  (let s1 := snd (checkOrderStatus w orderId execution s) in
   fst (checkOrderStatus w orderId execution s) = Ok retried
   /\ pendingOrders s1 = pendingOrders s
   /\ orderHistory s1 = orderHistory s
   /\ published s1 = published s)
  /\ (JsMap.get orderId (pendingOrders s) = Some execution ->
      let s2 := snd (monitorOrder w orderId execution s) in
      fst (monitorOrder w orderId execution s) = Ok tt
      /\ JsMap.get orderId (pendingOrders s2) = Some retried
      /\ (forall other, other <> orderId ->
            JsMap.get other (pendingOrders s2) = JsMap.get other (pendingOrders s))
      /\ JsMap.keys (pendingOrders s2) = JsMap.keys (pendingOrders s)
      /\ orderHistory s2 = orderHistory s
      /\ published s2 = published s).
Proof.
  intros Hsim Hget Hstatus Hout Hretry. cbv zeta.
  assert (Hrun : checkOrderStatus w orderId execution s
                 = (Ok (OrderExecution.mk (OrderExecution.orderId execution)
                          (OrderExecution.status execution)
                          (OrderExecution.attempts execution + ofZ 1)%num
                          (World.Date_now w (S (clock s)))
                          (OrderExecution.error execution)),
                    with_clock (S (S (clock s))) s)).
  { run. cbn. rewrite Hsim. cbn. rewrite Hget. cbn.
    replace (bool_decide (Order.status order = OrderStatus.FILLED)
             || bool_decide (Order.status order = OrderStatus.CANCELED)
             || bool_decide (Order.status order = OrderStatus.REJECTED))
      with false
      by (destruct Hstatus as [-> | [-> | ->]]; reflexivity).
    cbn. rewrite Hout. cbn. rewrite Hretry. reflexivity. }
  split.
  - rewrite Hrun. repeat split.
  - intros Htracked.
    assert (Hloop : monitorOrder w orderId execution s
                    = (Ok tt,
                       with_pendingOrders
                         (JsMap.set orderId
                            (OrderExecution.mk (OrderExecution.orderId execution)
                               (OrderExecution.status execution)
                               (OrderExecution.attempts execution + ofZ 1)%num
                               (World.Date_now w (S (clock s)))
                               (OrderExecution.error execution))
                            (pendingOrders s))
                         (with_clock (S (S (clock s))) s))).
    { unfold monitorOrder, try_catch. unfold bind at 1. rewrite Hrun.
      unfold modify, JsMap.has. cbn [pendingOrders with_clock].
      rewrite Htracked. reflexivity. }
    rewrite Hloop. cbn [fst snd pendingOrders with_pendingOrders orderHistory
                        published with_clock].
    split; [reflexivity|]. split; [apply get_set_eq|].
    split; [intros other Hne; apply get_set_ne; exact Hne|].
    split; [|split; reflexivity].
    apply keys_set_present. rewrite Htracked. eauto.
Qed.

(** X12. At the retry cap the order is not retried again: an unfinished
    live order that timed out with its attempts not below the cap is
    cancelled at the exchange, and once the exchange accepts, it is no longer
    tracked and is published. *)
Theorem timed_out_order_is_cancelled_at_retry_cap
    (w : World.t) (orderId : string) (execution : OrderExecution.t) (s : State)
    (order : Order.t) :
  ExecutionConfig.simulationMode (config s) = false ->
  JsMap.get orderId (orderHistory s) = Some order ->
  Order.status order = OrderStatus.NEW
    \/ Order.status order = OrderStatus.PARTIALLY_FILLED
    \/ Order.status order = OrderStatus.EXPIRED ->
  gt (ofZ (World.Date_now w (clock s) - OrderExecution.lastAttempt execution))
     (ExecutionConfig.orderTimeout (config s)) = true ->
  lt (OrderExecution.attempts execution)
     (ExecutionConfig.maxOrderRetries (config s)) = false ->
  (forall t id symbol, World.binance_cancelOrder w t id symbol = Ok tt) ->
  let s1 := snd (checkOrderStatus w orderId execution s) in
  fst (checkOrderStatus w orderId execution s) = Ok execution
  /\ JsMap.get orderId (pendingOrders s1) = None
  /\ orderHistory s1 = orderHistory s
  /\ published s1 = published s ++ [order].
Proof.
  intros Hsim Hget Hstatus Hout Hretry Hcancel. cbv zeta. run. cbn.
  rewrite Hsim. cbn. rewrite Hget. cbn.
  replace (bool_decide (Order.status order = OrderStatus.FILLED)
           || bool_decide (Order.status order = OrderStatus.CANCELED)
           || bool_decide (Order.status order = OrderStatus.REJECTED))
    with false
    by (destruct Hstatus as [-> | [-> | ->]]; reflexivity).
  cbn. rewrite Hout. cbn. rewrite Hretry. cbn.
  rewrite ?Hget; cbn; rewrite ?Hsim; cbn; rewrite ?Hcancel; cbn.
  split; [reflexivity|]. split; [apply get_delete_eq | auto].
Qed.

(** X13. An unfinished live order that has not timed out is left exactly as
    it is, the record handed over included: only the clock was read. *)
Theorem live_order_within_timeout_is_left_alone
    (w : World.t) (orderId : string) (execution : OrderExecution.t) (s : State)
    (order : Order.t) :
  ExecutionConfig.simulationMode (config s) = false ->
  JsMap.get orderId (orderHistory s) = Some order ->
  Order.status order = OrderStatus.NEW
    \/ Order.status order = OrderStatus.PARTIALLY_FILLED
    \/ Order.status order = OrderStatus.EXPIRED ->
  gt (ofZ (World.Date_now w (clock s) - OrderExecution.lastAttempt execution))
     (ExecutionConfig.orderTimeout (config s)) = false ->
  checkOrderStatus w orderId execution s
  = (Ok execution, with_clock (S (clock s)) s).
Proof.
  intros Hsim Hget Hstatus Hout. run. cbn.
  rewrite Hsim. cbn. rewrite Hget. cbn.
  replace (bool_decide (Order.status order = OrderStatus.FILLED)
           || bool_decide (Order.status order = OrderStatus.CANCELED)
           || bool_decide (Order.status order = OrderStatus.REJECTED))
    with false
    by (destruct Hstatus as [-> | [-> | ->]]; reflexivity).
  cbn. rewrite Hout. reflexivity.
Qed.

Lemma finished_live_order_witness :
  let w := Sample.world (Some (ofZ 100)) true true Sample.noReply [] in
  let s := Sample.running false [Sample.filled "o1" OrderSide.BUY 2 100]
                                [Sample.filled "o1" OrderSide.BUY 2 100] in
  JsMap.get "o1" (pendingOrders (snd (checkOrderStatus w "o1" (Sample.stale "o1" 0) s)))
  = None.
Proof.
  cbv zeta.
  apply (finished_live_order_is_untracked
           (Sample.world (Some (ofZ 100)) true true Sample.noReply []) "o1"
           (Sample.stale "o1" 0)
           (Sample.running false [Sample.filled "o1" OrderSide.BUY 2 100]
                                 [Sample.filled "o1" OrderSide.BUY 2 100])
           (Sample.filled "o1" OrderSide.BUY 2 100));
    [reflexivity | reflexivity | left; reflexivity].
Defined.

(** The tracked entry of o1 has made two attempts, the last one 40 seconds
    ago: the monitoring step leaves it tracked with three. *)
Lemma timed_out_order_is_retried_witness :
  let w := Sample.world (Some (ofZ 100)) true true Sample.noReply [] in
  let s := with_pendingOrders [("o1", Sample.stale "o1" 2)]
             (Sample.running false [Sample.resting "o1"] []) in
  JsMap.get "o1" (pendingOrders s) = Some (Sample.stale "o1" 2)
  /\ JsMap.get "o1" (pendingOrders (snd (monitorOrder w "o1" (Sample.stale "o1" 2) s)))
     = Some (OrderExecution.mk "o1" TrackStatus.PENDING (ofZ 2 + ofZ 1)%num 1 None).
Proof.
  cbv zeta. split; [reflexivity|].
  destruct (timed_out_order_is_retried
              (Sample.world (Some (ofZ 100)) true true Sample.noReply []) "o1"
              (Sample.stale "o1" 2)
              (with_pendingOrders [("o1", Sample.stale "o1" 2)]
                 (Sample.running false [Sample.resting "o1"] []))
              (Sample.resting "o1"))
    as (_ & Hloop);
    [reflexivity | reflexivity | left; reflexivity | reflexivity | reflexivity |].
  destruct (Hloop eq_refl) as (_ & Hentry & _). exact Hentry.
Defined.

Lemma timed_out_order_is_cancelled_witness :
  let w := Sample.world (Some (ofZ 100)) true true Sample.noReply [] in
  let s := Sample.running false [Sample.resting "o1"] [Sample.resting "o1"] in
  JsMap.get "o1" (pendingOrders (snd (checkOrderStatus w "o1" (Sample.stale "o1" 3) s)))
  = None.
Proof.
  cbv zeta.
  apply (timed_out_order_is_cancelled_at_retry_cap
           (Sample.world (Some (ofZ 100)) true true Sample.noReply []) "o1"
           (Sample.stale "o1" 3)
           (Sample.running false [Sample.resting "o1"] [Sample.resting "o1"])
           (Sample.resting "o1"));
    [reflexivity | reflexivity | left; reflexivity | reflexivity | reflexivity
    | intros; reflexivity].
Defined.

Lemma live_order_within_timeout_witness :
  let w := Sample.world (Some (ofZ 100)) true true Sample.noReply [] in
  let s := Sample.running false [Sample.resting "o1"] [Sample.resting "o1"] in
  pendingOrders (snd (checkOrderStatus w "o1" (snd (Sample.tracked "o1")) s))
  = pendingOrders s.
Proof.
  cbv zeta.
  rewrite (live_order_within_timeout_is_left_alone
             (Sample.world (Some (ofZ 100)) true true Sample.noReply []) "o1"
             (snd (Sample.tracked "o1"))
             (Sample.running false [Sample.resting "o1"] [Sample.resting "o1"])
             (Sample.resting "o1"));
    [reflexivity | reflexivity | reflexivity | left; reflexivity | reflexivity].
Defined.

(** *** Starting and stopping *)

(** X14. Starting twice arms one interval only: a second
    [startOrderExecution] changes nothing. *)
Theorem start_twice_arms_one_interval (s : State) :
  startOrderExecution (snd (startOrderExecution s))
  = (Ok tt, snd (startOrderExecution s)).
Proof.
  unfold startOrderExecution, setInterval, bind, gets, modify, ret. cbn.
  destruct (isExecuting s) eqn:Hex; cbn.
  - rewrite Hex. reflexivity.
  - reflexivity.
Qed.

(** X15. From a stopped service, start followed by stop leaves the service
    stopped with no interval armed, and a later scheduled run of the interval
    that was armed in between does nothing. *)
Theorem stop_undoes_start (w : World.t) (s : State) :
  Spec.halted s ->
  let s1 := snd (startOrderExecution s) in
  let s2 := snd (stopOrderExecution s1) in
  timers s1 = [nextTimer s]
  /\ Spec.halted s2
  /\ scheduledRun w (nextTimer s) s2 = (Ok tt, s2)
  /\ pendingOrders s2 = pendingOrders s
  /\ orderHistory s2 = orderHistory s.
Proof.
  intros (Hex & Hint & Ht). cbv zeta.
  unfold startOrderExecution, stopOrderExecution, setInterval, clearInterval,
    scheduledRun, Spec.halted, bind, gets, modify, ret.
  cbn. rewrite Hex. cbn. rewrite Ht. cbn.
  destruct (decide (nextTimer s <> nextTimer s)) as [Hne|_]; [congruence|].
  cbn. repeat split.
Qed.

Lemma stop_undoes_start_witness :
  Spec.halted (snd (stopOrderExecution
                      (snd (startOrderExecution (Sample.execFresh true))))).
Proof.
  apply (stop_undoes_start (Sample.world None true true Sample.noReply [])
           (Sample.execFresh true)).
  repeat split.
Defined.

End OrderLifecycleFacts.

(** ** Closing a simulated position *)

Section ClosePositionFacts.
Import Execution Spec.

Lemma set_fresh {V} (k : string) (v : V) (m : JsMap.t V) :
  JsMap.get k m = None -> JsMap.set k v m = m ++ [(k, v)].
Proof.
  induction m as [|[k' x] m IH]; cbn; [reflexivity|].
  destruct (decide (k = k')); [discriminate|]. intros H. rewrite (IH H). reflexivity.
Qed.

Lemma get_None_keys {V} (k : string) (m : JsMap.t V) :
  JsMap.get k m = None <-> k ∉ JsMap.keys m.
Proof.
  induction m as [|[k' x] m IH]; cbn.
  - split; [intros _; apply not_elem_of_nil | reflexivity].
  - rewrite not_elem_of_cons. destruct (decide (k = k')) as [->|Hne].
    + split; [discriminate | intros [H _]; congruence].
    + rewrite IH. tauto.
Qed.

Lemma keys_set {V} (k : string) (v : V) (m : JsMap.t V) :
  JsMap.keys (JsMap.set k v m)
  = if decide (k ∈ JsMap.keys m) then JsMap.keys m else JsMap.keys m ++ [k].
Proof.
  unfold JsMap.keys. induction m as [|[k' x] m IH]; cbn.
  - destruct (decide (k ∈ [])) as [H|_]; [|reflexivity].
    apply elem_of_nil in H. contradiction.
  - destruct (decide (k = k')) as [->|Hne]; cbn.
    + destruct (decide (k' ∈ k' :: map fst m)) as [_|H]; [reflexivity|].
      exfalso. apply H. left.
    + rewrite IH.
      destruct (decide (k ∈ map fst m)) as [Hin|Hnin];
        destruct (decide (k ∈ k' :: map fst m)) as [H|H]; try reflexivity.
      * exfalso. apply H. right. exact Hin.
      * apply elem_of_cons in H as [H|H]; [congruence | contradiction].
Qed.

Lemma NoDup_keys_set {V} (k : string) (v : V) (m : JsMap.t V) :
  NoDup (JsMap.keys m) -> NoDup (JsMap.keys (JsMap.set k v m)).
Proof.
  intros H. rewrite keys_set. destruct (decide (k ∈ JsMap.keys m)) as [Hin|Hnin].
  - exact H.
  - apply NoDup_app. split; [exact H|]. split.
    + intros x Hx Hk. apply list_elem_of_singleton in Hk as ->. contradiction.
    + apply NoDup_singleton.
Qed.

Lemma keyed_set (k : string) (p : Position.t) (m : JsMap.t Position.t) :
  Position.symbol p = k -> keyedBySymbol m -> keyedBySymbol (JsMap.set k p m).
Proof.
  intros Hp Hm. induction Hm as [|[k' x] m Hx Hm IH]; cbn.
  - constructor; [exact Hp | constructor].
  - destruct (decide (k = k')) as [->|Hne].
    + constructor; [exact Hp | exact Hm].
    + constructor; [exact Hx | exact IH].
Qed.

Lemma get_elem_of {V} (k : string) (v : V) (m : JsMap.t V) :
  JsMap.get k m = Some v -> (k, v) ∈ m.
Proof.
  induction m as [|[k' x] m IH]; cbn; [discriminate|].
  destruct (decide (k = k')) as [->|Hne]; intros H.
  - injection H as ->. left.
  - right. exact (IH H).
Qed.

Lemma elem_of_get {V} (k : string) (v : V) (m : JsMap.t V) :
  NoDup (JsMap.keys m) -> (k, v) ∈ m -> JsMap.get k m = Some v.
Proof.
  induction m as [|[k' x] m IH]; cbn; intros Hnd Hin.
  - apply elem_of_nil in Hin. contradiction.
  - apply NoDup_cons in Hnd as [Hk' Hnd].
    apply elem_of_cons in Hin as [Heq|Hin].
    + injection Heq as -> ->. destruct (decide (k' = k')); [reflexivity | congruence].
    + destruct (decide (k = k')) as [->|Hne]; [|exact (IH Hnd Hin)].
      exfalso. apply Hk'. apply list_elem_of_fmap. exists (k', v). split; [reflexivity | exact Hin].
Qed.

Lemma applyOrder_invariant (m : JsMap.t Position.t) (order : Order.t) :
  keyedBySymbol m /\ NoDup (JsMap.keys m) ->
  keyedBySymbol (applyOrder m order) /\ NoDup (JsMap.keys (applyOrder m order)).
Proof.
  intros [Hk Hnd]. unfold applyOrder.
  destruct (decide (Order.status order = OrderStatus.FILLED)); [|auto].
  destruct (JsMap.get (Order.symbol order) m) as [existing|] eqn:Hget.
  - split; [|apply NoDup_keys_set, Hnd].
    apply keyed_set; [|exact Hk]. cbn.
    apply get_elem_of in Hget. unfold keyedBySymbol in Hk.
    rewrite Forall_forall in Hk. exact (Hk _ Hget).
  - split; [|apply NoDup_keys_set, Hnd].
    apply keyed_set; [reflexivity | exact Hk].
Qed.

Lemma replayOrders_invariant (orders : list Order.t) :
  keyedBySymbol (replayOrders orders) /\ NoDup (JsMap.keys (replayOrders orders)).
Proof.
  unfold replayOrders.
  assert (H : forall m, keyedBySymbol m /\ NoDup (JsMap.keys m) ->
              keyedBySymbol (fold_left applyOrder orders m)
              /\ NoDup (JsMap.keys (fold_left applyOrder orders m))).
  { induction orders as [|o orders IH]; intros m Hm; cbn [fold_left]; [exact Hm|].
    apply IH, applyOrder_invariant, Hm. }
  apply H. split; [constructor | apply NoDup_nil_2].
Qed.

Lemma elem_of_openPositions (m : JsMap.t Position.t) (p : Position.t) :
  p ∈ openPositions m
  <-> (exists k, (k, p) ∈ m) /\ gt (Position.size p) (ofZ 0) = true.
Proof.
  unfold openPositions, JsMap.values.
  rewrite list_elem_of_filter, list_elem_of_fmap, Is_true_true.
  split.
  - intros [Hgt ([k q] & -> & Hin)]. split; [exists k; exact Hin | exact Hgt].
  - intros [[k Hin] Hgt]. split; [exact Hgt|]. exists (k, p). split; [reflexivity | exact Hin].
Qed.

Lemma find_open_position (m : JsMap.t Position.t) (symbol : string) (p : Position.t) :
  keyedBySymbol m ->
  JsMap.get symbol m = Some p ->
  gt (Position.size p) (ofZ 0) = true ->
  List.find (fun pos => bool_decide (Position.symbol pos = symbol)) (openPositions m)
  = Some p.
Proof.
  unfold openPositions, JsMap.values.
  intros Hk. induction Hk as [|[k x] m Hx Hk IH]; intros Hget Hgt.
  - discriminate.
  - cbn [JsMap.get] in Hget. cbn [fst snd] in Hx. rewrite map_cons. cbn [snd].
    destruct (decide (symbol = k)) as [->|Hne].
    + injection Hget as ->.
      rewrite filter_cons_True by (apply Is_true_true; exact Hgt).
      cbn [List.find]. rewrite bool_decide_eq_true_2 by exact Hx. reflexivity.
    + destruct (decide (Is_true (gt (Position.size x) (ofZ 0)))) as [Hopen|Hclosed].
      * rewrite filter_cons_True by exact Hopen. cbn [List.find].
        rewrite bool_decide_eq_false_2 by congruence. exact (IH Hget Hgt).
      * rewrite filter_cons_False by exact Hclosed. exact (IH Hget Hgt).
Qed.

Lemma createOrder_simulated
    (w : World.t) (orderParams : OrderParams.t) (s : State) (marketData : option num) :
  ExecutionConfig.simulationMode (config s) = true ->
  World.redis_getMarketData w (clock s) (OrderParams.symbol orderParams)
  = Ok marketData ->
  (forall t key, World.redis_set w t key = Ok tt) ->
  (forall t order, World.db_storeOrder w t order = Ok tt) ->
  exists order s1,
    createOrder w orderParams s = (Ok order, s1)
    /\ Order.id order = World.newOrderId w (S (clock s))
    /\ Order.symbol order = OrderParams.symbol orderParams
    /\ Order.side order = OrderParams.side orderParams
    /\ Order.status order = OrderStatus.FILLED
    /\ Order.executedQty order = OrderParams.quantity orderParams
    /\ orderHistory s1 = JsMap.set (Order.id order) order (orderHistory s).
Proof.
  intros Hsim Hget Hset Hdb.
  unfold createOrder, simulateOrderExecution, try_catch, bind, gets, modify, ext,
    ext_total, tick, lift, ret, throw, publishOrderUpdate.
  cbn. rewrite Hsim. cbn. rewrite Hget. cbn. rewrite Hset. cbn. rewrite Hdb. cbn.
  destruct (OrderParams.side orderParams) eqn:Hside;
    (do 2 eexists; split; [reflexivity|]; cbn; repeat split; reflexivity).
Qed.

Lemma replayOrders_snoc (orders : list Order.t) (order : Order.t) :
  replayOrders (orders ++ [order]) = applyOrder (replayOrders orders) order.
Proof. unfold replayOrders. rewrite fold_left_app. reflexivity. Qed.

Lemma open_position_lookup (s : State) (pos : Position.t) :
  pos ∈ openPositionsOf s ->
  JsMap.get (Position.symbol pos)
            (replayOrders (JsMap.values (orderHistory s))) = Some pos
  /\ gt (Position.size pos) (ofZ 0) = true.
Proof.
  unfold openPositionsOf. intros Hin.
  apply elem_of_openPositions in Hin as [[k Hin] Hgt]. split; [|exact Hgt].
  destruct (replayOrders_invariant (JsMap.values (orderHistory s))) as [Hk Hnd].
  unfold keyedBySymbol in Hk. rewrite Forall_forall in Hk.
  pose proof (Hk _ Hin) as Hs. cbn in Hs. rewrite Hs. apply elem_of_get; assumption.
Qed.

(** What [closePosition] does in simulation when the symbol has an open
    position and the collaborators answer: one market order of the opposite
    side for the size of the position is filled and replayed on top of the
    history. *)
Lemma closePosition_simulated
    (w : World.t) (s : State) (pos : Position.t) (marketData : option num) :
  ExecutionConfig.simulationMode (config s) = true ->
  pos ∈ openPositionsOf s ->
  World.redis_getMarketData w (clock s) (Position.symbol pos) = Ok marketData ->
  (forall t key, World.redis_set w t key = Ok tt) ->
  (forall t order, World.db_storeOrder w t order = Ok tt) ->
  JsMap.get (World.newOrderId w (S (clock s))) (orderHistory s) = None ->
  exists order s1,
    closePosition w (Position.symbol pos) s = (Ok true, s1)
    /\ Order.symbol order = Position.symbol pos
    /\ Order.side order
       = (match Position.side pos with
          | PositionSide.LONG => OrderSide.SELL
          | PositionSide.SHORT => OrderSide.BUY
          end)
    /\ Order.status order = OrderStatus.FILLED
    /\ Order.executedQty order = Position.size pos
    /\ replayOrders (JsMap.values (orderHistory s1))
       = applyOrder (replayOrders (JsMap.values (orderHistory s))) order.
Proof.
  intros Hsim Hin Hget Hset Hdb Hfresh.
  destruct (open_position_lookup s pos Hin) as [Hlookup Hgt].
  destruct (replayOrders_invariant (JsMap.values (orderHistory s))) as [Hk _].
  pose proof (find_open_position _ _ _ Hk Hlookup Hgt) as Hfind.
  destruct (createOrder_simulated w
              (OrderParams.mk (Position.symbol pos)
                 (match Position.side pos with
                  | PositionSide.LONG => OrderSide.SELL
                  | PositionSide.SHORT => OrderSide.BUY
                  end)
                 OrderType.MARKET (Position.size pos) None None)
              s marketData Hsim Hget Hset Hdb)
    as (order & s1 & Hrun & Hid & Hsym & Hside & Hst & Hqty & Hhist).
  exists order, s1.
  split.
  - unfold closePosition, closeSimulatedPosition, getSimulatedPositions, try_catch.
    unfold bind at 1. unfold gets at 1. rewrite Hsim.
    unfold bind at 1. unfold gets at 1. rewrite Hfind.
    unfold bind at 1. rewrite Hrun. reflexivity.
  - repeat (split; [assumption|]).
    rewrite Hhist, Hid, (set_fresh _ _ _ Hfresh).
    unfold JsMap.values. rewrite map_app. apply replayOrders_snoc.
Qed.

(** X16. In simulation, closing a LONG position whose size is a finite
    number leaves no open position for its symbol: the closing SELL brings the
    replayed size to zero.  (Redis and the database answer, and the id of the
    closing order is new to the history.) *)
Theorem closing_a_long_position_leaves_none
    (w : World.t) (s : State) (pos : Position.t) (size : Qc)
    (marketData : option num) :
  ExecutionConfig.simulationMode (config s) = true ->
  pos ∈ openPositionsOf s ->
  Position.side pos = PositionSide.LONG ->
  Position.size pos = Fin size ->
  World.redis_getMarketData w (clock s) (Position.symbol pos) = Ok marketData ->
  (forall t key, World.redis_set w t key = Ok tt) ->
  (forall t order, World.db_storeOrder w t order = Ok tt) ->
  JsMap.get (World.newOrderId w (S (clock s))) (orderHistory s) = None ->
  exists s1,
    closePosition w (Position.symbol pos) s = (Ok true, s1)
    /\ Forall (fun p => Position.symbol p <> Position.symbol pos) (openPositionsOf s1).
Proof.
  intros Hsim Hin Hlong Hsize Hget Hset Hdb Hfresh.
  destruct (closePosition_simulated w s pos marketData Hsim Hin Hget Hset Hdb Hfresh)
    as (order & s1 & Hrun & Hsym & Hside & Hst & Hqty & Hreplay).
  exists s1. split; [exact Hrun|].
  destruct (open_position_lookup s pos Hin) as [Hlookup Hgt].
  set (m := replayOrders (JsMap.values (orderHistory s))) in *.
  apply Forall_forall. intros p Hp Heq.
  unfold openPositionsOf in Hp. rewrite Hreplay in Hp.
  destruct (applyOrder_invariant m order (replayOrders_invariant _)) as [Hk' Hnd'].
  apply elem_of_openPositions in Hp as [[k Hp] Hopen].
  pose proof Hp as Hp'.
  unfold keyedBySymbol in Hk'. rewrite Forall_forall in Hk'.
  specialize (Hk' _ Hp). cbn in Hk'.
  apply (elem_of_get _ _ _ Hnd') in Hp'.
  rewrite <- Hk', Heq in Hp'.
  revert Hp'. unfold applyOrder.
  destruct (decide (Order.status order = OrderStatus.FILLED)) as [_|]; [|congruence].
  rewrite Hsym, Hlookup, Hside, Hlong, Hqty, Hsize.
  change (Fin size - Fin size)%num with (Fin (size + - size)).
  replace (size + - size) with 0 by ring.
  replace (gt (Fin 0) (ofZ 0)) with false by reflexivity.
  rewrite get_set_eq. intros Hp'. injection Hp' as <-.
  cbn in Hopen. discriminate.
Qed.

(** X17. The replay adds every BUY to the size and subtracts every SELL,
    whatever the side of the position.  A SHORT position (one opened by a
    SELL) is therefore not closed by [closePosition]: its closing order is a
    BUY, and afterwards the position is still open, still SHORT, with twice
    its size. *)
Theorem closing_a_short_position_doubles_it
    (w : World.t) (s : State) (pos : Position.t) (size : Qc)
    (marketData : option num) :
  ExecutionConfig.simulationMode (config s) = true ->
  pos ∈ openPositionsOf s ->
  Position.side pos = PositionSide.SHORT ->
  Position.size pos = Fin size ->
  World.redis_getMarketData w (clock s) (Position.symbol pos) = Ok marketData ->
  (forall t key, World.redis_set w t key = Ok tt) ->
  (forall t order, World.db_storeOrder w t order = Ok tt) ->
  JsMap.get (World.newOrderId w (S (clock s))) (orderHistory s) = None ->
  exists s1 after,
    closePosition w (Position.symbol pos) s = (Ok true, s1)
    /\ after ∈ openPositionsOf s1
    /\ Position.symbol after = Position.symbol pos
    /\ Position.side after = PositionSide.SHORT
    /\ Position.size after = Fin (size + size).
Proof.
  intros Hsim Hin Hshort Hsize Hget Hset Hdb Hfresh.
  destruct (closePosition_simulated w s pos marketData Hsim Hin Hget Hset Hdb Hfresh)
    as (order & s1 & Hrun & Hsym & Hside & Hst & Hqty & Hreplay).
  destruct (open_position_lookup s pos Hin) as [Hlookup Hgt].
  assert (Hpos : 0 < size).
  { rewrite Hsize in Hgt. apply gt_Fin in Hgt. exact Hgt. }
  assert (Hdouble : gt (Fin (size + size)) (ofZ 0) = true).
  { apply gt_Fin. apply Qcplus_pos_pos; exact Hpos. }
  set (m := replayOrders (JsMap.values (orderHistory s))) in *.
  assert (Happly : exists after,
             JsMap.get (Position.symbol pos) (applyOrder m order) = Some after
             /\ Position.symbol after = Position.symbol pos
             /\ Position.side after = PositionSide.SHORT
             /\ Position.size after = Fin (size + size)).
  { unfold applyOrder.
    destruct (decide (Order.status order = OrderStatus.FILLED)) as [_|]; [|congruence].
    rewrite Hsym, Hlookup, Hside, Hshort, Hqty, Hsize.
    change (Fin size + Fin size)%num with (Fin (size + size)).
    rewrite Hdouble, get_set_eq. eexists. split; [reflexivity|]. cbn. auto. }
  destruct Happly as (after & Hafter & Hs & Hsd & Hsz).
  exists s1, after. split; [exact Hrun|]. split; [|auto].
  unfold openPositionsOf. rewrite Hreplay. apply elem_of_openPositions.
  split; [exists (Position.symbol pos); apply get_elem_of, Hafter|].
  rewrite Hsz. exact Hdouble.
Qed.

(** 100 units bought at 100 and then closed. *)
Lemma closing_a_long_position_witness :
  let w := Sample.world (Some (ofZ 100)) true true Sample.noReply [] in
  let s := Sample.running true [Sample.filled "o1" OrderSide.BUY 100 100] [] in
  exists s1,
    closePosition w "BTCUSDT" s = (Ok true, s1)
    /\ Forall (fun p => Position.symbol p <> "BTCUSDT") (openPositionsOf s1).
Proof.
  cbv zeta.
  assert (Hin : exists pos,
             pos ∈ openPositionsOf
                     (Sample.running true [Sample.filled "o1" OrderSide.BUY 100 100] [])
             /\ Position.symbol pos = "BTCUSDT"
             /\ Position.side pos = PositionSide.LONG
             /\ Position.size pos = ofZ 100).
  { eexists. split; [vm_compute; apply list_elem_of_here|].
    split; [reflexivity|]. split; reflexivity. }
  destruct Hin as (pos & Hin & Hsym & Hside & Hsize).
  rewrite <- Hsym.
  apply (closing_a_long_position_leaves_none
           (Sample.world (Some (ofZ 100)) true true Sample.noReply [])
           (Sample.running true [Sample.filled "o1" OrderSide.BUY 100 100] [])
           pos (Q2Qc (inject_Z 100)) (Some (ofZ 100)));
    [reflexivity | exact Hin | exact Hside | exact Hsize | reflexivity
    | intros; reflexivity | intros; reflexivity | reflexivity].
Defined.

(** 100 units sold short at 100 and then "closed": 200 units short. *)
Lemma closing_a_short_position_witness :
  let w := Sample.world (Some (ofZ 100)) true true Sample.noReply [] in
  let s := Sample.running true [Sample.filled "o1" OrderSide.SELL 100 100] [] in
  exists s1 after,
    closePosition w "BTCUSDT" s = (Ok true, s1)
    /\ after ∈ openPositionsOf s1
    /\ Position.side after = PositionSide.SHORT
    /\ Position.size after = Fin (Q2Qc (inject_Z 100) + Q2Qc (inject_Z 100)).
Proof.
  cbv zeta.
  assert (Hin : exists pos,
             pos ∈ openPositionsOf
                     (Sample.running true [Sample.filled "o1" OrderSide.SELL 100 100] [])
             /\ Position.symbol pos = "BTCUSDT"
             /\ Position.side pos = PositionSide.SHORT
             /\ Position.size pos = ofZ 100).
  { eexists. split; [vm_compute; apply list_elem_of_here|].
    split; [reflexivity|]. split; reflexivity. }
  destruct Hin as (pos & Hin & Hsym & Hside & Hsize).
  destruct (closing_a_short_position_doubles_it
              (Sample.world (Some (ofZ 100)) true true Sample.noReply [])
              (Sample.running true [Sample.filled "o1" OrderSide.SELL 100 100] [])
              pos (Q2Qc (inject_Z 100)) (Some (ofZ 100)))
    as (s1 & after & Hrun & Hafter & _ & Hsd & Hsz);
    [reflexivity | exact Hin | exact Hside | exact Hsize | rewrite Hsym; reflexivity
    | intros; reflexivity | intros; reflexivity | reflexivity |].
  exists s1, after. rewrite Hsym in Hrun. auto.
Defined.

End ClosePositionFacts.

(** ** Emergency stop, settled *)

Section EmergencyStopSettled.
Import Execution Spec Frame.
Variable w : World.t.

(** *** Close-all never takes an order out of the pending-orders map *)

Lemma tracked_ret {A} (a : A) : keeps_tracked (ret a).
Proof. intros s H. exact H. Qed.

Lemma tracked_throw {A} (e : Err) : keeps_tracked (@throw A e).
Proof. intros s H. exact H. Qed.

Lemma tracked_gets {A} (f : State -> A) : keeps_tracked (gets f).
Proof. intros s H. exact H. Qed.

Lemma tracked_lift {A} (r : result A) : keeps_tracked (lift r).
Proof. intros s H. exact H. Qed.

Lemma tracked_tick : keeps_tracked tick.
Proof. intros s H. exact H. Qed.

Lemma tracked_modify (f : State -> State) :
  (forall s, pendingOrders s <> [] -> pendingOrders (f s) <> []) ->
  keeps_tracked (modify f).
Proof. intros Hf s H. exact (Hf s H). Qed.

Lemma tracked_bind_at {A B} (m : M A) (k : A -> M B) (s : State) :
  pendingOrders (snd (m s)) <> [] -> (forall a, keeps_tracked (k a)) ->
  pendingOrders (snd (bind m k s)) <> [].
Proof.
  intros Hm Hk. unfold bind. destruct (m s) as [[a|e] s1]; cbn in *.
  - apply Hk, Hm.
  - exact Hm.
Qed.

Lemma tracked_try_catch_at {A} (m : M A) (h : Err -> M A) (s : State) :
  pendingOrders (snd (m s)) <> [] -> (forall e, keeps_tracked (h e)) ->
  pendingOrders (snd (try_catch m h s)) <> [].
Proof.
  intros Hm Hh. unfold try_catch. destruct (m s) as [[a|e] s1]; cbn in *.
  - exact Hm.
  - apply Hh, Hm.
Qed.

Lemma tracked_bind {A B} (m : M A) (k : A -> M B) :
  keeps_tracked m -> (forall a, keeps_tracked (k a)) -> keeps_tracked (bind m k).
Proof. intros Hm Hk s H. apply tracked_bind_at; [apply Hm, H | exact Hk]. Qed.

Lemma tracked_try_catch {A} (m : M A) (h : Err -> M A) :
  keeps_tracked m -> (forall e, keeps_tracked (h e)) ->
  keeps_tracked (try_catch m h).
Proof. intros Hm Hh s H. apply tracked_try_catch_at; [apply Hm, H | exact Hh]. Qed.

Lemma tracked_ext {A} (f : nat -> result A) : keeps_tracked (ext f).
Proof.
  apply tracked_bind; [apply tracked_tick | intros t; apply tracked_lift].
Qed.

Lemma tracked_ext_total {A} (f : nat -> A) : keeps_tracked (ext_total f).
Proof.
  apply tracked_bind; [apply tracked_tick | intros t; apply tracked_ret].
Qed.

Lemma tracked_forM {A B} (l : list A) (f : A -> M B) :
  (forall a, keeps_tracked (f a)) -> keeps_tracked (forM l f).
Proof.
  intros Hf. induction l as [|a l IH]; cbn [forM].
  - apply tracked_ret.
  - apply tracked_bind; [apply Hf | intros b].
    apply tracked_bind; [exact IH | intros bs; apply tracked_ret].
Qed.

Lemma set_not_empty {V} (k : string) (v : V) (m : JsMap.t V) :
  JsMap.set k v m <> [].
Proof.
  destruct m as [|[k' x] m]; cbn; [discriminate|].
  destruct (decide (k = k')); discriminate.
Qed.

Ltac tracked_step :=
  first
    [ apply tracked_ret | apply tracked_throw | apply tracked_gets
    | apply tracked_lift | apply tracked_tick | apply tracked_ext
    | apply tracked_ext_total
    | apply tracked_bind; [|intros ?]
    | apply tracked_try_catch; [|intros ?]
    | apply tracked_forM; intros ?
    | apply tracked_modify; intros ? ?;
      first [ assumption | apply set_not_empty
            | match goal with
              | |- context [match ?x with _ => _ end] => destruct x; assumption
              end ]
    | match goal with
      | |- keeps_tracked (if ?b then _ else _) => destruct b
      | |- keeps_tracked (match ?x with _ => _ end) => destruct x
      end ].
Ltac tracked := repeat tracked_step.

Lemma tracked_createOrder p : keeps_tracked (createOrder w p).
Proof. unfold createOrder, simulateOrderExecution, publishOrderUpdate. tracked. Qed.

Lemma tracked_closePosition symbol : keeps_tracked (closePosition w symbol).
Proof.
  unfold closePosition, closeSimulatedPosition, getSimulatedPositions.
  repeat first [apply tracked_createOrder | tracked_step].
Qed.

(** *** Close-all in simulation tracks the closing orders it creates *)

Lemma createOrder_simulated_tracks (p : OrderParams.t) (s : State) :
  ExecutionConfig.simulationMode (config s) = true ->
  simulationAnswers w ->
  pendingOrders (snd (createOrder w p s)) <> [].
Proof.
  intros Hsim (Hget & Hset & Hdb).
  destruct (Hget (clock s) (OrderParams.symbol p)) as [marketData Hmd].
  unfold createOrder, simulateOrderExecution, try_catch, bind, gets, modify, ext,
    ext_total, tick, lift, ret, throw, publishOrderUpdate.
  cbn. rewrite Hsim. cbn. rewrite Hmd. cbn. rewrite Hset. cbn. rewrite Hdb. cbn.
  destruct (OrderParams.side p); cbn; apply set_not_empty.
Qed.

Lemma closePosition_simulated_tracks (s : State) (pos : Position.t) :
  ExecutionConfig.simulationMode (config s) = true ->
  pos ∈ openPositionsOf s ->
  simulationAnswers w ->
  pendingOrders (snd (closePosition w (Position.symbol pos) s)) <> [].
Proof.
  intros Hsim Hin Hw.
  destruct (open_position_lookup s pos Hin) as [Hlookup Hgt].
  destruct (replayOrders_invariant (JsMap.values (orderHistory s))) as [Hk _].
  pose proof (find_open_position _ _ _ Hk Hlookup Hgt) as Hfind.
  unfold closePosition. apply tracked_try_catch_at; [|intros e; apply tracked_ret].
  unfold bind at 1. unfold gets at 1. rewrite Hsim.
  unfold closeSimulatedPosition, getSimulatedPositions.
  unfold bind at 1. unfold gets at 1. rewrite Hfind.
  apply tracked_bind_at; [|intros _; apply tracked_ret].
  apply createOrder_simulated_tracks; assumption.
Qed.

Lemma closeAllPositions_simulated_tracks (s : State) :
  ExecutionConfig.simulationMode (config s) = true ->
  openPositionsOf s <> [] ->
  simulationAnswers w ->
  pendingOrders (snd (closeAllPositions w s)) <> [].
Proof.
  intros Hsim Hopen Hw. unfold closeAllPositions.
  apply tracked_try_catch_at; [|intros e; apply tracked_ret].
  unfold getPositions. unfold bind at 1. unfold bind at 1. unfold gets at 1.
  rewrite Hsim. unfold getSimulatedPositions, gets.
  fold (openPositionsOf s).
  destruct (openPositionsOf s) as [|pos rest] eqn:Hpositions; [congruence|].
  apply tracked_bind_at; [|intros results; apply tracked_ret].
  cbn [forM].
  apply tracked_bind_at.
  - apply closePosition_simulated_tracks; [exact Hsim | | exact Hw].
    rewrite Hpositions. left.
  - intros b. apply tracked_bind; [|intros bs; apply tracked_ret].
    apply tracked_forM. intros position. apply tracked_closePosition.
Qed.

(** *** Close-all in live mode leaves the pending-orders map alone *)

Lemma closePosition_live (symbol : string) (s : State) :
  ExecutionConfig.simulationMode (config s) = false ->
  exists closed, closePosition w symbol s = (Ok closed, with_clock (S (clock s)) s).
Proof.
  intros Hsim. unfold closePosition, try_catch, ext, bind, gets, tick, lift, ret.
  rewrite Hsim.
  destruct (World.binance_closePosition w (clock s) symbol) as [closed|e];
    eexists; reflexivity.
Qed.

Lemma closePositions_live (positions : list Position.t) (s : State) :
  ExecutionConfig.simulationMode (config s) = false ->
  exists results t,
    forM positions (fun position => closePosition w (Position.symbol position)) s
    = (Ok results, with_clock t s).
Proof.
  intros Hsim. revert s Hsim.
  induction positions as [|position positions IH]; intros s Hsim; cbn [forM].
  - exists [], (clock s). destruct s; reflexivity.
  - destruct (closePosition_live (Position.symbol position) s Hsim) as [closed Hc].
    destruct (IH (with_clock (S (clock s)) s) Hsim) as (results & t & Hrest).
    exists (closed :: results), t.
    unfold bind at 1. rewrite Hc. unfold bind at 1. rewrite Hrest. reflexivity.
Qed.

Lemma closeAllPositions_live (s : State) :
  ExecutionConfig.simulationMode (config s) = false ->
  pendingOrders (snd (closeAllPositions w s)) = pendingOrders s.
Proof.
  intros Hsim. unfold closeAllPositions, getPositions, try_catch.
  unfold bind at 1. unfold bind at 1. unfold gets at 1. rewrite Hsim.
  unfold ext. unfold bind at 1. unfold tick, lift.
  destruct (World.binance_getFuturesPositions w (clock s)) as [positions|e];
    [|reflexivity].
  destruct (closePositions_live positions (with_clock (S (clock s)) s) Hsim)
    as (results & t & Hrun).
  unfold bind at 1. rewrite Hrun. reflexivity.
Qed.

(** C2, amended. Emergency stop runs to completion and halts the monitoring
    loop: no interval stays armed, so no scheduled run does anything.  When
    every tracked order is in the order history and the collaborator accepts
    every cancellation, the pending-orders map ends empty in live mode,
    whatever positions are open; in simulation it ends empty when no
    simulated position is open once the tracked orders are cancelled, and
    holds the closing orders when one is and Redis and the database answer. *)
Theorem emergency_stop_halts_monitoring (s : State) :
  timersConsistent s = true ->
  let s' := snd (emergencyStop w s) in
  fst (emergencyStop w s) = Ok tt
  /\ halted s'
  /\ (forall handle, scheduledRun w handle s' = (Ok tt, s'))
  /\ (trackedOrdersKnown s -> cancellationsAccepted w s ->
      if ExecutionConfig.simulationMode (config s)
      then (positionsAfterCancel s = [] -> pendingOrders s' = [])
           /\ (positionsAfterCancel s <> [] -> simulationAnswers w ->
               pendingOrders s' <> [])
      else pendingOrders s' = []).
Proof.
  intros Hinv. cbv zeta.
  destruct (cancelAllPending_never_throws w s) as [a Ha].
  destruct (closeAllPositions_never_throws w (snd (cancelAllPending w s))) as [b Hb].
  unfold emergencyStop.
  rewrite (seq_ok _ _ _ _ Ha), (seq_ok _ _ _ _ Hb).
  set (s1 := snd (cancelAllPending w s)) in *.
  set (s2 := snd (closeAllPositions w s1)) in *.
  assert (Hc2 : Frame.control s2 = Frame.control s).
  { unfold s2. rewrite keeps_closeAllPositions. unfold s1.
    apply keeps_cancelAllPending. }
  assert (Hinv2 : timersConsistent s2 = true).
  { rewrite (timersConsistent_control _ _ Hc2). exact Hinv. }
  destruct (stopOrderExecution_halts s2 Hinv2) as (Hok & Hhalt & Hpend).
  split; [exact Hok|]. split; [exact Hhalt|]. split.
  - intros handle. destruct Hhalt as (_ & _ & Ht).
    apply scheduledRun_unarmed. exact Ht.
  - intros Hknown Hacc. rewrite Hpend.
    destruct (cancelAllPending_empties w s Hknown Hacc) as (Hp1 & Hh1 & Hc1).
    fold s1 in Hp1, Hh1, Hc1.
    destruct (ExecutionConfig.simulationMode (config s)) eqn:Hsim.
    + split.
      * intros Hnone. unfold s2. rewrite closeAllPositions_nothing; [exact Hp1|].
        rewrite Hc1, Hsim, Hh1. exact Hnone.
      * intros Hsome Hw. unfold s2. apply closeAllPositions_simulated_tracks.
        -- rewrite Hc1. exact Hsim.
        -- unfold openPositionsOf. rewrite Hh1. exact Hsome.
        -- exact Hw.
    + unfold s2. rewrite closeAllPositions_live; [exact Hp1|].
      rewrite Hc1. exact Hsim.
Qed.

End EmergencyStopSettled.

(** In live mode, with one resting order tracked and a position held at the
    exchange, the map ends empty; so it does in a simulation that tracks its
    one filled order, which leaves no position once it is cancelled. *)
Lemma emergency_stop_halts_monitoring_witness :
  (let w := Sample.world (Some (ofZ 100)) true true Sample.noReply
              [Sample.btcPosition 9000] in
   let s := Sample.running false [Sample.resting "o1"] [Sample.resting "o1"] in
   JsMap.keys (Execution.pendingOrders s) = ["o1"]
   /\ Spec.halted (snd (Execution.emergencyStop w s))
   /\ Execution.pendingOrders (snd (Execution.emergencyStop w s)) = [])
  /\ (let w := Sample.world (Some (ofZ 100)) true true Sample.noReply [] in
      let s := Sample.running true [Sample.filled "o1" OrderSide.BUY 2 100]
                                   [Sample.filled "o1" OrderSide.BUY 2 100] in
      JsMap.keys (Execution.pendingOrders s) = ["o1"]
      /\ Execution.pendingOrders (snd (Execution.emergencyStop w s)) = []).
Proof.
  cbv zeta. split.
  - pose proof (emergency_stop_halts_monitoring
                  (Sample.world (Some (ofZ 100)) true true Sample.noReply
                     [Sample.btcPosition 9000])
                  (Sample.running false [Sample.resting "o1"] [Sample.resting "o1"])
                  eq_refl) as (_ & Hhalt & _ & Hempty).
    split; [reflexivity|]. split; [exact Hhalt|].
    apply Hempty.
    + intros id Hid. apply list_elem_of_singleton in Hid as ->.
      vm_compute. eauto.
    + intros t id symbol. reflexivity.
  - pose proof (emergency_stop_halts_monitoring
                  (Sample.world (Some (ofZ 100)) true true Sample.noReply [])
                  (Sample.running true [Sample.filled "o1" OrderSide.BUY 2 100]
                                       [Sample.filled "o1" OrderSide.BUY 2 100])
                  eq_refl) as (_ & _ & _ & Hempty).
    split; [reflexivity|].
    apply Hempty.
    + intros id Hid. apply list_elem_of_singleton in Hid as ->.
      vm_compute. eauto.
    + intros t o. reflexivity.
    + vm_compute. reflexivity.
Defined.

(** ** Balance history and drawdown *)

Section DrawdownFacts.
Import RiskEngine.

(** X18. The balance history is a window of at most 100 samples: a new
    sample is appended, and the oldest one is dropped when the window was
    full. *)
Theorem balance_history_is_a_bounded_window (sample : num) (history : list num) :
  (length history <= 100)%nat ->
  (length (updateBalanceHistory sample history) <= 100)%nat
  /\ last (updateBalanceHistory sample history) = Some sample
  /\ ((length history < 100)%nat ->
      updateBalanceHistory sample history = history ++ [sample])
  /\ (length history = 100%nat ->
      updateBalanceHistory sample history = tail history ++ [sample]).
Proof.
  intros Hlen. unfold updateBalanceHistory.
  assert (Hpushed : length (history ++ [sample]) = S (length history)).
  { rewrite length_app. cbn. lia. }
  destruct (decide (100 < length (history ++ [sample]))%nat) as [Hfull|Hroom].
  - assert (Hl : length history = 100%nat) by lia.
    destruct history as [|first rest]; [discriminate|]. cbn [tail app].
    split; [rewrite length_app; cbn in *; lia|].
    split; [apply last_snoc|]. split; [lia | reflexivity].
  - split; [lia|].
    split; [apply last_snoc|]. split; [reflexivity | lia].
Qed.

Lemma balance_history_window_witness :
  updateBalanceHistory (ofZ 3) [ofZ 1; ofZ 2] = [ofZ 1; ofZ 2] ++ [ofZ 3].
Proof.
  apply (balance_history_is_a_bounded_window (ofZ 3) [ofZ 1; ofZ 2]); cbn; lia.
Defined.

Lemma gt_keeps_nonneg (d m : num) :
  gt d m = true -> ge m (ofZ 0) = true -> ge d (ofZ 0) = true.
Proof.
  unfold ofZ. destruct d as [a| | |], m as [b| | |]; try discriminate; try reflexivity.
  rewrite gt_Fin, !ge_Fin. intros Hlt Hle.
  apply Qclt_le_weak. eapply Qcle_lt_trans; eassumption.
Qed.

(** X19. The maximum drawdown is never negative and never NaN, whatever the
    samples are (zero, negative or NaN balances included); with fewer than two
    samples it is 0. *)
Theorem max_drawdown_is_never_negative (history : list num) :
  ge (calculateMaxDrawdown history) (ofZ 0) = true
  /\ ((length history < 2)%nat -> calculateMaxDrawdown history = ofZ 0).
Proof.
  unfold calculateMaxDrawdown.
  destruct (decide (length history < 2)%nat) as [Hshort|Hlong].
  - split; [reflexivity | intros _; reflexivity].
  - split; [|lia].
    assert (H : forall acc : num * num,
               ge (snd acc) (ofZ 0) = true ->
               ge (snd (fold_left
                          (fun '(peak, maxDD) balance =>
                             let peak := if gt balance peak then balance else peak in
                             let drawdown := ((peak - balance) / peak * ofZ 100)%num in
                             (peak, if gt drawdown maxDD then drawdown else maxDD))
                          history acc)) (ofZ 0) = true).
    { clear. induction history as [|balance history IH]; intros [peak maxDD] Hacc;
        cbn [fold_left]; [exact Hacc|].
      apply IH. cbn [snd] in *.
      destruct (gt _ maxDD) eqn:Hgt; [|exact Hacc].
      exact (gt_keeps_nonneg _ _ Hgt Hacc). }
    apply H. reflexivity.
Qed.

(** A fall from 100 to 80 and back to 90 is a drawdown of 20%. *)
Example max_drawdown_example :
  calculateMaxDrawdown [ofZ 100; ofZ 80; ofZ 90] = ofZ 20.
Proof. num_compute. Qed.

Lemma drawdown_step_at_peak (peak balance : Qc) :
  0 < peak -> peak <= balance ->
  let peak' := if gt (Fin balance) (Fin peak) then Fin balance else Fin peak in
  peak' = Fin balance
  /\ ((peak' - Fin balance) / peak' * ofZ 100)%num = Fin 0.
Proof.
  intros Hpos Hle. cbv zeta.
  assert (Hb : 0 < balance) by (eapply Qclt_le_trans; eassumption).
  assert (Hnz : balance <> 0).
  { intros ->. exact (Qclt_not_eq _ _ Hb eq_refl). }
  assert (Hpeak : (if gt (Fin balance) (Fin peak) then Fin balance else Fin peak)
                  = Fin balance).
  { destruct (gt (Fin balance) (Fin peak)) eqn:Hgt; [reflexivity|].
    apply gt_Fin_false in Hgt. f_equal. apply Qcle_antisym; assumption. }
  rewrite Hpeak. split; [reflexivity|].
  change (Fin balance - Fin balance)%num with (Fin (balance + - balance)).
  rewrite (div_Fin _ _ Hnz). cbn. f_equal. field. exact Hnz.
Qed.

(** X20. While the balance never falls there is no drawdown: for a history
    of positive samples in non-decreasing order the maximum drawdown is 0. *)
Theorem no_drawdown_while_balance_never_falls (samples : list Qc) :
  Forall (fun q => 0 < q) samples ->
  Sorted Qcle samples ->
  calculateMaxDrawdown (map Fin samples) = ofZ 0.
Proof.
  intros Hpos Hsorted. unfold calculateMaxDrawdown.
  destruct (decide (length (map Fin samples) < 2)%nat) as [_|_]; [reflexivity|].
  destruct samples as [|first rest]; [reflexivity|].
  cbn [map hd].
  assert (H : forall (l : list Qc) (peak : Qc),
             0 < peak -> Sorted Qcle l -> HdRel Qcle peak l ->
             snd (fold_left
                    (fun '(peak, maxDD) balance =>
                       let peak := if gt balance peak then balance else peak in
                       let drawdown := ((peak - balance) / peak * ofZ 100)%num in
                       (peak, if gt drawdown maxDD then drawdown else maxDD))
                    (map Fin l) (Fin peak, ofZ 0)) = ofZ 0).
  { clear. induction l as [|balance l IH]; intros peak Hpeak Hs Hhd;
      cbn [map fold_left]; [reflexivity|].
    apply HdRel_inv in Hhd. apply Sorted_inv in Hs as [Hs Hhd'].
    destruct (drawdown_step_at_peak peak balance Hpeak Hhd) as [Hp Hd].
    cbv zeta in Hp, Hd. rewrite Hd, Hp.
    replace (gt (Fin 0) (ofZ 0)) with false by reflexivity.
    apply IH; [|exact Hs | exact Hhd'].
    eapply Qclt_le_trans; eassumption. }
  apply (H (first :: rest) first).
  - apply Forall_cons in Hpos as [Hf _]. exact Hf.
  - exact Hsorted.
  - constructor. apply Qcle_refl.
Qed.

Lemma no_drawdown_witness :
  calculateMaxDrawdown (map Fin [Q2Qc (inject_Z 100); Q2Qc (inject_Z 110)]) = ofZ 0.
Proof.
  apply no_drawdown_while_balance_never_falls.
  - repeat constructor.
  - repeat constructor. apply Qcle_alt. vm_compute. discriminate.
Defined.

End DrawdownFacts.

(** ** Admission check, continued *)

Section AdmissionFacts2.
Import RiskEngine.

(** X21. An assessment is allowed exactly when it carries no rejection
    reason; a rejection may carry one reason or several. *)
Theorem assessment_allowed_iff_no_reason (st : State) (positionData : PositionData.t) :
  RiskAssessment.isAllowed (validatePosition st positionData) = true
  <-> RiskAssessment.reasons (validatePosition st positionData) = [].
Proof.
  unfold validatePosition.
  destruct (negb _); cbn; [split; discriminate|].
  destruct (gt (PositionData.leverage positionData) _);
    destruct (gt (_ / _ * _)%num _); cbn; split; try discriminate; reflexivity.
Qed.

End AdmissionFacts2.

(** ** Position sizing, continued *)

Section SizingBounds.
Import RiskEngine.

Lemma Qc_of_Z_le (a b : Z) : (a <= b)%Z -> Q2Qc (inject_Z a) <= Q2Qc (inject_Z b).
Proof.
  intros H. unfold Qcle.
  change (Qred (inject_Z a) <= Qred (inject_Z b))%Q.
  rewrite !Qred_correct, <- Zle_Qle. exact H.
Qed.

Lemma ceil_of_positive (q : Qc) : 0 < q -> le (ofZ 1) (ceil (Fin q)) = true.
Proof.
  intros Hq. unfold ceil, ofZ. apply le_Fin. apply Qc_of_Z_le.
  assert (H : (0 < Qceiling q)%Z).
  { apply Qlt_not_le in Hq. destruct (Z_lt_le_dec 0 (Qceiling q)) as [Hz|Hz];
      [exact Hz|].
    exfalso. apply Hq. eapply Qle_trans; [apply Qle_ceiling|].
    change (inject_Z (Qceiling q) <= inject_Z 0)%Q. rewrite <- Zle_Qle. exact Hz. }
  lia.
Qed.

Lemma min_bounds (x y : num) :
  le (ofZ 1) x = true -> le (ofZ 1) y = true ->
  le (ofZ 1) (min x y) = true /\ le (min x y) y = true.
Proof.
  intros Hx Hy. unfold min.
  destruct x as [a| | |], y as [b| | |]; try discriminate; cbn [compare];
    try (split; [assumption | reflexivity]).
  - destruct (a ?= b) eqn:E; (split; [assumption|]); apply le_Fin.
    + apply Qceq_alt in E. subst. apply Qcle_refl.
    + apply Qclt_le_weak, Qclt_alt, E.
    + apply Qcle_refl.
  - split; [assumption | apply le_Fin, Qcle_refl].
Qed.

(** X23. For a confidence in [0, 100], a default leverage of at least 1 and
    a maximum leverage of at least 1, the proposed leverage is at least 1 and
    at most the maximum leverage. *)
Theorem proposed_leverage_is_bounded
    (cfg : Config.t) (st : State) (signal : Signal.t) (currentPrice : num)
    (m : RiskMetrics.t) (confidence default maxLeverage : Qc) :
  currentRiskMetrics st = Some m ->
  Signal.confidence signal = Fin confidence ->
  0 <= confidence -> confidence <= Q2Qc (inject_Z 100) ->
  Config.DEFAULT_LEVERAGE cfg = Fin default -> 1 <= default ->
  RiskLimits.maxLeverage (riskLimits st) = Fin maxLeverage -> 1 <= maxLeverage ->
  exists proposal,
    calculateOptimalPositionSize cfg st signal currentPrice = inr proposal
    /\ le (ofZ 1) (PositionSize.leverage proposal) = true
    /\ le (PositionSize.leverage proposal) (Fin maxLeverage) = true.
Proof.
  intros Hm Hc Hc0 Hc100 Hd Hd1 Hmax Hmax1.
  unfold calculateOptimalPositionSize. rewrite Hm, Hc, Hd, Hmax.
  eexists. split; [reflexivity|]. cbn [PositionSize.leverage].
  assert (Hscaled : exists q, 0 < q /\
            (Fin default * (ofZ 1 + (Fin confidence - ofZ 50) / ofZ 100))%num = Fin q).
  { unfold ofZ. change (Fin confidence - Fin ?x)%num with (Fin (confidence + - x)).
    rewrite (div_Fin _ _ ofZ_100_nonzero).
    eexists. split; [|reflexivity].
    apply Qcmult_pos_pos.
    - eapply Qclt_le_trans; [|exact Hd1]. apply Qclt_alt. reflexivity.
    - set (h := Q2Qc (inject_Z 100)) in *. set (f := Q2Qc (inject_Z 50)).
      assert (Hh : 0 < / h) by (apply Qcinv_pos, Qc_pos_100).
      assert (Hge : - f / h <= (confidence + - f) / h).
      { unfold Qcdiv. apply Qcmult_le_mono_nonneg_r; [apply Qclt_le_weak, Hh|].
        rewrite <- (Qcplus_0_l (- f)) at 1. apply Qcplus_le_mono_r. exact Hc0. }
      eapply Qclt_le_trans; [|apply Qcplus_le_mono_l; exact Hge].
      apply Qclt_alt. reflexivity. }
  destruct Hscaled as (q & Hq & ->).
  apply min_bounds.
  - apply ceil_of_positive, Hq.
  - apply le_Fin. exact Hmax1.
Qed.

Lemma proposed_leverage_witness :
  exists proposal,
    calculateOptimalPositionSize Sample.cfg Sample.riskOpen
      (Sample.signal Action.BUY 0 "momentum") (ofZ 50000) = inr proposal
    /\ le (ofZ 1) (PositionSize.leverage proposal) = true
    /\ le (PositionSize.leverage proposal) (ofZ 10) = true.
Proof.
  apply (proposed_leverage_is_bounded Sample.cfg Sample.riskOpen
           (Sample.signal Action.BUY 0 "momentum") (ofZ 50000)
           (Sample.metrics RiskLevel.LOW true)
           (Q2Qc (inject_Z 0)) (Q2Qc (inject_Z 5)) (Q2Qc (inject_Z 10)));
    try reflexivity; apply Qcle_alt; vm_compute; discriminate.
Defined.

Lemma abs_Fin_nonneg (x : Qc) : exists d, abs (Fin x) = Fin d /\ 0 <= d.
Proof.
  unfold abs, Qcltb. destruct (x ?= 0) eqn:E.
  - exists x. split; [reflexivity|]. apply Qceq_alt in E. subst. apply Qcle_refl.
  - exists (- x). split; [reflexivity|]. apply Qclt_alt in E.
    apply (Qcplus_le_mono_r _ _ x). rewrite Qcplus_0_l.
    replace (- x + x) with 0 by ring. apply Qclt_le_weak, E.
  - exists x. split; [reflexivity|]. apply Qclt_le_weak.
    rewrite Qclt_alt, (Qccompare_antisym x 0), E. reflexivity.
Qed.

(** X25. The proposed stop-loss lies on the losing side of the price: at or
    below a price that is not negative for a BUY, at or above it for any
    other action, whether the distance comes from the stop-loss of the signal
    or is the default 2% of the price. *)
Theorem proposed_stop_loss_is_on_the_losing_side
    (cfg : Config.t) (st : State) (signal : Signal.t) (m : RiskMetrics.t)
    (price : Qc) :
  currentRiskMetrics st = Some m ->
  0 <= price ->
  (forall stop, Signal.stopLoss signal = Some stop -> exists q, stop = Fin q) ->
  exists proposal,
    calculateOptimalPositionSize cfg st signal (Fin price) = inr proposal
    /\ (if decide (Signal.action signal = Action.BUY)
        then le (PositionSize.stopLoss proposal) (Fin price) = true
        else ge (PositionSize.stopLoss proposal) (Fin price) = true).
Proof.
  intros Hm Hp Hstop. unfold calculateOptimalPositionSize. rewrite Hm.
  eexists. split; [reflexivity|]. cbn [PositionSize.stopLoss].
  assert (Hd : exists d, 0 <= d /\
             (if otruthy (Signal.stopLoss signal)
              then abs (Fin price - to_num (Signal.stopLoss signal))%num
              else (Fin price * frac 2 100)%num) = Fin d).
  { destruct (Signal.stopLoss signal) as [stop|] eqn:Hs.
    - destruct (Hstop stop eq_refl) as [q ->]. cbn [otruthy to_num].
      destruct (truthy (Fin q)).
      + change (Fin price - Fin q)%num with (Fin (price + - q)).
        destruct (abs_Fin_nonneg (price + - q)) as (d & -> & Hd). eauto.
      + eexists. split; [|reflexivity].
        apply Qcmult_nonneg_nonneg; [exact Hp|]. apply Qcle_alt. vm_compute. discriminate.
    - cbn [otruthy]. eexists. split; [|reflexivity].
      apply Qcmult_nonneg_nonneg; [exact Hp|]. apply Qcle_alt. vm_compute. discriminate. }
  destruct Hd as (d & Hd & ->).
  destruct (decide (Signal.action signal = Action.BUY)).
  - change (Fin price - Fin d)%num with (Fin (price + - d)). apply le_Fin.
    rewrite <- (Qcplus_0_r price) at 2. apply Qcplus_le_mono_l.
    apply (Qcplus_le_mono_r _ _ d). rewrite Qcplus_0_l.
    replace (- d + d) with 0 by ring. exact Hd.
  - change (Fin price + Fin d)%num with (Fin (price + d)). apply ge_Fin.
    rewrite <- (Qcplus_0_r price) at 1. apply Qcplus_le_mono_l. exact Hd.
Qed.

Lemma proposed_stop_loss_witness :
  exists proposal,
    calculateOptimalPositionSize Sample.cfg Sample.riskOpen
      (Sample.signal Action.SELL 80 "momentum") (ofZ 50000) = inr proposal
    /\ ge (PositionSize.stopLoss proposal) (ofZ 50000) = true.
Proof.
  apply (proposed_stop_loss_is_on_the_losing_side Sample.cfg Sample.riskOpen
           (Sample.signal Action.SELL 80 "momentum")
           (Sample.metrics RiskLevel.LOW true) (Q2Qc (inject_Z 50000)));
    [reflexivity | apply Qcle_alt; vm_compute; discriminate
    | intros stop Hs; discriminate].
Defined.

End SizingBounds.

(** ** Aggregation: grouping and the choice of the best action *)

Section GroupingFacts.
Import StrategyEngine Spec.

Lemma lookup_group_push {a b : Action.t} (s : Signal.t) (groups : Groups) :
  lookup_action a (group_push b s groups)
  = if decide (a = b) then Some (default [] (lookup_action a groups) ++ [s])
    else lookup_action a groups.
Proof.
  induction groups as [|[a' ss] groups IH]; cbn.
  - destruct (decide (a = b)); reflexivity.
  - destruct (decide (b = a')) as [->|Hb]; cbn.
    + destruct (decide (a = a')); reflexivity.
    + destruct (decide (a = a')) as [->|Ha].
      * destruct (decide (a' = b)); [congruence | reflexivity].
      * exact IH.
Qed.

Lemma lookup_fold_group_push (a : Action.t) (signals : list Signal.t)
    (groups : Groups) :
  lookup_action a
    (fold_left (fun groups s => group_push (Signal.action s) s groups)
               signals groups)
  = match filter (fun s => Signal.action s = a) signals with
    | [] => lookup_action a groups
    | l => Some (default [] (lookup_action a groups) ++ l)
    end.
Proof.
  revert groups. induction signals as [|s signals IH]; intros groups;
    cbn [fold_left]; [reflexivity|].
  rewrite IH, lookup_group_push, filter_cons.
  destruct (decide (Signal.action s = a)) as [Hs|Hs].
  - destruct (decide (a = Signal.action s)); [|congruence].
    destruct (filter _ signals); [reflexivity|].
    cbn [default from_option id]. rewrite <- app_assoc. reflexivity.
  - destruct (decide (a = Signal.action s)); [congruence|]. reflexivity.
Qed.

(** The group of an action is the list of the signals that propose it, in
    the order of the input. *)
Lemma lookup_groupSignals (a : Action.t) (signals : list Signal.t) :
  lookup_action a (groupSignals signals)
  = match filter (fun s => Signal.action s = a) signals with
    | [] => None
    | l => Some l
    end.
Proof. unfold groupSignals. rewrite lookup_fold_group_push. reflexivity. Qed.

Lemma lookup_action_keys {V} (a : Action.t) (m : list (Action.t * V)) :
  a ∈ map fst m -> exists v, lookup_action a m = Some v.
Proof.
  induction m as [|[a' v] m IH]; cbn.
  - intros H. apply elem_of_nil in H. contradiction.
  - intros H. destruct (decide (a = a')); [eauto|].
    apply elem_of_cons in H as [->|H]; [congruence | exact (IH H)].
Qed.

Lemma lookup_action_Some_keys {V} (a : Action.t) (m : list (Action.t * V)) v :
  lookup_action a m = Some v -> a ∈ map fst m.
Proof.
  induction m as [|[a' v'] m IH]; cbn; [discriminate|].
  destruct (decide (a = a')) as [->|]; [intros _; left | intros H; right; exact (IH H)].
Qed.

Lemma keys_actionScores configs (groups : Groups) :
  map fst (actionScores configs groups) = map fst groups.
Proof. unfold actionScores. rewrite map_map. reflexivity. Qed.

Lemma lookup_actionScores configs (a : Action.t) (groups : Groups) :
  lookup_action a (actionScores configs groups)
  = actionScore configs <$> lookup_action a groups.
Proof.
  induction groups as [|[a' ss] groups IH]; cbn; [reflexivity|].
  destruct (decide (a = a')); [reflexivity | exact IH].
Qed.

Lemma filter_action_nonempty (s : Signal.t) (signals : list Signal.t) :
  s ∈ signals ->
  filter (fun s' => Signal.action s' = Signal.action s) signals <> [].
Proof.
  intros Hin Hnil.
  assert (H : s ∈ filter (fun s' => Signal.action s' = Signal.action s) signals)
    by (apply list_elem_of_filter; split; [reflexivity | exact Hin]).
  rewrite Hnil in H. apply elem_of_nil in H. exact H.
Qed.

(** The score recorded for an action that some signal proposes is the
    weighted sum over the signals that propose it. *)
Lemma scoreOf_proposed configs (s : Signal.t) (signals : list Signal.t) :
  s ∈ signals ->
  scoreOf (actionScores configs (groupSignals signals)) (Signal.action s)
  = actionScore configs
      (filter (fun s' => Signal.action s' = Signal.action s) signals).
Proof.
  intros Hin. unfold scoreOf.
  rewrite lookup_actionScores, lookup_groupSignals.
  pose proof (filter_action_nonempty s signals Hin) as Hne.
  destruct (filter _ signals); [congruence | reflexivity].
Qed.

Lemma bestAction_proposed configs (s0 : Signal.t) (rest : list Signal.t) :
  filter (fun s => Signal.action s = bestAction configs (s0 :: rest)) (s0 :: rest)
  <> []
  /\ lookup_action (bestAction configs (s0 :: rest)) (groupSignals (s0 :: rest))
     = Some (filter (fun s => Signal.action s = bestAction configs (s0 :: rest))
                    (s0 :: rest)).
Proof.
  assert (Hin : bestAction configs (s0 :: rest)
                ∈ map fst (groupSignals (s0 :: rest))).
  { rewrite <- (keys_actionScores configs). unfold bestAction.
    apply bestActionOf_in. unfold actionScores. intros H.
    apply map_eq_nil in H. exact (groupSignals_nonempty _ _ H). }
  apply lookup_action_keys in Hin as [l Hl].
  pose proof Hl as Hl'. rewrite lookup_groupSignals in Hl'.
  destruct (filter _ (s0 :: rest)) eqn:Hf; [discriminate|].
  split; [discriminate|]. rewrite Hl. symmetry. exact Hl'.
Qed.

(** *** The range of the confidence, continued *)











(** X26. A resolved signal is built from exactly the input signals that
    propose its action, in input order: there is at least one, the target
    price and the stop-loss are the averages over them, the reasoning names
    them, and the signal carries the symbol asked for, the strategy
    "aggregated" and no take-profit. *)
Theorem resolved_signal_is_built_from_agreeing_signals
    (configs : JsMap.t StrategyConfig.t) (now : nat -> Z) (symbol : string)
    (signals : list Signal.t) (r : Signal.t) :
  SignalAggregation.aggregatedSignal (aggregateSignals configs now symbol signals)
  = Some r ->
  let agreeing := filter (fun s => Signal.action s = Signal.action r) signals in
  agreeing <> []
  /\ Signal.symbol r = symbol
  /\ Signal.strategy r = "aggregated"
  /\ Signal.targetPrice r = averageOf Signal.targetPrice agreeing
  /\ Signal.stopLoss r = averageOf Signal.stopLoss agreeing
  /\ Signal.takeProfit r = None
  /\ Signal.reasoning r = reasoningOf agreeing.
Proof.
  destruct signals as [|s0 rest]; [discriminate|].
  rewrite aggregate_nonempty. cbn [SignalAggregation.aggregatedSignal].
  cbv zeta.
  destruct (bestAction_proposed configs s0 rest) as [Hne Hl].
  destruct (_ && _); [|discriminate].
  intros [= <-]. cbn [Signal.action Signal.symbol Signal.strategy
                      Signal.targetPrice Signal.stopLoss Signal.takeProfit
                      Signal.reasoning].
  rewrite Hl. cbn [default]. repeat split; try reflexivity. exact Hne.
Qed.

Lemma resolved_signal_witness :
  exists r,
    SignalAggregation.aggregatedSignal
      (aggregateSignals Sample.defaultConfigs Sample.noClock "BTCUSDT"
         [Sample.signal Action.BUY 80 "momentum";
          Sample.signal Action.SELL 70 "funding-arbitrage";
          Sample.signal Action.BUY 75 "mean-reversion"]) = Some r
    /\ Signal.reasoning r
       = "Aggregated from 2 strategies: momentum, mean-reversion".
Proof.
  eexists. split; [reflexivity|].
  destruct (resolved_signal_is_built_from_agreeing_signals
              Sample.defaultConfigs Sample.noClock "BTCUSDT"
              [Sample.signal Action.BUY 80 "momentum";
               Sample.signal Action.SELL 70 "funding-arbitrage";
               Sample.signal Action.BUY 75 "mean-reversion"] _ eq_refl)
    as (_ & _ & _ & _ & _ & _ & ->).
  reflexivity.
Defined.

Lemma le_trans_Fin (x : num) (p : Qc) (z : num) :
  le x (Fin p) = true -> le (Fin p) z = true -> le x z = true.
Proof.
  destruct x as [q| | |], z as [r| | |]; try discriminate; try reflexivity.
  rewrite !le_Fin. apply Qcle_trans.
Qed.

(** The reduction returns a key whose score no key exceeds, when the
    scores of all keys are finite. *)
Lemma fold_best_is_maximal (f : Action.t -> num) (l : list Action.t)
    (acc : Action.t) :
  (forall x, x ∈ acc :: l -> exists q, f x = Fin q) ->
  forall x, x ∈ acc :: l ->
    le (f x) (f (fold_left (fun a b => if gt (f a) (f b) then a else b) l acc))
    = true.
Proof.
  revert acc. induction l as [|b l IH]; intros acc Hfin x Hx; cbn [fold_left].
  - apply list_elem_of_singleton in Hx as ->.
    destruct (Hfin acc) as [q ->]; [left|]. apply le_Fin, Qcle_refl.
  - set (acc' := if gt (f acc) (f b) then acc else b).
    assert (Hacc' : acc' ∈ acc :: b :: l).
    { unfold acc'. destruct (gt _ _); [left | right; left]. }
    assert (Hfin' : forall y, y ∈ acc' :: l -> exists q, f y = Fin q).
    { intros y Hy. apply Hfin. apply elem_of_cons in Hy as [->|Hy];
        [exact Hacc' | right; right; exact Hy]. }
    assert (Hstep : forall y, y = acc \/ y = b -> le (f y) (f acc') = true).
    { destruct (Hfin acc) as [p Hp]; [left|].
      destruct (Hfin b) as [q Hq]; [right; left|].
      unfold acc'. rewrite Hp, Hq.
      destruct (gt (Fin p) (Fin q)) eqn:Hgt.
      - apply gt_Fin in Hgt. intros y [->| ->].
        + rewrite Hp. apply le_Fin, Qcle_refl.
        + rewrite Hq, Hp. apply le_Fin, Qclt_le_weak, Hgt.
      - apply gt_Fin_false in Hgt. intros y [->| ->].
        + rewrite Hp, Hq. apply le_Fin, Hgt.
        + rewrite Hq. apply le_Fin, Qcle_refl. }
    assert (Htrans : forall y, le (f y) (f acc') = true ->
              le (f y)
                 (f (fold_left (fun a b => if gt (f a) (f b) then a else b) l acc'))
              = true).
    { intros y Hy. pose proof (IH acc' Hfin' acc' ltac:(left)) as Hbest.
      destruct (Hfin' acc') as [p Hp]; [left|]. rewrite Hp in *.
      exact (le_trans_Fin _ _ _ Hy Hbest). }
    apply elem_of_cons in Hx as [->|Hx]; [apply Htrans, Hstep; left; reflexivity|].
    apply elem_of_cons in Hx as [->|Hx]; [apply Htrans, Hstep; right; reflexivity|].
    apply IH; [exact Hfin' | right; exact Hx].
Qed.

(** X27. With confidences in [0, 100] and weights in [0, 1], the best
    action has the highest score: for every input signal, the weighted sum
    over the signals that propose its action is at most the score of the
    best action. *)
Theorem best_action_has_the_highest_score
    (configs : JsMap.t StrategyConfig.t) (signals : list Signal.t)
    (s : Signal.t) :
  weightsInRange configs -> signalsInRange signals -> s ∈ signals ->
  le (actionScore configs
        (filter (fun s' => Signal.action s' = Signal.action s) signals))
     (bestScore configs signals) = true.
Proof.
  intros Hw Hs Hin. rewrite <- (scoreOf_proposed configs s signals Hin).
  unfold bestScore, bestAction.
  set (scores := actionScores configs (groupSignals signals)).
  assert (Hkey : Signal.action s ∈ map fst scores).
  { unfold scores. rewrite keys_actionScores.
    pose proof (filter_action_nonempty s signals Hin) as Hne.
    pose proof (lookup_groupSignals (Signal.action s) signals) as Hl.
    destruct (filter _ signals) as [|x l]; [congruence|].
    exact (lookup_action_Some_keys _ _ _ Hl). }
  assert (Hfin : forall a, a ∈ map fst scores -> exists q, scoreOf scores a = Fin q).
  { intros a Ha.
    assert (Hn : nonneg (scoreOf scores a)).
    { apply scoreOf_nonneg; [|exact Ha]. unfold scores, actionScores.
      apply Forall_map.
      eapply Forall_impl; [apply groupSignals_in_range, Hs|].
      intros [a' ss] Hss. cbn in *. apply actionScore_nonneg; assumption. }
    destruct Hn as (q & Hq & _). eauto. }
  unfold bestActionOf. destruct (map fst scores) as [|k0 ks] eqn:Hkeys.
  - apply elem_of_nil in Hkey. contradiction.
  - cbn [hd tail]. apply fold_best_is_maximal; [exact Hfin | exact Hkey].
Qed.

Lemma best_action_witness :
  le (actionScore Sample.defaultConfigs
        [Sample.signal Action.SELL 70 "funding-arbitrage"])
     (bestScore Sample.defaultConfigs
        [Sample.signal Action.BUY 80 "momentum";
         Sample.signal Action.SELL 70 "funding-arbitrage";
         Sample.signal Action.BUY 75 "mean-reversion"]) = true.
Proof.
  apply (best_action_has_the_highest_score Sample.defaultConfigs
           [Sample.signal Action.BUY 80 "momentum";
            Sample.signal Action.SELL 70 "funding-arbitrage";
            Sample.signal Action.BUY 75 "mean-reversion"]
           (Sample.signal Action.SELL 70 "funding-arbitrage")).
  - repeat constructor.
  - repeat constructor.
  - right; left.
Defined.

Lemma keys_group_push_new (a : Action.t) (s : Signal.t) (groups : Groups) :
  a ∉ map fst groups ->
  map fst (group_push a s groups) = map fst groups ++ [a].
Proof.
  induction groups as [|[a' ss] groups IH]; cbn; [reflexivity|].
  intros Hnot. destruct (decide (a = a')) as [->|Hne].
  - exfalso. apply Hnot. left.
  - cbn. f_equal. apply IH. intros H. apply Hnot. right. exact H.
Qed.

Lemma groupSignals_snoc (signals : list Signal.t) (s : Signal.t) :
  groupSignals (signals ++ [s])
  = group_push (Signal.action s) s (groupSignals signals).
Proof. unfold groupSignals. rewrite fold_left_app. reflexivity. Qed.

Lemma keys_groupSignals_proposed (a : Action.t) (signals : list Signal.t) :
  a ∈ map fst (groupSignals signals) -> a ∈ map Signal.action signals.
Proof.
  intros H. apply lookup_action_keys in H as [l Hl].
  rewrite lookup_groupSignals in Hl.
  destruct (filter _ signals) as [|x l'] eqn:Hf; [discriminate|].
  assert (Hx : x ∈ filter (fun s => Signal.action s = a) signals)
    by (rewrite Hf; left).
  apply list_elem_of_filter in Hx as [<- Hx].
  apply list_elem_of_fmap. exists x. split; [reflexivity | exact Hx].
Qed.

(** X28. An action first proposed by the last signal wins whenever no
    action proposed earlier scores strictly more than it; in particular it
    wins every tie. *)
Theorem last_new_action_wins_ties
    (configs : JsMap.t StrategyConfig.t) (earlier : list Signal.t)
    (s : Signal.t) :
  let score a :=
    scoreOf (actionScores configs (groupSignals (earlier ++ [s]))) a in
  Signal.action s ∉ map Signal.action earlier ->
  (forall s', s' ∈ earlier ->
     gt (score (Signal.action s')) (score (Signal.action s)) = false) ->
  bestAction configs (earlier ++ [s]) = Signal.action s.
Proof.
  intros score Hnew Hties. subst score. cbv beta in Hties.
  unfold bestAction, bestActionOf.
  set (scores := actionScores configs (groupSignals (earlier ++ [s]))) in *.
  assert (Hfresh : Signal.action s ∉ map fst (groupSignals earlier)).
  { intros H. apply Hnew. exact (keys_groupSignals_proposed _ _ H). }
  assert (Hk : map fst scores = map fst (groupSignals earlier) ++ [Signal.action s]).
  { unfold scores. rewrite keys_actionScores, groupSignals_snoc.
    exact (keys_group_push_new _ _ _ Hfresh). }
  rewrite Hk.
  assert (Hkeys : forall a, a ∈ map fst (groupSignals earlier) ->
            gt (scoreOf scores a) (scoreOf scores (Signal.action s)) = false).
  { intros a Ha. apply keys_groupSignals_proposed in Ha.
    apply list_elem_of_fmap in Ha as (s' & -> & Hs'). exact (Hties s' Hs'). }
  destruct (map fst (groupSignals earlier)) as [|k0 ks]; [reflexivity|].
  cbn [app hd tail]. rewrite fold_left_app. cbn [fold_left].
  assert (Hacc : forall l acc, acc ∈ k0 :: ks -> l ⊆ k0 :: ks ->
            fold_left
              (fun a b => if gt (scoreOf scores a) (scoreOf scores b) then a else b)
              l acc
            ∈ k0 :: ks).
  { induction l as [|b l IH]; intros acc Ha Hl; cbn [fold_left]; [exact Ha|].
    apply IH.
    - destruct (gt _ _); [exact Ha | apply Hl; left].
    - intros y Hy. apply Hl. right. exact Hy. }
  rewrite (Hkeys _ (Hacc ks k0 ltac:(left) ltac:(intros y Hy; right; exact Hy))).
  reflexivity.
Qed.

(** Two strategies of weight 0.3 disagree with the same confidence: the
    action of the second one is chosen. *)
Lemma last_new_action_witness :
  bestAction Sample.defaultConfigs
    ([Sample.signal Action.BUY 60 "mean-reversion"]
       ++ [Sample.signal Action.SELL 60 "funding-arbitrage"])
  = Action.SELL.
Proof.
  apply (last_new_action_wins_ties Sample.defaultConfigs
           [Sample.signal Action.BUY 60 "mean-reversion"]
           (Sample.signal Action.SELL 60 "funding-arbitrage")).
  - intros H. apply list_elem_of_singleton in H. discriminate.
  - intros s' Hs'. apply list_elem_of_singleton in Hs' as ->. reflexivity.
Defined.

End GroupingFacts.

(** ** Built-in strategies and the market-data cache *)

Section StrategyFacts.
Import Strategy Spec.

Lemma at_index_latest (marketData : list MarketData.t) :
  (1 <= length marketData)%nat ->
  at_index marketData (Z.of_nat (length marketData) - 1) = last marketData.
Proof.
  intros Hlen. unfold at_index.
  destruct (decide (Z.of_nat (length marketData) - 1 < 0)%Z); [lia|].
  rewrite last_lookup. f_equal. lia.
Qed.

Lemma last_is_Some (marketData : list MarketData.t) :
  (1 <= length marketData)%nat -> exists d, last marketData = Some d.
Proof.
  intros Hlen. rewrite last_lookup.
  destruct (lookup_lt_is_Some_2 marketData (pred (length marketData)))
    as [d Hd]; [lia | eauto].
Qed.

Lemma at_index_in_range (marketData : list MarketData.t) (i : Z) :
  (0 <= i < Z.of_nat (length marketData))%Z ->
  exists d, at_index marketData i = Some d.
Proof.
  intros Hi. unfold at_index. destruct (decide (i < 0)%Z); [lia|].
  destruct (lookup_lt_is_Some_2 marketData (Z.to_nat i)) as [d Hd]; [lia | eauto].
Qed.

Lemma min_cap_in_range (lo hi : Qc) (x : num) :
  lo <= hi -> le (Fin lo) x = true ->
  in_range (Fin lo) (Fin hi) (min (Fin hi) x) = true.
Proof.
  intros Hlh Hx. unfold in_range. apply andb_true_iff.
  destruct x as [q| | |]; try discriminate.
  - apply le_Fin in Hx. unfold min. cbn [compare].
    destruct (hi ?= q) eqn:E.
    + split; apply le_Fin; [exact Hlh | apply Qcle_refl].
    + split; apply le_Fin; [exact Hlh | apply Qcle_refl].
    + split; apply le_Fin; [exact Hx|]. apply Qclt_le_weak.
      rewrite Qclt_alt, (Qccompare_antisym hi q), E. reflexivity.
  - change (min (Fin hi) PInf) with (Fin hi).
    split; apply le_Fin; [exact Hlh | apply Qcle_refl].
Qed.

Lemma le_add_Fin (c a lo : Qc) (y : num) :
  lo <= c + a -> le (Fin a) y = true -> le (Fin lo) (Fin c + y)%num = true.
Proof.
  intros Hlo Hy. destruct y as [q| | |]; try discriminate; [|reflexivity].
  apply le_Fin in Hy. cbn [add]. apply le_Fin.
  eapply Qcle_trans; [exact Hlo|]. apply Qcplus_le_mono_l. exact Hy.
Qed.

Lemma le_mul_Fin (c a lo : Qc) (y : num) :
  0 < c -> lo <= a * c -> le (Fin a) y = true ->
  le (Fin lo) (y * Fin c)%num = true.
Proof.
  intros Hc Hlo Hy. destruct y as [q| | |]; try discriminate.
  - apply le_Fin in Hy. cbn [mul]. apply le_Fin.
    eapply Qcle_trans; [exact Hlo|].
    apply Qcmult_le_mono_nonneg_r; [apply Qclt_le_weak, Hc | exact Hy].
  - change (PInf * Fin c)%num with (inf_of_sign (sign_mul Gt (c ?= 0))).
    assert (Hcmp : (0 ?= c) = Lt) by (apply Qclt_alt; exact Hc).
    rewrite (Qccompare_antisym 0 c), Hcmp. reflexivity.
Qed.

Lemma le_abs_of_gt (a : Qc) (x : num) :
  0 <= a -> gt x (Fin a) = true -> le (Fin a) (abs x) = true.
Proof.
  intros Ha Hx. destruct x as [q| | |]; try discriminate; [|reflexivity].
  apply gt_Fin in Hx. cbn [abs]. unfold Qcltb.
  assert (Hq : 0 < q) by (eapply Qcle_lt_trans; eassumption).
  assert (Hcmp : (0 ?= q) = Lt) by (apply Qclt_alt; exact Hq).
  rewrite (Qccompare_antisym 0 q), Hcmp. cbn [CompOpp].
  apply le_Fin, Qclt_le_weak, Hx.
Qed.

Lemma le_abs_of_lt (a b : Qc) (x : num) :
  0 <= a -> b <= - a -> lt x (Fin b) = true -> le (Fin a) (abs x) = true.
Proof.
  intros Ha Hb Hx. destruct x as [q| | |]; try discriminate; [|reflexivity].
  apply lt_Fin in Hx. cbn [abs]. unfold Qcltb.
  assert (Hqa : q < - a) by (eapply Qclt_le_trans; eassumption).
  assert (Hq : q < 0).
  { eapply Qclt_le_trans; [exact Hqa|].
    apply (Qcplus_le_mono_r _ _ a). replace (- a + a) with 0 by ring.
    rewrite Qcplus_0_l. exact Ha. }
  assert (Hcmp : (q ?= 0) = Lt) by (apply Qclt_alt; exact Hq).
  rewrite Hcmp. apply le_Fin. apply Qclt_le_weak.
  apply (Qcplus_lt_mono_r _ _ (q + - a)).
  replace (a + (q + - a)) with q by ring.
  replace (- q + (q + - a)) with (- a) by ring. exact Hqa.
Qed.

Ltac qc_le := apply Qcle_alt; vm_compute; discriminate.
Ltac qc_lt := apply Qclt_alt; vm_compute; reflexivity.

Ltac one_signal Hlen Hlast :=
  eexists; split; [reflexivity|]; split; [cbn; lia|];
  intros s Hs; apply list_elem_of_singleton in Hs as ->;
  cbn [Signal.action Signal.symbol Signal.strategy Signal.confidence
       Signal.targetPrice Signal.stopLoss];
  rewrite ?Hlast; cbn [fmap option_fmap option_map];
  repeat split; try reflexivity; try exact Hlen;
  try (left; reflexivity); try (right; reflexivity).

Ltac no_signal :=
  exists []; split; [reflexivity|]; split; [cbn; lia|];
  intros s Hs; apply elem_of_nil in Hs; contradiction.

(** X29. The three built-in strategies never throw and emit at most one
    signal, a BUY or a SELL for the symbol of the latest data point without
    target price or stop-loss: momentum needs 20 data points and gives a
    confidence within [62, 80], mean reversion needs 20 and gives a
    confidence within [56, 75], funding arbitrage needs one and gives 70. *)
Theorem builtin_strategies_emit_one_bounded_signal
    (toFixed : num -> nat -> string) (now : Z) :
  emitsOneBoundedSignal (MomentumStrategy.analyze toFixed now)
    "momentum" 20 (ofZ 62) (ofZ 80)
  /\ emitsOneBoundedSignal (MeanReversionStrategy.analyze toFixed now)
       "mean-reversion" 20 (ofZ 56) (ofZ 75)
  /\ emitsOneBoundedSignal (FundingArbitrageStrategy.analyze toFixed now)
       "funding-arbitrage" 1 (ofZ 70) (ofZ 70).
Proof.
  split; [|split]; intros marketData config.
  - unfold MomentumStrategy.analyze.
    destruct (decide (length marketData < 20)%nat) as [|Hlen]; [no_signal|].
    assert (Hlen' : (20 <= length marketData)%nat) by lia.
    rewrite at_index_latest by lia.
    destruct (last_is_Some marketData) as [latest Hlast]; [lia|].
    destruct (at_index_in_range marketData (Z.of_nat (length marketData) - 10))
      as [past ->]; [lia|].
    rewrite Hlast. cbv zeta.
    set (priceChange :=
           ((MarketData.price latest - MarketData.price past)
            / MarketData.price past * ofZ 100)%num).
    destruct (gt priceChange (ofZ 2)) eqn:Hup;
      [|destruct (lt priceChange (ofZ (-2))) eqn:Hdown; [|no_signal]].
    + one_signal Hlen' Hlast.
      apply min_cap_in_range; [qc_le|].
      apply (le_add_Fin _ (Q2Qc (inject_Z 2))); [qc_le|].
      apply le_abs_of_gt; [qc_le | exact Hup].
    + one_signal Hlen' Hlast.
      apply min_cap_in_range; [qc_le|].
      apply (le_add_Fin _ (Q2Qc (inject_Z 2))); [qc_le|].
      apply (le_abs_of_lt _ (Q2Qc (inject_Z (-2)))); [qc_le | qc_le | exact Hdown].
  - unfold MeanReversionStrategy.analyze.
    destruct (decide (length marketData < 20)%nat) as [|Hlen]; [no_signal|].
    assert (Hlen' : (20 <= length marketData)%nat) by lia.
    rewrite at_index_latest by lia.
    destruct (last_is_Some marketData) as [latest Hlast]; [lia|].
    rewrite Hlast. cbv zeta.
    match goal with
    | |- context [gt ?d (ofZ 3)] => set (deviation := d)
    end.
    destruct (gt deviation (ofZ 3)) eqn:Hup;
      [|destruct (lt deviation (ofZ (-3))) eqn:Hdown; [|no_signal]].
    + one_signal Hlen' Hlast.
      apply min_cap_in_range; [qc_le|].
      apply (le_add_Fin _ (Q2Qc (inject_Z 6))); [qc_le|].
      apply (le_mul_Fin _ (Q2Qc (inject_Z 3))); [qc_lt | qc_le |].
      apply le_abs_of_gt; [qc_le | exact Hup].
    + one_signal Hlen' Hlast.
      apply min_cap_in_range; [qc_le|].
      apply (le_add_Fin _ (Q2Qc (inject_Z 6))); [qc_le|].
      apply (le_mul_Fin _ (Q2Qc (inject_Z 3))); [qc_lt | qc_le |].
      apply (le_abs_of_lt _ (Q2Qc (inject_Z (-3)))); [qc_le | qc_le | exact Hdown].
  - unfold FundingArbitrageStrategy.analyze.
    destruct (decide (length marketData < 1)%nat) as [|Hlen]; [no_signal|].
    assert (Hlen' : (1 <= length marketData)%nat) by lia.
    rewrite at_index_latest by lia.
    destruct (last_is_Some marketData) as [latest Hlast]; [lia|].
    rewrite Hlast. cbv zeta.
    destruct (gt (MarketData.fundingRate latest) (frac 1 100));
      [|destruct (lt (MarketData.fundingRate latest) (frac (-5) 1000));
        [|no_signal]];
      one_signal Hlen' Hlast.
Qed.

(** X30. An update of the market data never throws, keeps every cached
    series within 100 data points when they were, leaves the series of the
    other symbols alone, and puts the new data point last in the series of
    its symbol. *)
Theorem market_data_cache_stays_bounded
    (symbol : string) (data : MarketData.t) (cache : MarketDataCache.t) :
  seriesBounded 100 cache ->
  exists cache',
    MarketDataCache.handleMarketDataUpdate symbol data cache = inr cache'
    /\ seriesBounded 100 cache'
    /\ (exists series,
          JsMap.get symbol cache' = Some series /\ last series = Some data)
    /\ (forall other, other <> symbol ->
          JsMap.get other cache' = JsMap.get other cache).
Proof.
  intros Hbounded. unfold MarketDataCache.handleMarketDataUpdate.
  set (cache1 := if JsMap.has symbol cache then cache
                 else JsMap.set symbol [] cache).
  assert (H1 : exists series,
            JsMap.get symbol cache1 = Some series
            /\ (length series <= 100)%nat
            /\ forall other, other <> symbol ->
                 JsMap.get other cache1 = JsMap.get other cache).
  { unfold cache1, JsMap.has.
    destruct (JsMap.get symbol cache) as [series|] eqn:Hget.
    - exists series. repeat split; [exact Hget | exact (Hbounded _ _ Hget)].
    - exists []. repeat split; [apply get_set_eq | cbn; lia |].
      intros other Hne. apply get_set_ne, Hne. }
  destruct H1 as (series & Hget & Hlen & Hother). rewrite Hget.
  set (pushed := series ++ [data]).
  set (kept := if decide (100 < length pushed)%nat then tail pushed else pushed).
  assert (Hpushed : length pushed = S (length series)).
  { unfold pushed. rewrite length_app. cbn. lia. }
  assert (Hkept : (length kept <= 100)%nat /\ last kept = Some data).
  { unfold kept. destruct (decide (100 < length pushed)%nat) as [Hover|Hfits].
    - split.
      + destruct pushed; cbn in *; lia.
      + unfold pushed. destruct series as [|d0 series']; [cbn in *; lia|].
        cbn [app tail]. apply last_snoc.
    - split; [lia|]. unfold pushed. apply last_snoc. }
  destruct Hkept as [Hkeptlen Hlast].
  eexists. split; [reflexivity|]. split; [|split].
  - intros k l Hk. destruct (decide (k = symbol)) as [->|Hne].
    + rewrite get_set_eq in Hk. injection Hk as <-. exact Hkeptlen.
    + rewrite (get_set_ne _ _ _ _ Hne), (Hother _ Hne) in Hk.
      exact (Hbounded _ _ Hk).
  - exists kept. split; [apply get_set_eq | exact Hlast].
  - intros other Hne. rewrite (get_set_ne _ _ _ _ Hne). exact (Hother _ Hne).
Qed.

Lemma market_data_cache_witness :
  exists cache',
    MarketDataCache.handleMarketDataUpdate "BTCUSDT"
      (MarketData.mk "BTCUSDT" (ofZ 50000) (ofZ 49999) (ofZ 50001) (ofZ 0)
         (ofZ 0) (ofZ 0) 0 None None) [] = inr cache'
    /\ seriesBounded 100 cache'
    /\ (exists series,
          JsMap.get "BTCUSDT" cache' = Some series
          /\ last series
             = Some (MarketData.mk "BTCUSDT" (ofZ 50000) (ofZ 49999) (ofZ 50001)
                       (ofZ 0) (ofZ 0) (ofZ 0) 0 None None))
    /\ (forall other, other <> "BTCUSDT" ->
          JsMap.get other cache' = JsMap.get other []).
Proof.
  apply (market_data_cache_stays_bounded "BTCUSDT"
           (MarketData.mk "BTCUSDT" (ofZ 50000) (ofZ 49999) (ofZ 50001) (ofZ 0)
              (ofZ 0) (ofZ 0) 0 None None) []).
  intros k l Hk. discriminate.
Defined.

End StrategyFacts.
